(** * Kernel::Process (src/core/hle/kernel/process.cpp)

    A shallow embedding of the HLE kernel's process object: capability
    descriptor parsing, the paged TLS slot allocator, the address-space
    facade, module loading and the process life cycle, followed by the
    properties proved about them.

    Conventions.
    - [u32]/[u64] values are [Z] with the wrap-around written out
      ([wrap32], [wrap64]); a [std::bitset<N>] is the [Z] whose bit [i]
      is the bitset's bit [i].
    - [std::vector] is a [list], indexed with stdpp's lookup and insert.
    - Calls into collaborators whose code is outside process.cpp
      (VMManager, KernelCore, schedulers, threads, CPU cores, the log)
      are recorded, in program order, in the [events] of the [System];
      what they answer comes from the interfaces [VMManagerOps] and
      [KernelCoreOps].
    - A failed [ASSERT_MSG], a failed [Unwrap] and an out-of-range
      container access end the run: the outcome is [Abort]. *)

From Stdlib Require Import ZArith Lia String Bool.
From stdpp Require Import base decidable list numbers.

Local Open Scope Z_scope.

(** ** Machine integers and bitsets *)

Definition wrap32 (x : Z) : Z := x mod 2 ^ 32.
Definition wrap64 (x : Z) : Z := x mod 2 ^ 64.

(** [x << n] on a [u32]. *)
Definition shl32 (x n : Z) : Z := wrap32 (Z.shiftl x n).

(** [std::bitset<N>]: [test], [set(pos)], [reset(pos)], [set(pos, val)],
    [set()] and [all()]. The callers guard the position. *)
Definition bitset_test (b : Z) (pos : Z) : bool := Z.testbit b pos.
Definition bitset_set (b : Z) (pos : Z) : Z := Z.setbit b pos.
Definition bitset_reset (b : Z) (pos : Z) : Z := Z.clearbit b pos.
Definition bitset_assign (b : Z) (pos : Z) (val : bool) : Z :=
  if val then bitset_set b pos else bitset_reset b pos.
Definition bitset_set_all (n : Z) : Z := Z.ones n.
Definition bitset_all (n : Z) (b : Z) : bool := b =? Z.ones n.

(** ** Enumerations *)

Module ProcessStatus.
Inductive t := Created | Running | Exiting | Exited.

(** The order in which the life cycle lists the states. *)
Definition rank (s : t) : Z :=
  match s with Created => 0 | Running => 1 | Exiting => 2 | Exited => 3 end.
End ProcessStatus.

#[global] Instance ProcessStatus_eq_dec : EqDecision ProcessStatus.t.
Proof. solve_decision. Defined.

Module ThreadStatus.
(** Modelled from the spec: core/hle/kernel/thread.h is not in the
    sources at hand. process.cpp names [WaitSynchAny] and
    [WaitSynchAll], the blocking-wait states; the other scheduling
    states are listed for completeness. *)
Inductive t :=
| Running | Ready | WaitHLEEvent | WaitSleep | WaitIPC
| WaitSynchAny | WaitSynchAll | WaitMutex | WaitArb | Dormant | Dead.
End ThreadStatus.

#[global] Instance ThreadStatus_eq_dec : EqDecision ThreadStatus.t.
Proof. solve_decision. Defined.

Module VMAPermission.
(** Modelled from the spec: core/hle/kernel/vm_manager.h is not in the
    sources at hand. The enumerators are the combinations of the
    three access rights; process.cpp uses [ReadExecute], [Read] and
    [ReadWrite]. *)
Inductive t :=
| None | Read | Write | Execute
| ReadWrite | ReadExecute | WriteExecute | ReadWriteExecute.

Definition allows_read (p : t) : bool :=
  match p with
  | Read | ReadWrite | ReadExecute | ReadWriteExecute => true
  | _ => false
  end.
Definition allows_write (p : t) : bool :=
  match p with
  | Write | ReadWrite | WriteExecute | ReadWriteExecute => true
  | _ => false
  end.
Definition allows_execute (p : t) : bool :=
  match p with
  | Execute | ReadExecute | WriteExecute | ReadWriteExecute => true
  | _ => false
  end.

Definition execute_only (p : t) : bool :=
  allows_execute p && negb (allows_read p) && negb (allows_write p).
Definition read_only (p : t) : bool :=
  allows_read p && negb (allows_write p) && negb (allows_execute p).
Definition read_write (p : t) : bool :=
  allows_read p && allows_write p && negb (allows_execute p).
Definition read_execute (p : t) : bool :=
  allows_read p && allows_execute p && negb (allows_write p).
End VMAPermission.

Module MemoryState.
(** The memory-state tags process.cpp passes to the VM manager. *)
Inductive t := Mapped | ThreadLocal | CodeStatic | CodeMutable | Other (raw : Z).
End MemoryState.

Module MemoryRegion.
Inductive t := APPLICATION | SYSTEM | BASE.
End MemoryRegion.

(** [ResultCode]: success, the kernel's invalid-state error, or any other
    code a collaborator hands back. *)
Inductive ResultCode :=
| RESULT_SUCCESS
| ERR_INVALID_STATE
| ERR_OTHER (raw : Z).

Inductive ResultVal (A : Type) :=
| Succeeded (value : A)
| Failed (code : ResultCode).
Arguments Succeeded {A} value.
Arguments Failed {A} code.

(** ** Plain data *)

Definition VAddr := Z.
Definition VMAHandle := Z.
(** [std::shared_ptr<std::vector<u8>>], by its contents. *)
Definition Block := list Z.

Record AddressMapping := mkAddressMapping {
  address : VAddr;
  size : Z;
  read_only : bool;
  unk_flag : bool;
}.

Record Segment := mkSegment {
  seg_offset : Z;
  seg_addr : VAddr;
  seg_size : Z;
}.

Record CodeSet := mkCodeSet {
  CodeSegment : Segment;
  RODataSegment : Segment;
  DataSegment : Segment;
  memory : Block;
}.

Record ProgramMetadata := mkProgramMetadata {
  GetTitleID : Z;
  GetMainThreadCore : Z;
  Is64BitProgram : bool;
  GetAddressSpaceType : Z;
}.

Record Thread := mkThread {
  thread_id : Z;
  GetOwnerProcess : Z;
  GetStatus : ThreadStatus.t;
  GetTLSMemory : Block;
}.

Inductive LogLevel := LogInfo | LogWarning | LogError | LogCritical.

(** Requests sent to collaborators, in program order. *)
Inductive Event :=
| LOG (level : LogLevel) (message : string)
| WakeupAllWaitingThreads
| ClearInstructionCache (core : Z)
| ThreadStop (thread : Z)
| SetupMainThread (entry_point : VAddr) (priority : Z)
| VmReset (type : Z)
| VmMapMemoryBlock (target : VAddr) (offset size : Z) (state : MemoryState.t)
| VmReprotect (vma : VMAHandle) (permissions : VMAPermission.t)
| VmRefreshMemoryBlockMappings
| VmLogLayout
| VmHeapAllocate (target : VAddr) (size : Z) (perms : VMAPermission.t)
| VmHeapFree (target : VAddr) (size : Z)
| VmMirrorMemory (dst_addr src_addr : VAddr) (size : Z) (state : MemoryState.t)
| VmUnmapRange (target : VAddr) (size : Z).

(** ** Declarations and collaborators outside process.cpp *)

(** Constants that process.cpp takes from headers (core/memory.h,
    process.h). *)
Class Declarations := {
  PAGE_SIZE : Z;
  TLS_ENTRY_SIZE : Z;
  (** [svc_access_mask.size()] *)
  SVC_ACCESS_MASK_SIZE : Z;
  (** [flags.memory_region.Assign(region)] on the raw flags word *)
  memory_region_Assign : Z -> MemoryRegion.t -> Z;
  (** the words [std::generate] draws from
      [std::uniform_int_distribution<u64>] over [std::mt19937 rng(seed)]
      to fill [random_entropy] *)
  generate_entropy : Z -> list Z;
}.

(** [Kernel::VMManager], as far as process.cpp calls it. *)
Class VMManagerOps (VM : Type) := {
  vm_Reset : Z -> VM -> VM;
  vm_MapMemoryBlock :
    VAddr -> Block -> Z -> Z -> MemoryState.t -> VM -> ResultVal VMAHandle * VM;
  vm_Reprotect : VMAHandle -> VMAPermission.t -> VM -> VM;
  vm_RefreshMemoryBlockMappings : Block -> VM -> VM;
  vm_HeapAllocate : VAddr -> Z -> VMAPermission.t -> VM -> ResultVal VAddr * VM;
  vm_HeapFree : VAddr -> Z -> VM -> ResultCode * VM;
  vm_MirrorMemory : VAddr -> VAddr -> Z -> MemoryState.t -> VM -> ResultCode * VM;
  vm_UnmapRange : VAddr -> Z -> VM -> ResultCode * VM;
  vm_GetTLSIORegionBaseAddress : VM -> VAddr;
  vm_GetTLSIORegionEndAddress : VM -> VAddr;
}.

(** [Kernel::KernelCore], as far as [Process::Create] calls it. *)
Class KernelCoreOps (K : Type) := {
  GetSystemResourceLimit : K -> Z;
  CreateNewProcessID : K -> Z * K;
  AppendNewProcess : Z -> K -> K;
}.

(** ** The process object *)

Section Process.
Context {VM : Type}.

Record Process := mkProcess {
  name : string;
  flags_raw : Z;
  resource_limit : Z;
  status : ProcessStatus.t;
  program_id : Z;
  process_id : Z;
  svc_access_mask : Z;
  random_entropy : list Z;
  is_signaled : bool;
  ideal_processor : Z;
  is_64bit_process : bool;
  vm_manager : VM;
  handle_table_size : Z;
  address_mappings : list AddressMapping;
  kernel_version : Z;
  tls_slots : list Z;
}.

Definition set_name v (p : Process) : Process :=
  mkProcess v (flags_raw p) (resource_limit p) (status p) (program_id p)
    (process_id p) (svc_access_mask p) (random_entropy p) (is_signaled p)
    (ideal_processor p) (is_64bit_process p) (vm_manager p)
    (handle_table_size p) (address_mappings p) (kernel_version p) (tls_slots p).
Definition set_flags_raw v (p : Process) : Process :=
  mkProcess (name p) v (resource_limit p) (status p) (program_id p)
    (process_id p) (svc_access_mask p) (random_entropy p) (is_signaled p)
    (ideal_processor p) (is_64bit_process p) (vm_manager p)
    (handle_table_size p) (address_mappings p) (kernel_version p) (tls_slots p).
Definition set_resource_limit v (p : Process) : Process :=
  mkProcess (name p) (flags_raw p) v (status p) (program_id p)
    (process_id p) (svc_access_mask p) (random_entropy p) (is_signaled p)
    (ideal_processor p) (is_64bit_process p) (vm_manager p)
    (handle_table_size p) (address_mappings p) (kernel_version p) (tls_slots p).
Definition set_status v (p : Process) : Process :=
  mkProcess (name p) (flags_raw p) (resource_limit p) v (program_id p)
    (process_id p) (svc_access_mask p) (random_entropy p) (is_signaled p)
    (ideal_processor p) (is_64bit_process p) (vm_manager p)
    (handle_table_size p) (address_mappings p) (kernel_version p) (tls_slots p).
Definition set_program_id v (p : Process) : Process :=
  mkProcess (name p) (flags_raw p) (resource_limit p) (status p) v
    (process_id p) (svc_access_mask p) (random_entropy p) (is_signaled p)
    (ideal_processor p) (is_64bit_process p) (vm_manager p)
    (handle_table_size p) (address_mappings p) (kernel_version p) (tls_slots p).
Definition set_process_id v (p : Process) : Process :=
  mkProcess (name p) (flags_raw p) (resource_limit p) (status p) (program_id p)
    v (svc_access_mask p) (random_entropy p) (is_signaled p)
    (ideal_processor p) (is_64bit_process p) (vm_manager p)
    (handle_table_size p) (address_mappings p) (kernel_version p) (tls_slots p).
Definition set_svc_access_mask v (p : Process) : Process :=
  mkProcess (name p) (flags_raw p) (resource_limit p) (status p) (program_id p)
    (process_id p) v (random_entropy p) (is_signaled p)
    (ideal_processor p) (is_64bit_process p) (vm_manager p)
    (handle_table_size p) (address_mappings p) (kernel_version p) (tls_slots p).
Definition set_random_entropy v (p : Process) : Process :=
  mkProcess (name p) (flags_raw p) (resource_limit p) (status p) (program_id p)
    (process_id p) (svc_access_mask p) v (is_signaled p)
    (ideal_processor p) (is_64bit_process p) (vm_manager p)
    (handle_table_size p) (address_mappings p) (kernel_version p) (tls_slots p).
Definition set_is_signaled v (p : Process) : Process :=
  mkProcess (name p) (flags_raw p) (resource_limit p) (status p) (program_id p)
    (process_id p) (svc_access_mask p) (random_entropy p) v
    (ideal_processor p) (is_64bit_process p) (vm_manager p)
    (handle_table_size p) (address_mappings p) (kernel_version p) (tls_slots p).
Definition set_ideal_processor v (p : Process) : Process :=
  mkProcess (name p) (flags_raw p) (resource_limit p) (status p) (program_id p)
    (process_id p) (svc_access_mask p) (random_entropy p) (is_signaled p)
    v (is_64bit_process p) (vm_manager p)
    (handle_table_size p) (address_mappings p) (kernel_version p) (tls_slots p).
Definition set_is_64bit_process v (p : Process) : Process :=
  mkProcess (name p) (flags_raw p) (resource_limit p) (status p) (program_id p)
    (process_id p) (svc_access_mask p) (random_entropy p) (is_signaled p)
    (ideal_processor p) v (vm_manager p)
    (handle_table_size p) (address_mappings p) (kernel_version p) (tls_slots p).
Definition set_vm_manager v (p : Process) : Process :=
  mkProcess (name p) (flags_raw p) (resource_limit p) (status p) (program_id p)
    (process_id p) (svc_access_mask p) (random_entropy p) (is_signaled p)
    (ideal_processor p) (is_64bit_process p) v
    (handle_table_size p) (address_mappings p) (kernel_version p) (tls_slots p).
Definition set_handle_table_size v (p : Process) : Process :=
  mkProcess (name p) (flags_raw p) (resource_limit p) (status p) (program_id p)
    (process_id p) (svc_access_mask p) (random_entropy p) (is_signaled p)
    (ideal_processor p) (is_64bit_process p) (vm_manager p)
    v (address_mappings p) (kernel_version p) (tls_slots p).
Definition set_address_mappings v (p : Process) : Process :=
  mkProcess (name p) (flags_raw p) (resource_limit p) (status p) (program_id p)
    (process_id p) (svc_access_mask p) (random_entropy p) (is_signaled p)
    (ideal_processor p) (is_64bit_process p) (vm_manager p)
    (handle_table_size p) v (kernel_version p) (tls_slots p).
Definition set_kernel_version v (p : Process) : Process :=
  mkProcess (name p) (flags_raw p) (resource_limit p) (status p) (program_id p)
    (process_id p) (svc_access_mask p) (random_entropy p) (is_signaled p)
    (ideal_processor p) (is_64bit_process p) (vm_manager p)
    (handle_table_size p) (address_mappings p) v (tls_slots p).
Definition set_tls_slots v (p : Process) : Process :=
  mkProcess (name p) (flags_raw p) (resource_limit p) (status p) (program_id p)
    (process_id p) (svc_access_mask p) (random_entropy p) (is_signaled p)
    (ideal_processor p) (is_64bit_process p) (vm_manager p)
    (handle_table_size p) (address_mappings p) (kernel_version p) v.

(** What an operation of the process can see and change: the process
    itself ([this]), the thread list of each core's scheduler, the
    thread that is executing the call, and the requests sent so far. *)
Record System := mkSystem {
  this : Process;
  Scheduler_GetThreadList : Z -> list Thread;
  GetCurrentThread : option Z;
  events : list Event;
}.

Definition with_this (p : Process) (s : System) : System :=
  mkSystem p (Scheduler_GetThreadList s) (GetCurrentThread s) (events s).
Definition with_events (evs : list Event) (s : System) : System :=
  mkSystem (this s) (Scheduler_GetThreadList s) (GetCurrentThread s)
    (events s ++ evs).
Definition with_event (e : Event) (s : System) : System := with_events [e] s.

(** ** State and abort monad *)

Inductive Outcome (A : Type) :=
| Done (value : A) (s : System)
| Abort (s : System).
Arguments Done {A} value s.
Arguments Abort {A} s.

Definition M (A : Type) : Type := System -> Outcome A.

Definition ret {A} (a : A) : M A := fun s => Done a s.
Definition bind {A B} (m : M A) (k : A -> M B) : M B :=
  fun s => match m s with
           | Done a s' => k a s'
           | Abort s' => Abort s'
           end.
Definition abort {A} : M A := fun s => Abort s.
Definition get_this : M Process := fun s => Done (this s) s.
Definition modify_this (f : Process -> Process) : M unit :=
  fun s => Done tt (with_this (f (this s)) s).
Definition emit (e : Event) : M unit := fun s => Done tt (with_event e s).
Definition ask {A} (f : System -> A) : M A := fun s => Done (f s) s.

Definition final_state {A} (o : Outcome A) : System :=
  match o with Done _ s => s | Abort s => s end.

End Process.

Arguments Process : clear implicits.
Arguments System : clear implicits.
Arguments Outcome : clear implicits.
Arguments M : clear implicits.
Arguments Done {VM A} value s.
Arguments Abort {VM A} s.

Declare Scope proc_scope.
Delimit Scope proc_scope with proc.
Notation "x <- m ;; k" := (bind m (fun x => k))
  (at level 100, m at next level, right associativity) : proc_scope.
Notation "m >> k" := (bind m (fun _ => k))
  (at level 100, k at level 200, right associativity) : proc_scope.

(** ** The operations of process.cpp *)

Section Operations.
Context {Decl : Declarations} {VM : Type} {VMOps : VMManagerOps VM}.
Local Open Scope proc_scope.

(** *** Logging, assertions and container accesses *)

Definition LOG_INFO (message : string) : M VM unit := emit (LOG LogInfo message).
Definition LOG_WARNING (message : string) : M VM unit := emit (LOG LogWarning message).
Definition LOG_ERROR (message : string) : M VM unit := emit (LOG LogError message).

(** [ASSERT_MSG(cond, message)]: a failed assertion logs and ends the run. *)
Definition ASSERT_MSG (cond : bool) (message : string) : M VM unit :=
  if cond then ret tt else (emit (LOG LogCritical message) >> abort).

(** [ResultVal::Unwrap()] asserts that a value is present. *)
Definition Unwrap {A} (r : ResultVal A) : M VM A :=
  match r with
  | Succeeded v => ret v
  | Failed _ => emit (LOG LogCritical "Tried to Unwrap empty ResultVal") >> abort
  end.

(** The slots of one TLS page: [std::bitset<8>]. *)
Definition TLS_PAGE_SLOTS : Z := 8.

(** [bitset<8>::set(pos)] and [reset(pos)] throw [std::out_of_range]
    for a position beyond the last bit. *)
Definition page_set (b pos : Z) : M VM Z :=
  if pos <? TLS_PAGE_SLOTS then ret (bitset_set b pos) else abort.
Definition page_reset (b pos : Z) : M VM Z :=
  if pos <? TLS_PAGE_SLOTS then ret (bitset_reset b pos) else abort.

(** [tls_slots[page] = f(tls_slots[page])]; [operator[]] beyond the end
    of the vector is undefined and ends the run here. *)
Definition update_tls_page (page : Z) (f : Z -> M VM Z) : M VM unit :=
  this <- get_this ;;
  match tls_slots this !! Z.to_nat page with
  | Some b =>
      b' <- f b ;;
      modify_this (fun p => set_tls_slots (<[Z.to_nat page := b']> (tls_slots p)) p)
  | None => abort
  end.

(** *** Calls into the VM manager *)

Definition MapMemoryBlock (target : VAddr) (block : Block) (offset size : Z)
    (state : MemoryState.t) : M VM (ResultVal VMAHandle) :=
  this <- get_this ;;
  let '(result, vm) :=
    vm_MapMemoryBlock target block offset size state (vm_manager this) in
  modify_this (set_vm_manager vm) >>
  emit (VmMapMemoryBlock target offset size state) >>
  ret result.

Definition Reprotect (vma : VMAHandle) (permissions : VMAPermission.t) : M VM unit :=
  modify_this (fun p => set_vm_manager (vm_Reprotect vma permissions (vm_manager p)) p) >>
  emit (VmReprotect vma permissions).

Definition RefreshMemoryBlockMappings (block : Block) : M VM unit :=
  modify_this (fun p =>
    set_vm_manager (vm_RefreshMemoryBlockMappings block (vm_manager p)) p) >>
  emit VmRefreshMemoryBlockMappings.

Definition UnmapRange (target : VAddr) (size : Z) : M VM ResultCode :=
  this <- get_this ;;
  let '(result, vm) := vm_UnmapRange target size (vm_manager this) in
  modify_this (set_vm_manager vm) >>
  emit (VmUnmapRange target size) >>
  ret result.

(** *** Process::Create *)

(** [fresh] is the object [new Process(kernel)] builds, with the member
    initialisers of process.h; [rng_seed] is [Settings::values.rng_seed]. *)
Definition Create {K : Type} {KOps : KernelCoreOps K}
    (kernel : K) (name : string) (rng_seed : option Z) (fresh : Process VM)
    : Process VM * K :=
  let process := fresh in
  let process := set_name name process in
  let process := set_flags_raw 0 process in
  let process :=
    set_flags_raw (memory_region_Assign (flags_raw process) MemoryRegion.APPLICATION)
      process in
  let process := set_resource_limit (GetSystemResourceLimit kernel) process in
  let process := set_status ProcessStatus.Created process in
  let process := set_program_id 0 process in
  let '(id, kernel) := CreateNewProcessID kernel in
  let process := set_process_id id process in
  let process := set_svc_access_mask (bitset_set_all SVC_ACCESS_MASK_SIZE) process in
  let process := set_random_entropy (generate_entropy (default 0 rng_seed)) process in
  (process, AppendNewProcess (process_id process) kernel).

Definition GetResourceLimit : M VM Z :=
  this <- get_this ;; ret (resource_limit this).

(** *** Process::ClearSignalState *)

Definition ClearSignalState : M VM ResultCode :=
  this <- get_this ;;
  if decide (status this = ProcessStatus.Exited) then
    LOG_ERROR "called on a terminated process instance." >>
    ret ERR_INVALID_STATE
  else if negb (is_signaled this) then
    LOG_ERROR "called on a process instance that isn't signaled." >>
    ret ERR_INVALID_STATE
  else
    modify_this (set_is_signaled false) >>
    ret RESULT_SUCCESS.

(** *** Process::LoadFromMetadata *)

Definition LoadFromMetadata (metadata : ProgramMetadata) : M VM unit :=
  modify_this (set_program_id (GetTitleID metadata)) >>
  modify_this (set_ideal_processor (GetMainThreadCore metadata)) >>
  modify_this (set_is_64bit_process (Is64BitProgram metadata)) >>
  modify_this (fun p =>
    set_vm_manager (vm_Reset (GetAddressSpaceType metadata) (vm_manager p)) p) >>
  emit (VmReset (GetAddressSpaceType metadata)).

(** *** Process::ParseKernelCaps *)

(** The [while (bits && index < svc_access_mask.size())] loop. A [u32]
    is zero after 32 right shifts, so [fuel = 32] never runs out
    ([svc_mask_loop_fuel]). *)
Fixpoint svc_mask_loop (fuel : nat) (bits index mask : Z) : Z :=
  match fuel with
  | O => mask
  | S fuel =>
      if negb (bits =? 0) && (index <? SVC_ACCESS_MASK_SIZE) then
        svc_mask_loop fuel (Z.shiftr bits 1) (index + 1)
          (bitset_assign mask index (negb (Z.land bits 1 =? 0)))
      else mask
  end.

(** The [for] loop over [kernel_caps[i .. len)]: the argument is the
    part of the array from [i] on; [++i] drops one more word. *)
Fixpoint ParseKernelCaps (kernel_caps : list Z) : M VM unit :=
  match kernel_caps with
  | [] => ret tt
  | descriptor :: rest =>
      let type := Z.shiftr descriptor 20 in
      if descriptor =? 0xFFFFFFFF then
        (* Unused descriptor entry *)
        ParseKernelCaps rest
      else if Z.land type 0xF00 =? 0xE00 then
        (* Allowed interrupts list *)
        LOG_WARNING "ExHeader allowed interrupts list ignored" >>
        ParseKernelCaps rest
      else if Z.land type 0xF80 =? 0xF00 then
        (* Allowed syscalls mask *)
        let index := Z.land (Z.shiftr descriptor 24) 7 * 24 in
        let bits := Z.land descriptor 0xFFFFFF in
        modify_this (fun p =>
          set_svc_access_mask (svc_mask_loop 32 bits index (svc_access_mask p)) p) >>
        ParseKernelCaps rest
      else if Z.land type 0xFF0 =? 0xFE0 then
        (* Handle table size *)
        modify_this (set_handle_table_size (Z.land descriptor 0x3FF)) >>
        ParseKernelCaps rest
      else if Z.land type 0xFF8 =? 0xFF0 then
        (* Misc. flags *)
        modify_this (set_flags_raw (Z.land descriptor 0xFFFF)) >>
        ParseKernelCaps rest
      else if Z.land type 0xFFE =? 0xFF8 then
        (* Mapped memory range *)
        match rest with
        | [] =>
            LOG_WARNING "Incomplete exheader memory range descriptor ignored." >>
            ParseKernelCaps rest
        | end_desc :: rest' =>
            if negb (Z.land (Z.shiftr end_desc 20) 0xFFE =? 0xFF8) then
              LOG_WARNING "Incomplete exheader memory range descriptor ignored." >>
              ParseKernelCaps rest
            else
              let mapping_address := shl32 descriptor 12 in
              let end_address := shl32 end_desc 12 in
              let mapping_size :=
                if mapping_address <? end_address
                then end_address - mapping_address else 0 in
              let mapping :=
                mkAddressMapping mapping_address mapping_size
                  (negb (Z.land descriptor (Z.shiftl 1 20) =? 0))
                  (negb (Z.land end_desc (Z.shiftl 1 20) =? 0)) in
              modify_this (fun p =>
                set_address_mappings (address_mappings p ++ [mapping]) p) >>
              ParseKernelCaps rest'
        end
      else if Z.land type 0xFFF =? 0xFFE then
        (* Mapped memory page *)
        let mapping := mkAddressMapping (shl32 descriptor 12) PAGE_SIZE false false in
        modify_this (fun p =>
          set_address_mappings (address_mappings p ++ [mapping]) p) >>
        ParseKernelCaps rest
      else if Z.land type 0xFE0 =? 0xFC0 then
        (* Kernel version *)
        modify_this (set_kernel_version (Z.land descriptor 0xFFFF)) >>
        LOG_INFO "ExHeader kernel version: {}.{}" >>
        ParseKernelCaps rest
      else
        LOG_ERROR "Unhandled kernel caps descriptor: 0x{:08X}" >>
        ParseKernelCaps rest
  end.

(** *** Process::ChangeStatus *)

Definition ChangeStatus (new_status : ProcessStatus.t) : M VM unit :=
  this <- get_this ;;
  if decide (status this = new_status) then ret tt
  else
    modify_this (set_status new_status) >>
    modify_this (set_is_signaled true) >>
    emit WakeupAllWaitingThreads.

Definition ShouldWait (thread : Thread) : M VM bool :=
  this <- get_this ;; ret (negb (is_signaled this)).

Definition Acquire (thread : Thread) : M VM unit :=
  wait <- ShouldWait thread ;;
  ASSERT_MSG (negb wait) "Object unavailable!".

(** *** Process::Run *)

Definition Run (entry_point : VAddr) (main_thread_priority : Z) (stack_size : Z)
    : M VM unit :=
  this <- get_this ;;
  result <- MapMemoryBlock
              (wrap64 (vm_GetTLSIORegionEndAddress (vm_manager this) - stack_size))
              (replicate (Z.to_nat stack_size) 0) 0 stack_size MemoryState.Mapped ;;
  _ <- Unwrap result ;;
  emit VmLogLayout >>
  ChangeStatus ProcessStatus.Running >>
  emit (SetupMainThread entry_point main_thread_priority).

(** *** Process::PrepareForTermination *)

Definition is_waiting (st : ThreadStatus.t) : bool :=
  bool_decide (st = ThreadStatus.WaitSynchAny) ||
  bool_decide (st = ThreadStatus.WaitSynchAll).

(** The lambda [stop_threads]. *)
Fixpoint stop_threads (thread_list : list Thread) : M VM unit :=
  match thread_list with
  | [] => ret tt
  | thread :: rest =>
      this <- get_this ;;
      current <- ask GetCurrentThread ;;
      if negb (GetOwnerProcess thread =? process_id this) then stop_threads rest
      else if bool_decide (Some (thread_id thread) = current) then stop_threads rest
      else
        ASSERT_MSG (is_waiting (GetStatus thread))
          "Exiting processes with non-waiting threads is currently unimplemented" >>
        emit (ThreadStop (thread_id thread)) >>
        stop_threads rest
  end.

Definition PrepareForTermination : M VM unit :=
  ChangeStatus ProcessStatus.Exiting >>
  (l <- ask (fun s => Scheduler_GetThreadList s 0) ;; stop_threads l) >>
  (l <- ask (fun s => Scheduler_GetThreadList s 1) ;; stop_threads l) >>
  (l <- ask (fun s => Scheduler_GetThreadList s 2) ;; stop_threads l) >>
  (l <- ask (fun s => Scheduler_GetThreadList s 3) ;; stop_threads l) >>
  ChangeStatus ProcessStatus.Exited.

(** *** The TLS slot allocator *)

(** The inner [for (slot = 0; slot < page_tls_slots.size(); ++slot)]. *)
Definition first_free_slot (page_tls_slots : Z) : option Z :=
  find (fun slot => negb (bitset_test page_tls_slots slot)) (seqZ 0 TLS_PAGE_SLOTS).

(** The outer [for] of [FindFreeThreadLocalSlot], from index [page] on. *)
Fixpoint FindFreeThreadLocalSlot_from (page : Z) (tls_slots : list Z)
    : Z * Z * bool :=
  match tls_slots with
  | [] => (0, 0, true)
  | page_tls_slots :: rest =>
      if negb (bitset_all TLS_PAGE_SLOTS page_tls_slots) then
        match first_free_slot page_tls_slots with
        | Some slot => (page, slot, false)
        | None => FindFreeThreadLocalSlot_from (page + 1) rest
        end
      else FindFreeThreadLocalSlot_from (page + 1) rest
  end.

Definition FindFreeThreadLocalSlot (tls_slots : list Z) : Z * Z * bool :=
  FindFreeThreadLocalSlot_from 0 tls_slots.

(** Returns the address and the thread, whose TLS memory may have grown. *)
Definition MarkNextAvailableTLSSlotAsUsed (thread : Thread) : M VM (VAddr * Thread) :=
  this <- get_this ;;
  let '(available_page, available_slot, needs_allocation) :=
    FindFreeThreadLocalSlot (tls_slots this) in
  let tls_begin := vm_GetTLSIORegionBaseAddress (vm_manager this) in
  chosen <-
    (if needs_allocation then
       (* The page is completely available at the start *)
       modify_this (fun p => set_tls_slots (tls_slots p ++ [0]) p) >>
       this <- get_this ;;
       let available_page := Z.of_nat (length (tls_slots this)) - 1 in
       let available_slot := 0 in
       let tls_memory := GetTLSMemory thread ++ replicate (Z.to_nat PAGE_SIZE) 0 in
       let thread :=
         mkThread (thread_id thread) (GetOwnerProcess thread) (GetStatus thread)
           tls_memory in
       RefreshMemoryBlockMappings tls_memory >>
       _ <- MapMemoryBlock (wrap64 (tls_begin + available_page * PAGE_SIZE))
              tls_memory 0 PAGE_SIZE MemoryState.ThreadLocal ;;
       ret (available_page, available_slot, thread)
     else ret (available_page, available_slot, thread)) ;;
  let '(available_page, available_slot, thread) := chosen in
  update_tls_page available_page (fun b => page_set b available_slot) >>
  ret (wrap64 (tls_begin + available_page * PAGE_SIZE
               + available_slot * TLS_ENTRY_SIZE), thread).

Definition FreeTLSSlot (tls_address : VAddr) : M VM unit :=
  this <- get_this ;;
  let tls_base :=
    wrap64 (tls_address - vm_GetTLSIORegionBaseAddress (vm_manager this)) in
  let tls_page := tls_base / PAGE_SIZE in
  let tls_slot := (tls_base mod PAGE_SIZE) / TLS_ENTRY_SIZE in
  update_tls_page tls_page (fun b => page_reset b tls_slot).

(** *** Process::LoadModule *)

(** The lambda [MapSegment]. *)
Definition MapSegment (module_ : CodeSet) (base_addr : VAddr) (segment : Segment)
    (permissions : VMAPermission.t) (memory_state : MemoryState.t) : M VM unit :=
  result <- MapMemoryBlock (wrap64 (seg_addr segment + base_addr)) (memory module_)
              (seg_offset segment) (seg_size segment) memory_state ;;
  vma <- Unwrap result ;;
  Reprotect vma permissions.

Definition LoadModule (module_ : CodeSet) (base_addr : VAddr) : M VM unit :=
  (* Map CodeSet segments *)
  MapSegment module_ base_addr (CodeSegment module_)
    VMAPermission.ReadExecute MemoryState.CodeStatic >>
  MapSegment module_ base_addr (RODataSegment module_)
    VMAPermission.Read MemoryState.CodeMutable >>
  MapSegment module_ base_addr (DataSegment module_)
    VMAPermission.ReadWrite MemoryState.CodeMutable >>
  (* Clear instruction cache in CPU JIT *)
  emit (ClearInstructionCache 0) >>
  emit (ClearInstructionCache 1) >>
  emit (ClearInstructionCache 2) >>
  emit (ClearInstructionCache 3).

(** *** The address-space facade *)

Definition HeapAllocate (target : VAddr) (size : Z) (perms : VMAPermission.t)
    : M VM (ResultVal VAddr) :=
  this <- get_this ;;
  let '(result, vm) := vm_HeapAllocate target size perms (vm_manager this) in
  modify_this (set_vm_manager vm) >>
  emit (VmHeapAllocate target size perms) >>
  ret result.

Definition HeapFree (target : VAddr) (size : Z) : M VM ResultCode :=
  this <- get_this ;;
  let '(result, vm) := vm_HeapFree target size (vm_manager this) in
  modify_this (set_vm_manager vm) >>
  emit (VmHeapFree target size) >>
  ret result.

Definition MirrorMemory (dst_addr src_addr : VAddr) (size : Z)
    (state : MemoryState.t) : M VM ResultCode :=
  this <- get_this ;;
  let '(result, vm) := vm_MirrorMemory dst_addr src_addr size state (vm_manager this) in
  modify_this (set_vm_manager vm) >>
  emit (VmMirrorMemory dst_addr src_addr size state) >>
  ret result.

Definition UnmapMemory (dst_addr src_addr : VAddr) (size : Z) : M VM ResultCode :=
  UnmapRange dst_addr size.

End Operations.

(** ** Call sequences *)

(** The operations a client of the process can invoke (after [Create]),
    with their arguments. *)
Inductive Operation :=
| OpGetResourceLimit
| OpClearSignalState
| OpLoadFromMetadata (metadata : ProgramMetadata)
| OpParseKernelCaps (kernel_caps : list Z)
| OpRun (entry_point : VAddr) (main_thread_priority stack_size : Z)
| OpPrepareForTermination
| OpMarkNextAvailableTLSSlotAsUsed (thread : Thread)
| OpFreeTLSSlot (tls_address : VAddr)
| OpLoadModule (module_ : CodeSet) (base_addr : VAddr)
| OpHeapAllocate (target : VAddr) (size : Z) (perms : VMAPermission.t)
| OpHeapFree (target : VAddr) (size : Z)
| OpMirrorMemory (dst_addr src_addr : VAddr) (size : Z) (state : MemoryState.t)
| OpUnmapMemory (dst_addr src_addr : VAddr) (size : Z)
| OpShouldWait (thread : Thread)
| OpAcquire (thread : Thread).

Section Calls.
Context {Decl : Declarations} {VM : Type} {VMOps : VMManagerOps VM}.
Local Open Scope proc_scope.

Definition discard {A} (m : M VM A) : M VM unit := _ <- m ;; ret tt.

(** A computation that leaves the status as it found it, however it ends. *)
Definition keeps_status {A} (m : M VM A) : Prop :=
  forall s, status (this (final_state (m s))) = status (this s).

Definition call (op : Operation) : M VM unit :=
  match op with
  | OpGetResourceLimit => discard GetResourceLimit
  | OpClearSignalState => discard ClearSignalState
  | OpLoadFromMetadata metadata => LoadFromMetadata metadata
  | OpParseKernelCaps kernel_caps => ParseKernelCaps kernel_caps
  | OpRun entry_point priority stack_size => Run entry_point priority stack_size
  | OpPrepareForTermination => PrepareForTermination
  | OpMarkNextAvailableTLSSlotAsUsed thread =>
      discard (MarkNextAvailableTLSSlotAsUsed thread)
  | OpFreeTLSSlot tls_address => FreeTLSSlot tls_address
  | OpLoadModule module_ base_addr => LoadModule module_ base_addr
  | OpHeapAllocate target size perms => discard (HeapAllocate target size perms)
  | OpHeapFree target size => discard (HeapFree target size)
  | OpMirrorMemory dst_addr src_addr size state =>
      discard (MirrorMemory dst_addr src_addr size state)
  | OpUnmapMemory dst_addr src_addr size => discard (UnmapMemory dst_addr src_addr size)
  | OpShouldWait thread => discard (ShouldWait thread)
  | OpAcquire thread => Acquire thread
  end.

(** The status of the process after each call of a sequence; a call
    that aborts contributes the status at the abort and ends the
    sequence. *)
Fixpoint status_history (ops : list Operation) (s : System VM)
    : list ProcessStatus.t :=
  match ops with
  | [] => []
  | op :: rest =>
      match call op s with
      | Done _ s' => status (this s') :: status_history rest s'
      | Abort s' => [status (this s')]
      end
  end.

End Calls.

(** [Run] and [PrepareForTermination] request a status themselves. *)
Definition is_run (op : Operation) : bool :=
  match op with OpRun _ _ _ => true | _ => false end.
Definition is_terminate (op : Operation) : bool :=
  match op with OpPrepareForTermination => true | _ => false end.
Definition no_restart (op : Operation) : bool := negb (is_run op || is_terminate op).

(** A sequence follows the life cycle when nothing restarts or
    re-terminates the process after its first [PrepareForTermination]. *)
Fixpoint follows_life_cycle (ops : list Operation) : bool :=
  match ops with
  | [] => true
  | op :: rest =>
      if is_terminate op
      then forallb no_restart rest
      else follows_life_cycle rest
  end.

(** Each status is at or after the one before it. *)
Fixpoint forward_only (history : list ProcessStatus.t) : Prop :=
  match history with
  | a :: (b :: _) as rest => ProcessStatus.rank a <= ProcessStatus.rank b /\ forward_only rest
  | _ => True
  end.

(** ** Threads seen by PrepareForTermination *)

(** The threads [stop_threads] does not skip: owned by the process, and
    not the calling thread. *)
Definition to_be_stopped {VM : Type} (s : System VM) (thread : Thread) : bool :=
  (GetOwnerProcess thread =? process_id (this s)) &&
  negb (bool_decide (Some (thread_id thread) = GetCurrentThread s)).

(** The thread lists of the four cores, in the order they are visited. *)
Definition all_thread_lists {VM : Type} (s : System VM) : list Thread :=
  Scheduler_GetThreadList s 0 ++ Scheduler_GetThreadList s 1 ++
  Scheduler_GetThreadList s 2 ++ Scheduler_GetThreadList s 3.

(** One [Stop] request per thread. *)
Definition stops (threads : list Thread) : list Event :=
  map (fun t => ThreadStop (thread_id t)) threads.

Definition unimplemented_exit : Event :=
  LOG LogCritical "Exiting processes with non-waiting threads is currently unimplemented".

(** The warning for a memory-range descriptor without its partner. *)
Definition incomplete_range : Event :=
  LOG LogWarning "Incomplete exheader memory range descriptor ignored.".

(** ** Reading the requests *)

Definition reprotect_requests (evs : list Event) : list (VMAHandle * VMAPermission.t) :=
  omap (fun e => match e with VmReprotect vma p => Some (vma, p) | _ => None end) evs.

(** The reprotections requested are three, for the code, rodata and data
    segments in this order, with permissions that pass the three checks. *)
Definition segments_protected
    (code rodata data : VMAPermission.t -> bool) (evs : list Event) : Prop :=
  exists h1 h2 h3 p1 p2 p3,
    reprotect_requests evs = [(h1, p1); (h2, p2); (h3, p3)] /\
    code p1 = true /\ rodata p2 = true /\ data p3 = true.

Definition cache_invalidations (evs : list Event) : list Z :=
  omap (fun e => match e with ClearInstructionCache core => Some core | _ => None end) evs.

Definition stop_requests (evs : list Event) : list Z :=
  omap (fun e => match e with ThreadStop t => Some t | _ => None end) evs.

Definition wakeups (evs : list Event) : nat :=
  length (omap (fun e => match e with WakeupAllWaitingThreads => Some tt | _ => None end)
            evs).

Definition warnings (evs : list Event) : nat :=
  length (omap (fun e => match e with LOG LogWarning m => Some m | _ => None end) evs).

(** ** A concrete configuration

    The constants as the emulator's headers give them, a small VM manager
    that refuses to map a target twice, and a kernel that numbers
    processes from 1. Used to run the operations on concrete inputs. *)

Module Sample.

Definition region_code (r : MemoryRegion.t) : Z :=
  match r with
  | MemoryRegion.APPLICATION => 1
  | MemoryRegion.SYSTEM => 2
  | MemoryRegion.BASE => 3
  end.

Definition decl : Declarations := {|
  PAGE_SIZE := 0x1000;
  TLS_ENTRY_SIZE := 0x200;
  SVC_ACCESS_MASK_SIZE := 0x80;
  memory_region_Assign raw region :=
    Z.lor (Z.land raw 0xF0FF) (Z.shiftl (region_code region) 8);
  generate_entropy seed := [seed; seed + 1; seed + 2; seed + 3];
|}.

(** The targets mapped so far. *)
Definition vm : Type := list VAddr.

Definition is_mapped (target : VAddr) (m : vm) : bool :=
  existsb (Z.eqb target) m.

Definition vm_ops : VMManagerOps vm := {|
  vm_Reset _ _ := [];
  vm_MapMemoryBlock target _ _ _ _ m :=
    if is_mapped target m then (Failed (ERR_OTHER 1), m)
    else (Succeeded target, target :: m);
  vm_Reprotect _ _ m := m;
  vm_RefreshMemoryBlockMappings _ m := m;
  vm_HeapAllocate target _ _ m := (Succeeded target, m);
  vm_HeapFree _ _ m := (RESULT_SUCCESS, m);
  vm_MirrorMemory _ _ _ _ m := (RESULT_SUCCESS, m);
  vm_UnmapRange target _ m :=
    if is_mapped target m
    then (RESULT_SUCCESS, List.filter (fun a => negb (Z.eqb target a)) m)
    else (ERR_OTHER 2, m);
  vm_GetTLSIORegionBaseAddress _ := 0x40000000;
  vm_GetTLSIORegionEndAddress _ := 0x80000000;
|}.

(** Next process id and the registered processes. *)
Definition kernel : Type := Z * list Z.

Definition kernel_ops : KernelCoreOps kernel := {|
  GetSystemResourceLimit _ := 7;
  CreateNewProcessID k := (fst k, (fst k + 1, snd k));
  AppendNewProcess id k := (fst k, snd k ++ [id]);
|}.

(** [new Process(kernel)] *)
Definition fresh : Process vm := {|
  name := "";
  flags_raw := 0;
  resource_limit := 0;
  status := ProcessStatus.Created;
  program_id := 0;
  process_id := 0;
  svc_access_mask := 0;
  random_entropy := [];
  is_signaled := false;
  ideal_processor := 0;
  is_64bit_process := true;
  vm_manager := [];
  handle_table_size := 0x200;
  address_mappings := [];
  kernel_version := 0;
  tls_slots := [];
|}.

Definition created : Process vm :=
  fst (Create (Decl := decl) (KOps := kernel_ops)
         (1, []) "main" None fresh).

Definition thread (id owner : Z) (st : ThreadStatus.t) : Thread :=
  mkThread id owner st [].

(** The created process (id 1) running thread 10; core 0 also has a
    waiting thread of the process and a ready thread of process 2, core
    1 a waiting thread of the process. *)
Definition system : System vm := {|
  this := created;
  Scheduler_GetThreadList core :=
    if core =? 0 then
      [thread 10 1 ThreadStatus.Running; thread 11 1 ThreadStatus.WaitSynchAny;
       thread 20 2 ThreadStatus.Ready]
    else if core =? 1 then [thread 12 1 ThreadStatus.WaitSynchAll]
    else [];
  GetCurrentThread := Some 10;
  events := [];
|}.

(** The same, with thread 12 ready to run. *)
Definition busy_system : System vm :=
  mkSystem created
    (fun core => if core =? 1 then [thread 12 1 ThreadStatus.Ready]
                 else Scheduler_GetThreadList system core)
    (Some 10) [].

Definition module_ : CodeSet := {|
  CodeSegment := mkSegment 0 0 0x2000;
  RODataSegment := mkSegment 0x2000 0x2000 0x1000;
  DataSegment := mkSegment 0x3000 0x3000 0x1000;
  memory := [];
|}.

(** [n] allocations in a row for a new thread of the process: the
    addresses returned and the system they leave. *)
Fixpoint allocations (n : nat) (s : System vm) : list VAddr * System vm :=
  match n with
  | O => ([], s)
  | S n =>
      match MarkNextAvailableTLSSlotAsUsed (Decl := decl) (VMOps := vm_ops)
              (thread 13 1 ThreadStatus.Dormant) s with
      | Done (tls_address, _) s' =>
          let '(rest, s'') := allocations n s' in (tls_address :: rest, s'')
      | Abort s' => ([], s')
      end
  end.

End Sample.

(** ** Vocabulary for the further properties *)

Section Sequences.
Context {Decl : Declarations} {VM : Type} {VMOps : VMManagerOps VM}.

(** The operations of a list, one after the other; an abort ends the
    sequence. *)
Fixpoint calls (ops : list Operation) : M VM unit :=
  match ops with
  | [] => ret tt
  | op :: rest => bind (call op) (fun _ => calls rest)
  end.

(** However the computation ends, the process it leaves is related by
    [R] to the one it started from. *)
Definition evolves {A} (R : Process VM -> Process VM -> Prop) (m : M VM A) : Prop :=
  forall s, R (this s) (this (final_state (m s))).

(** The identity of the process. *)
Definition same_identity (p q : Process VM) : Prop :=
  process_id q = process_id p /\ name q = name p /\
  resource_limit q = resource_limit p /\ random_entropy q = random_entropy p.

(** What [ParseKernelCaps] writes. *)
Definition same_capabilities (p q : Process VM) : Prop :=
  svc_access_mask q = svc_access_mask p /\
  handle_table_size q = handle_table_size p /\
  flags_raw q = flags_raw p /\
  address_mappings q = address_mappings p /\
  kernel_version q = kernel_version p.

(** Every field but [vm_manager] is the same. *)
Definition same_but_vm_manager (p q : Process VM) : Prop :=
  q = set_vm_manager (vm_manager q) p.

(** No TLS page has gone. *)
Definition pages_kept (p q : Process VM) : Prop :=
  (length (tls_slots p) <= length (tls_slots q))%nat.

(** What [ParseKernelCaps] leaves alone. *)
Definition capabilities_only (p q : Process VM) : Prop :=
  name q = name p /\ resource_limit q = resource_limit p /\
  status q = status p /\ program_id q = program_id p /\
  process_id q = process_id p /\ random_entropy q = random_entropy p /\
  is_signaled q = is_signaled p /\ ideal_processor q = ideal_processor p /\
  is_64bit_process q = is_64bit_process p /\ vm_manager q = vm_manager p /\
  tls_slots q = tls_slots p /\
  exists added, address_mappings q = address_mappings p ++ added.

End Sequences.

Definition is_parse (op : Operation) : bool :=
  match op with OpParseKernelCaps _ => true | _ => false end.

(** The operations of the address-space facade, and [LoadModule]. *)
Definition is_address_space_op (op : Operation) : bool :=
  match op with
  | OpLoadModule _ _ | OpHeapAllocate _ _ _ | OpHeapFree _ _
  | OpMirrorMemory _ _ _ _ | OpUnmapMemory _ _ _ => true
  | _ => false
  end.

Definition is_log (e : Event) : bool :=
  match e with LOG _ _ => true | _ => false end.

(** The type test of each descriptor kind, on the whole word. *)
Definition has_type (mask pattern w : Z) : Prop := Z.land (w ≫ 20) mask = pattern.

(** The mapping of a memory-range pair and of a memory-page descriptor. *)
Definition range_mapping (w next : Z) : AddressMapping :=
  {| address := shl32 w 12;
     size := if shl32 w 12 <? shl32 next 12 then shl32 next 12 - shl32 w 12 else 0;
     read_only := negb (Z.land w (Z.shiftl 1 20) =? 0);
     unk_flag := negb (Z.land next (Z.shiftl 1 20) =? 0) |}.

Definition page_mapping {Decl : Declarations} (w : Z) : AddressMapping :=
  {| address := shl32 w 12; size := PAGE_SIZE; read_only := false; unk_flag := false |}.

(** A mapping in the 32-bit space, on a 4 KiB boundary: one page, or a
    whole number of 4 KiB units that end within the space. *)
Definition aligned_mapping {Decl : Declarations} (m : AddressMapping) : Prop :=
  0 <= address m < 2 ^ 32 /\ address m `mod` 0x1000 = 0 /\
  ((size m = PAGE_SIZE /\ read_only m = false /\ unk_flag m = false) \/
   (0 <= size m /\ size m `mod` 0x1000 = 0 /\ address m + size m < 2 ^ 32)).

(** The number of occupied slots of a page and of all pages. *)
Definition page_occupied (b : Z) : nat :=
  length (List.filter (fun slot => Z.testbit b slot) (seqZ 0 8)).

Definition occupied (pages : list Z) : nat :=
  foldr (fun b n => (page_occupied b + n)%nat) 0%nat pages.

(** ** The statements of an operation

    The body of each member function, statement by statement, with the
    calls of [ChangeStatus] set apart: they are the only writes of
    [status] after [Create]. *)

Section Statements.
Context {Decl : Declarations} {VM : Type} {VMOps : VMManagerOps VM}.
Local Open Scope proc_scope.

Inductive Statement :=
| Request (new_status : ProcessStatus.t)
| Other (m : M VM unit).

Definition run_statement (statement : Statement) : M VM unit :=
  match statement with
  | Request new_status => ChangeStatus new_status
  | Other m => m
  end.

Fixpoint run_statements (body : list Statement) : M VM unit :=
  match body with
  | [] => ret tt
  | statement :: rest => run_statement statement >> run_statements rest
  end.

Definition statements (op : Operation) : list Statement :=
  match op with
  | OpRun entry_point main_thread_priority stack_size =>
      [Other (this <- get_this ;;
              result <- MapMemoryBlock
                          (wrap64 (vm_GetTLSIORegionEndAddress (vm_manager this)
                                   - stack_size))
                          (replicate (Z.to_nat stack_size) 0) 0 stack_size
                          MemoryState.Mapped ;;
              _ <- Unwrap result ;;
              ret tt);
       Other (emit VmLogLayout);
       Request ProcessStatus.Running;
       Other (emit (SetupMainThread entry_point main_thread_priority))]
  | OpPrepareForTermination =>
      [Request ProcessStatus.Exiting;
       Other (l <- ask (fun s => Scheduler_GetThreadList s 0) ;; stop_threads l);
       Other (l <- ask (fun s => Scheduler_GetThreadList s 1) ;; stop_threads l);
       Other (l <- ask (fun s => Scheduler_GetThreadList s 2) ;; stop_threads l);
       Other (l <- ask (fun s => Scheduler_GetThreadList s 3) ;; stop_threads l);
       Request ProcessStatus.Exited]
  | _ => [Other (call op)]
  end.

(** The statuses a body asks [ChangeStatus] for, in order. *)
Definition status_requests (body : list Statement) : list ProcessStatus.t :=
  omap (fun statement =>
          match statement with
          | Request new_status => Some new_status
          | Other _ => None
          end) body.

(** The status after each statement of a body; an abort contributes the
    status at the abort and ends the body. *)
Fixpoint statement_statuses (body : list Statement) (s : System VM)
    : list ProcessStatus.t :=
  match body with
  | [] => []
  | statement :: rest =>
      match run_statement statement s with
      | Done _ s' => status (this s') :: statement_statuses rest s'
      | Abort s' => [status (this s')]
      end
  end.

(** The status after each statement of each call of a sequence. *)
Fixpoint status_trace (ops : list Operation) (s : System VM)
    : list ProcessStatus.t :=
  match ops with
  | [] => []
  | op :: rest =>
      statement_statuses (statements op) s ++
      match call op s with
      | Done _ s' => status_trace rest s'
      | Abort _ => []
      end
  end.

(** A computation that neither changes the status nor wakes the
    waiters, however it ends. *)
Definition quiet {A} (m : M VM A) : Prop :=
  forall s,
    status (this (final_state (m s))) = status (this s) /\
    wakeups (events (final_state (m s))) = wakeups (events s).

(** The status stays, and in [Exited] the signal stays too. *)
Definition signal_kept_when_exited (p q : Process VM) : Prop :=
  status q = status p /\
  (status p = ProcessStatus.Exited -> is_signaled q = is_signaled p).

End Statements.

(** The sample system with one TLS page whose slots 0 and 2 are
    occupied, and the sample system with the signal raised. *)
Definition sample_tls_system : System Sample.vm :=
  with_this (set_tls_slots [5] Sample.created) Sample.system.

Definition sample_signaled_system : System Sample.vm :=
  with_this (set_is_signaled true Sample.created) Sample.system.

(** * Properties *)

(** ** Running the monad *)

Ltac run_m :=
  unfold discard, bind, ret, abort, get_this, modify_this, emit, ask,
    LOG_INFO, LOG_WARNING, LOG_ERROR; cbn.

Section MonadFacts.
Context {VM : Type}.

Lemma with_events_nil (s : System VM) : with_events [] s = s.
Proof. destruct s; unfold with_events; cbn. by rewrite app_nil_r. Qed.

Lemma with_events_app (evs1 evs2 : list Event) (s : System VM) :
  with_events evs2 (with_events evs1 s) = with_events (evs1 ++ evs2) s.
Proof. unfold with_events; cbn. by rewrite app_assoc. Qed.

Lemma with_event_with_events (e : Event) (evs : list Event) (s : System VM) :
  with_events evs (with_event e s) = with_events (e :: evs) s.
Proof. unfold with_event. by rewrite with_events_app. Qed.

(** Each setter writes the field it is named after. *)
Lemma setters_write_their_field (p : Process VM) (z : Z) (b : bool) (str : string)
    (st : ProcessStatus.t) (vm : VM) (zs : list Z) (ms : list AddressMapping) :
  name (set_name str p) = str /\
  flags_raw (set_flags_raw z p) = z /\
  resource_limit (set_resource_limit z p) = z /\
  status (set_status st p) = st /\
  program_id (set_program_id z p) = z /\
  process_id (set_process_id z p) = z /\
  svc_access_mask (set_svc_access_mask z p) = z /\
  random_entropy (set_random_entropy zs p) = zs /\
  is_signaled (set_is_signaled b p) = b /\
  ideal_processor (set_ideal_processor z p) = z /\
  is_64bit_process (set_is_64bit_process b p) = b /\
  vm_manager (set_vm_manager vm p) = vm /\
  handle_table_size (set_handle_table_size z p) = z /\
  address_mappings (set_address_mappings ms p) = ms /\
  kernel_version (set_kernel_version z p) = z /\
  tls_slots (set_tls_slots zs p) = zs.
Proof. repeat split. Qed.

End MonadFacts.

(** ** The signal flag and the status *)

Section Lifecycle.
Context {Decl : Declarations} {VM : Type} {VMOps : VMManagerOps VM}.

(** C5. [ClearSignalState] always returns. It returns
    [ERR_INVALID_STATE] exactly when the process is exited or not
    signaled, and then the process is as it was (only an error is
    logged); otherwise it returns [RESULT_SUCCESS], clears
    [is_signaled], and changes nothing else. *)
Theorem ClearSignalState_spec (s : System VM) :
  exists (r : ResultCode) (s' : System VM),
    ClearSignalState s = Done r s' /\
    (r = ERR_INVALID_STATE <->
       status (this s) = ProcessStatus.Exited \/ is_signaled (this s) = false) /\
    (r = ERR_INVALID_STATE ->
       this s' = this s /\
       is_signaled (this s') = is_signaled (this s) /\
       status (this s') = status (this s) /\
       exists message, s' = with_event (LOG LogError message) s) /\
    (r <> ERR_INVALID_STATE ->
       r = RESULT_SUCCESS /\
       is_signaled (this s') = false /\
       s' = with_this (set_is_signaled false (this s)) s).
Proof.
  unfold ClearSignalState. run_m.
  destruct (decide (status (this s) = ProcessStatus.Exited)) as [Hex | Hex].
  - eexists _, _. split; [reflexivity |].
    repeat split; eauto; try congruence.
  - destruct (is_signaled (this s)) eqn:Hsig; cbn.
    + eexists _, _. split; [reflexivity |].
      repeat split; try congruence.
      intros [? | ?]; congruence.
    + eexists _, _. split; [reflexivity |].
      repeat split; eauto; try congruence.
Qed.

(** [ChangeStatus] in one equation. *)
Lemma ChangeStatus_run (new_status : ProcessStatus.t) (s : System VM) :
  ChangeStatus new_status s =
    if decide (status (this s) = new_status) then Done tt s
    else Done tt (with_event WakeupAllWaitingThreads
                    (with_this (set_is_signaled true (set_status new_status (this s))) s)).
Proof. unfold ChangeStatus. run_m. by destruct (decide _). Qed.

(** C6. [ChangeStatus] with the current status changes nothing and
    sends nothing. With a different status it installs the status, sets
    [is_signaled], and sends [WakeupAllWaitingThreads] exactly once;
    nothing else changes. *)
Theorem ChangeStatus_spec (new_status : ProcessStatus.t) (s : System VM) :
  (status (this s) = new_status -> ChangeStatus new_status s = Done tt s) /\
  (status (this s) <> new_status ->
     exists s',
       ChangeStatus new_status s = Done tt s' /\
       status (this s') = new_status /\
       is_signaled (this s') = true /\
       this s' = set_is_signaled true (set_status new_status (this s)) /\
       events s' = events s ++ [WakeupAllWaitingThreads] /\
       wakeups (events s') = S (wakeups (events s)) /\
       Scheduler_GetThreadList s' = Scheduler_GetThreadList s /\
       GetCurrentThread s' = GetCurrentThread s).
Proof.
  unfold ChangeStatus. run_m. split; intros Hst.
  - by rewrite decide_True.
  - rewrite decide_False by done.
    eexists. split; [reflexivity |]. cbn.
    repeat split.
    unfold wakeups. rewrite omap_app, length_app. cbn. lia.
Qed.

(** C10. [UnmapMemory] does not look at [src_addr]: two calls that
    differ only in it coincide, and each is the VM manager's
    [UnmapRange] of [(dst_addr, size)], whose result is returned as
    it is. *)
Theorem UnmapMemory_ignores_src_addr
    (dst_addr src_addr src_addr' : VAddr) (size : Z) (s : System VM) :
  UnmapMemory dst_addr src_addr size s = UnmapMemory dst_addr src_addr' size s /\
  UnmapMemory dst_addr src_addr size s =
    Done (vm_UnmapRange dst_addr size (vm_manager (this s))).1
      (with_event (VmUnmapRange dst_addr size)
         (with_this
            (set_vm_manager (vm_UnmapRange dst_addr size (vm_manager (this s))).2
               (this s)) s)).
Proof.
  split; [reflexivity |].
  unfold UnmapMemory, UnmapRange. run_m.
  by destruct (vm_UnmapRange dst_addr size (vm_manager (this s))).
Qed.

End Lifecycle.

(** ** Loading a module *)

(** A failed mapping contradicts a VM manager whose mappings succeed. *)
Ltac mapping_failed Hok :=
  match goal with
  | E : vm_MapMemoryBlock ?a ?b ?c ?d ?e ?f = (Failed _, _) |- _ =>
      destruct (Hok a b c d e f) as [? Hh]; rewrite E in Hh; discriminate Hh
  end.

Section ModuleLoader.
Context {Decl : Declarations} {VM : Type} {VMOps : VMManagerOps VM}.

(** What [LoadModule] sends when the three mappings return the handles
    [h1], [h2], [h3]. *)
Lemma LoadModule_requests_protect (module_ : CodeSet) (base_addr : VAddr)
    (h1 h2 h3 : VMAHandle) (evs : list Event) :
  evs =
    [VmMapMemoryBlock (wrap64 (seg_addr (CodeSegment module_) + base_addr))
       (seg_offset (CodeSegment module_)) (seg_size (CodeSegment module_))
       MemoryState.CodeStatic;
     VmReprotect h1 VMAPermission.ReadExecute;
     VmMapMemoryBlock (wrap64 (seg_addr (RODataSegment module_) + base_addr))
       (seg_offset (RODataSegment module_)) (seg_size (RODataSegment module_))
       MemoryState.CodeMutable;
     VmReprotect h2 VMAPermission.Read;
     VmMapMemoryBlock (wrap64 (seg_addr (DataSegment module_) + base_addr))
       (seg_offset (DataSegment module_)) (seg_size (DataSegment module_))
       MemoryState.CodeMutable;
     VmReprotect h3 VMAPermission.ReadWrite;
     ClearInstructionCache 0; ClearInstructionCache 1;
     ClearInstructionCache 2; ClearInstructionCache 3] ->
  segments_protected VMAPermission.read_execute VMAPermission.read_only
    VMAPermission.read_write evs /\
  cache_invalidations evs = [0; 1; 2; 3].
Proof.
  intros ->. split; [| reflexivity].
  by exists h1, h2, h3, VMAPermission.ReadExecute, VMAPermission.Read,
    VMAPermission.ReadWrite.
Qed.

(** One segment, from the system as the steps before left it: the
    requests [evs] sent and the VM manager [vm]. *)
Lemma MapSegment_after (module_ : CodeSet) (base_addr : VAddr) (segment : Segment)
    (permissions : VMAPermission.t) (memory_state : MemoryState.t)
    (evs : list Event) (vm : VM) (s : System VM) :
  let request :=
    VmMapMemoryBlock (wrap64 (seg_addr segment + base_addr))
      (seg_offset segment) (seg_size segment) memory_state in
  let mapped :=
    vm_MapMemoryBlock (wrap64 (seg_addr segment + base_addr)) (memory module_)
      (seg_offset segment) (seg_size segment) memory_state vm in
  MapSegment module_ base_addr segment permissions memory_state
    (with_events evs (with_this (set_vm_manager vm (this s)) s)) =
  match mapped.1 with
  | Succeeded vma =>
      Done tt
        (with_events (evs ++ [request; VmReprotect vma permissions])
           (with_this (set_vm_manager (vm_Reprotect vma permissions mapped.2) (this s)) s))
  | Failed _ =>
      Abort
        (with_events (evs ++ [request; LOG LogCritical "Tried to Unwrap empty ResultVal"])
           (with_this (set_vm_manager mapped.2 (this s)) s))
  end.
Proof.
  intros request mapped. subst request mapped.
  unfold MapSegment, MapMemoryBlock, Reprotect, Unwrap. run_m.
  destruct (vm_MapMemoryBlock _ _ _ _ _ vm) as [[vma | code] vm']; cbn;
    unfold with_event, with_events, with_this; cbn; by rewrite <- !app_assoc.
Qed.

Lemma leaves_nothing (s : System VM) :
  with_events [] (with_this (set_vm_manager (vm_manager (this s)) (this s)) s) = s.
Proof. rewrite with_events_nil. by destruct s as [[] ? ? ?]. Qed.

(** What [LoadModule] returns, by the answers of the VM manager. *)
Lemma LoadModule_run (module_ : CodeSet) (base_addr : VAddr) (s : System VM) :
  let map segment state vm :=
    vm_MapMemoryBlock (wrap64 (seg_addr segment + base_addr)) (memory module_)
      (seg_offset segment) (seg_size segment) state vm in
  let request segment state :=
    VmMapMemoryBlock (wrap64 (seg_addr segment + base_addr))
      (seg_offset segment) (seg_size segment) state in
  let unwrap_failed := LOG LogCritical "Tried to Unwrap empty ResultVal" in
  let leaves evs vm := with_events evs (with_this (set_vm_manager vm (this s)) s) in
  let code := map (CodeSegment module_) MemoryState.CodeStatic (vm_manager (this s)) in
  LoadModule module_ base_addr s =
  match code.1 with
  | Failed _ =>
      Abort (leaves [request (CodeSegment module_) MemoryState.CodeStatic;
                     unwrap_failed] code.2)
  | Succeeded h1 =>
      let rodata :=
        map (RODataSegment module_) MemoryState.CodeMutable
          (vm_Reprotect h1 VMAPermission.ReadExecute code.2) in
      match rodata.1 with
      | Failed _ =>
          Abort (leaves [request (CodeSegment module_) MemoryState.CodeStatic;
                         VmReprotect h1 VMAPermission.ReadExecute;
                         request (RODataSegment module_) MemoryState.CodeMutable;
                         unwrap_failed] rodata.2)
      | Succeeded h2 =>
          let data :=
            map (DataSegment module_) MemoryState.CodeMutable
              (vm_Reprotect h2 VMAPermission.Read rodata.2) in
          match data.1 with
          | Failed _ =>
              Abort (leaves [request (CodeSegment module_) MemoryState.CodeStatic;
                             VmReprotect h1 VMAPermission.ReadExecute;
                             request (RODataSegment module_) MemoryState.CodeMutable;
                             VmReprotect h2 VMAPermission.Read;
                             request (DataSegment module_) MemoryState.CodeMutable;
                             unwrap_failed] data.2)
          | Succeeded h3 =>
              Done tt
                (leaves [request (CodeSegment module_) MemoryState.CodeStatic;
                         VmReprotect h1 VMAPermission.ReadExecute;
                         request (RODataSegment module_) MemoryState.CodeMutable;
                         VmReprotect h2 VMAPermission.Read;
                         request (DataSegment module_) MemoryState.CodeMutable;
                         VmReprotect h3 VMAPermission.ReadWrite;
                         ClearInstructionCache 0; ClearInstructionCache 1;
                         ClearInstructionCache 2; ClearInstructionCache 3]
                   (vm_Reprotect h3 VMAPermission.ReadWrite data.2))
          end
      end
  end.
Proof.
  intros map request unwrap_failed leaves code.
  subst map request unwrap_failed leaves code. cbv beta.
  unfold LoadModule. unfold bind at 1.
  rewrite <- (leaves_nothing s) at 1. rewrite MapSegment_after. cbv zeta.
  destruct (vm_MapMemoryBlock _ _ _ _ _ (vm_manager (this s)))
    as [[h1 | c1] vm1]; cbn [fst snd]; [| reflexivity].
  unfold bind at 1. rewrite MapSegment_after. cbv zeta.
  destruct (vm_MapMemoryBlock _ _ _ _ _ (vm_Reprotect h1 _ vm1))
    as [[h2 | c2] vm2]; cbn [fst snd]; [| reflexivity].
  unfold bind at 1. rewrite MapSegment_after. cbv zeta.
  destruct (vm_MapMemoryBlock _ _ _ _ _ (vm_Reprotect h2 _ vm2))
    as [[h3 | c3] vm3]; cbn [fst snd]; [| reflexivity].
  unfold bind, emit, with_event. by rewrite !with_events_app.
Qed.

(** C1, as the code has it. The outcome of [LoadModule] is decided by
    the answers of the VM manager. The code, the rodata and the data
    segment are mapped in this order at [segment.addr + base_addr], each
    on the VM manager as the step before left it; the handle a mapping
    returns is reprotected at once, to [ReadExecute] (readable and
    executable, not execute-only), [Read] and [ReadWrite]. The first
    mapping that fails aborts the call in [Unwrap], with no later
    request and no [ClearInstructionCache]. When the three succeed the
    call completes with one [ClearInstructionCache] for each of the
    cores 0, 1, 2, 3, and nothing in the process but [vm_manager] has
    changed. *)
Theorem LoadModule_spec (module_ : CodeSet) (base_addr : VAddr) (s : System VM) :
  let map segment state vm :=
    vm_MapMemoryBlock (wrap64 (seg_addr segment + base_addr)) (memory module_)
      (seg_offset segment) (seg_size segment) state vm in
  let request segment state :=
    VmMapMemoryBlock (wrap64 (seg_addr segment + base_addr))
      (seg_offset segment) (seg_size segment) state in
  let unwrap_failed := LOG LogCritical "Tried to Unwrap empty ResultVal" in
  let leaves evs vm := with_events evs (with_this (set_vm_manager vm (this s)) s) in
  let code := map (CodeSegment module_) MemoryState.CodeStatic (vm_manager (this s)) in
  match code.1 with
  | Failed _ =>
      LoadModule module_ base_addr s =
        Abort (leaves [request (CodeSegment module_) MemoryState.CodeStatic;
                       unwrap_failed] code.2)
  | Succeeded h1 =>
      let rodata :=
        map (RODataSegment module_) MemoryState.CodeMutable
          (vm_Reprotect h1 VMAPermission.ReadExecute code.2) in
      match rodata.1 with
      | Failed _ =>
          LoadModule module_ base_addr s =
            Abort (leaves [request (CodeSegment module_) MemoryState.CodeStatic;
                           VmReprotect h1 VMAPermission.ReadExecute;
                           request (RODataSegment module_) MemoryState.CodeMutable;
                           unwrap_failed] rodata.2)
      | Succeeded h2 =>
          let data :=
            map (DataSegment module_) MemoryState.CodeMutable
              (vm_Reprotect h2 VMAPermission.Read rodata.2) in
          match data.1 with
          | Failed _ =>
              LoadModule module_ base_addr s =
                Abort (leaves [request (CodeSegment module_) MemoryState.CodeStatic;
                               VmReprotect h1 VMAPermission.ReadExecute;
                               request (RODataSegment module_) MemoryState.CodeMutable;
                               VmReprotect h2 VMAPermission.Read;
                               request (DataSegment module_) MemoryState.CodeMutable;
                               unwrap_failed] data.2)
          | Succeeded h3 =>
              LoadModule module_ base_addr s =
                Done tt
                  (leaves [request (CodeSegment module_) MemoryState.CodeStatic;
                           VmReprotect h1 VMAPermission.ReadExecute;
                           request (RODataSegment module_) MemoryState.CodeMutable;
                           VmReprotect h2 VMAPermission.Read;
                           request (DataSegment module_) MemoryState.CodeMutable;
                           VmReprotect h3 VMAPermission.ReadWrite;
                           ClearInstructionCache 0; ClearInstructionCache 1;
                           ClearInstructionCache 2; ClearInstructionCache 3]
                     (vm_Reprotect h3 VMAPermission.ReadWrite data.2))
          end
      end
  end /\
  (VMAPermission.read_execute VMAPermission.ReadExecute = true /\
   VMAPermission.execute_only VMAPermission.ReadExecute = false /\
   VMAPermission.read_only VMAPermission.Read = true /\
   VMAPermission.read_write VMAPermission.ReadWrite = true) /\
  match LoadModule module_ base_addr s with
  | Done _ s' =>
      exists (h1 h2 h3 : VMAHandle) (evs : list Event),
        events s' = events s ++ evs /\
        evs =
          [VmMapMemoryBlock (wrap64 (seg_addr (CodeSegment module_) + base_addr))
             (seg_offset (CodeSegment module_)) (seg_size (CodeSegment module_))
             MemoryState.CodeStatic;
           VmReprotect h1 VMAPermission.ReadExecute;
           VmMapMemoryBlock (wrap64 (seg_addr (RODataSegment module_) + base_addr))
             (seg_offset (RODataSegment module_)) (seg_size (RODataSegment module_))
             MemoryState.CodeMutable;
           VmReprotect h2 VMAPermission.Read;
           VmMapMemoryBlock (wrap64 (seg_addr (DataSegment module_) + base_addr))
             (seg_offset (DataSegment module_)) (seg_size (DataSegment module_))
             MemoryState.CodeMutable;
           VmReprotect h3 VMAPermission.ReadWrite;
           ClearInstructionCache 0; ClearInstructionCache 1;
           ClearInstructionCache 2; ClearInstructionCache 3] /\
        segments_protected VMAPermission.read_execute VMAPermission.read_only
          VMAPermission.read_write evs /\
        cache_invalidations evs = [0; 1; 2; 3]
  | Abort s' =>
      exists (evs : list Event) (target : VAddr) (offset size : Z)
             (state : MemoryState.t),
        events s' =
          events s ++ evs ++
            [VmMapMemoryBlock target offset size state;
             LOG LogCritical "Tried to Unwrap empty ResultVal"] /\
        cache_invalidations evs = []
  end /\
  ((forall target block offset size state vm,
      exists h, (vm_MapMemoryBlock target block offset size state vm).1 = Succeeded h) ->
   exists s', LoadModule module_ base_addr s = Done tt s').
Proof.
  intros map request unwrap_failed leaves code.
  pose proof (LoadModule_run module_ base_addr s) as Hrun.
  subst map request unwrap_failed leaves code. cbv beta zeta in Hrun |- *.
  destruct (vm_MapMemoryBlock _ _ _ _ _ (vm_manager (this s)))
    as [[h1 | c1] vm1] eqn:E1; cbn [fst snd] in Hrun |- *.
  2: { rewrite Hrun. split; [reflexivity |]. split; [done |]. split.
       - exists []. do 4 eexists. split; reflexivity.
       - intros Hok. by mapping_failed Hok. }
  destruct (vm_MapMemoryBlock _ _ _ _ _ (vm_Reprotect h1 _ vm1))
    as [[h2 | c2] vm2] eqn:E2; cbn [fst snd] in Hrun |- *.
  2: { rewrite Hrun. split; [reflexivity |]. split; [done |]. split.
       - eexists [_; _], _, _, _, _. split; reflexivity.
       - intros Hok. by mapping_failed Hok. }
  destruct (vm_MapMemoryBlock _ _ _ _ _ (vm_Reprotect h2 _ vm2))
    as [[h3 | c3] vm3] eqn:E3; cbn [fst snd] in Hrun |- *.
  2: { rewrite Hrun. split; [reflexivity |]. split; [done |]. split.
       - eexists [_; _; _; _], _, _, _, _. split; reflexivity.
       - intros Hok. by mapping_failed Hok. }
  rewrite Hrun. split; [reflexivity |]. split; [done |]. split; [| eauto].
  exists h1, h2, h3. eexists. split; [reflexivity |]. split; [reflexivity |].
  by eapply LoadModule_requests_protect.
Qed.

End ModuleLoader.

(** C1, as stated, fails: on the sample module the code segment is
    reprotected to [ReadExecute], which allows reads, so the three
    reprotections are not execute-only / read-only / read-write. *)
Lemma LoadModule_code_not_execute_only :
  exists s',
    LoadModule (VMOps := Sample.vm_ops) Sample.module_ 0 Sample.system = Done tt s' /\
    reprotect_requests (events s') =
      [(0, VMAPermission.ReadExecute); (0x2000, VMAPermission.Read);
       (0x3000, VMAPermission.ReadWrite)] /\
    VMAPermission.execute_only VMAPermission.ReadExecute = false /\
    ~ segments_protected VMAPermission.execute_only VMAPermission.read_only
        VMAPermission.read_write (events s').
Proof.
  eexists. split; [vm_compute; reflexivity |].
  split; [reflexivity |]. split; [reflexivity |].
  intros (h1 & h2 & h3 & p1 & p2 & p3 & Hreq & Hc & _).
  vm_compute in Hreq. injection Hreq as _ <- _ _ _ _. discriminate.
Qed.

(** ** Termination *)

Section Termination.
Context {Decl : Declarations} {VM : Type} {VMOps : VMManagerOps VM}.

Lemma stop_requests_stops (threads : list Thread) :
  stop_requests (stops threads) = map thread_id threads.
Proof. induction threads as [| t l IH]; cbn; [done | by f_equal]. Qed.

Lemma stop_requests_app (evs1 evs2 : list Event) :
  stop_requests (evs1 ++ evs2) = stop_requests evs1 ++ stop_requests evs2.
Proof. apply omap_app. Qed.

(** One thread list: the threads stopped are a prefix of those to be
    stopped; the whole of them when all are waiting, and otherwise the
    run aborts at the first one that is not. *)
Lemma stop_threads_spec (l : list Thread) (s : System VM) :
  exists stopped : list Thread,
    stopped `prefix_of` List.filter (to_be_stopped s) l /\
    ((Forall (fun t => to_be_stopped s t = true -> is_waiting (GetStatus t) = true) l /\
      stopped = List.filter (to_be_stopped s) l /\
      stop_threads l s = Done tt (with_events (stops stopped) s))
     \/
     (Exists (fun t => to_be_stopped s t = true /\ is_waiting (GetStatus t) = false) l /\
      stop_threads l s = Abort (with_events (stops stopped ++ [unimplemented_exit]) s))).
Proof.
  revert s. induction l as [| t l IH]; intros s.
  - exists []. split; [done |]. left. repeat split; [constructor |].
    cbn. unfold ret. by rewrite with_events_nil.
  - cbn [stop_threads List.filter]. unfold ASSERT_MSG. run_m.
    unfold to_be_stopped at 1 3 5.
    destruct (GetOwnerProcess t =? process_id (this s)) eqn:Hown; cbn.
    2: { destruct (IH s) as (stopped & Hpre & [(Hall & -> & Hrun) | (Hex & Hrun)]).
         - eexists. split; [exact Hpre |]. left. repeat split; [| done].
           constructor; [| done]. unfold to_be_stopped. by rewrite Hown.
         - exists stopped. split; [exact Hpre |]. right.
           split; [by apply Exists_cons_tl | done]. }
    destruct (bool_decide (Some (thread_id t) = GetCurrentThread s)) eqn:Hcur; cbn.
    { destruct (IH s) as (stopped & Hpre & [(Hall & -> & Hrun) | (Hex & Hrun)]).
      - eexists. split; [exact Hpre |]. left. repeat split; [| done].
        constructor; [| done]. unfold to_be_stopped. by rewrite Hown, Hcur.
      - exists stopped. split; [exact Hpre |]. right.
        split; [by apply Exists_cons_tl | done]. }
    destruct (is_waiting (GetStatus t)) eqn:Hwait; cbn.
    + destruct (IH (with_event (ThreadStop (thread_id t)) s))
        as (stopped & Hpre & [(Hall & -> & Hrun) | (Hex & Hrun)]).
      * eexists (t :: _). split; [by apply prefix_cons |]. left.
        repeat split; [by constructor |].
        rewrite Hrun. by rewrite with_event_with_events.
      * exists (t :: stopped). split; [by apply prefix_cons |]. right.
        split; [by apply Exists_cons_tl |].
        rewrite Hrun. by rewrite with_event_with_events.
    + exists []. split; [apply prefix_nil |]. right. split; [| done].
      apply Exists_cons_hd. unfold to_be_stopped. by rewrite Hown, Hcur.
Qed.

Lemma stop_threads_app (l1 l2 : list Thread) (s : System VM) :
  stop_threads (l1 ++ l2) s = bind (stop_threads l1) (fun _ => stop_threads l2) s.
Proof.
  revert s. induction l1 as [| t l1 IH]; intros s; [done |].
  cbn [app stop_threads]. unfold ASSERT_MSG. run_m.
  destruct (negb _); [apply IH |].
  destruct (bool_decide _); [apply IH |].
  destruct (is_waiting _); cbn; [apply IH | done].
Qed.

(** Visiting the four lists in turn is visiting their concatenation. *)
Lemma stop_all_cores {A} (k : M VM A) (s : System VM) :
  bind (bind (ask (fun s => Scheduler_GetThreadList s 0)) stop_threads) (fun _ =>
  bind (bind (ask (fun s => Scheduler_GetThreadList s 1)) stop_threads) (fun _ =>
  bind (bind (ask (fun s => Scheduler_GetThreadList s 2)) stop_threads) (fun _ =>
  bind (bind (ask (fun s => Scheduler_GetThreadList s 3)) stop_threads) (fun _ => k)))) s
  = bind (stop_threads (all_thread_lists s)) (fun _ => k) s.
Proof.
  unfold all_thread_lists, bind, ask.
  do 3 (rewrite stop_threads_app; unfold bind;
        match goal with
        | |- context [stop_threads ?l ?s1] =>
            destruct (stop_threads_spec l s1) as (? & _ & [(_ & _ & ->) | (_ & ->)]);
            [cbn | done]
        end).
  done.
Qed.

Lemma PrepareForTermination_run (s : System VM) :
  PrepareForTermination s =
    bind (ChangeStatus ProcessStatus.Exiting)
      (fun _ => bind (stop_threads (all_thread_lists s))
                  (fun _ => ChangeStatus ProcessStatus.Exited)) s.
Proof.
  unfold PrepareForTermination.
  set (k := ChangeStatus ProcessStatus.Exited).
  unfold bind at 1 10. rewrite ChangeStatus_run.
  destruct (decide _); [apply (stop_all_cores k) |].
  match goal with |- _ = bind _ _ ?s1 => exact (stop_all_cores k s1) end.
Qed.

(** From the state [ChangeStatus(Exiting)] leaves. *)
Lemma stop_and_exit (l : list Thread) (s1 : System VM) :
  status (this s1) = ProcessStatus.Exiting ->
  exists stopped : list Thread,
    let o := bind (stop_threads l) (fun _ => ChangeStatus ProcessStatus.Exited) s1 in
    stopped `prefix_of` List.filter (to_be_stopped s1) l /\
    stop_requests (events (final_state o)) =
      stop_requests (events s1) ++ map thread_id stopped /\
    Scheduler_GetThreadList (final_state o) = Scheduler_GetThreadList s1 /\
    ((exists t, t ∈ l /\ to_be_stopped s1 t = true /\ is_waiting (GetStatus t) = false) ->
       o = Abort (final_state o) /\
       status (this (final_state o)) = ProcessStatus.Exiting /\
       list.last (events (final_state o)) = Some unimplemented_exit) /\
    ((forall t, t ∈ l -> to_be_stopped s1 t = true -> is_waiting (GetStatus t) = true) ->
       o = Done tt (final_state o) /\
       stopped = List.filter (to_be_stopped s1) l /\
       status (this (final_state o)) = ProcessStatus.Exited).
Proof.
  intros Hst. unfold bind.
  destruct (stop_threads_spec l s1)
    as (stopped & Hpre & [(Hall & -> & Hrun) | (Hex & Hrun)]); rewrite Hrun.
  - rewrite ChangeStatus_run. cbn [this with_events].
    rewrite decide_False by (rewrite Hst; discriminate). cbn.
    eexists. split; [exact Hpre |].
    split; [by rewrite !stop_requests_app, stop_requests_stops; cbn; rewrite app_nil_r |].
    split; [done |]. split; [| done].
    intros (t & Hin & Hstop & Hwait).
    rewrite Forall_forall in Hall. apply list_elem_of_In in Hin.
    specialize (Hall t Hin Hstop). congruence.
  - cbn. exists stopped. split; [exact Hpre |].
    split; [by rewrite !stop_requests_app, stop_requests_stops; cbn; rewrite app_nil_r |].
    split; [done |]. split.
    + intros _. split; [done |]. split; [done |].
      by rewrite !app_assoc, last_snoc.
    + intros Hall. apply Exists_exists in Hex as (t & Hin & Hstop & Hwait).
      apply list_elem_of_In in Hin. specialize (Hall t Hin Hstop). congruence.
Qed.

(** C9. [PrepareForTermination] visits the thread lists of cores 0 to
    3 and sends [Stop] only to threads owned by the process other than
    the calling thread, in list order; the thread lists themselves are
    left as they were. If one of those threads is not in [WaitSynchAny]
    or [WaitSynchAll], the assertion fails: the run aborts with the
    status at [Exiting]. If all of them are, the run completes, every
    one of them has been sent [Stop], and the status is [Exited]. *)
Theorem PrepareForTermination_spec (s : System VM) :
  exists stopped : list Thread,
    let s' := final_state (PrepareForTermination s) in
    stopped `prefix_of` List.filter (to_be_stopped s) (all_thread_lists s) /\
    stop_requests (events s') = stop_requests (events s) ++ map thread_id stopped /\
    Scheduler_GetThreadList s' = Scheduler_GetThreadList s /\
    ((exists t, t ∈ all_thread_lists s /\ to_be_stopped s t = true /\
                is_waiting (GetStatus t) = false) ->
       PrepareForTermination s = Abort s' /\
       status (this s') = ProcessStatus.Exiting /\
       list.last (events s') = Some unimplemented_exit) /\
    ((forall t, t ∈ all_thread_lists s -> to_be_stopped s t = true ->
                is_waiting (GetStatus t) = true) ->
       PrepareForTermination s = Done tt s' /\
       stopped = List.filter (to_be_stopped s) (all_thread_lists s) /\
       status (this s') = ProcessStatus.Exited).
Proof.
  destruct (decide (status (this s) = ProcessStatus.Exiting)) as [Hst | Hst].
  - assert (PrepareForTermination s =
            bind (stop_threads (all_thread_lists s))
              (fun _ => ChangeStatus ProcessStatus.Exited) s) as ->.
    { rewrite PrepareForTermination_run. unfold bind at 1.
      by rewrite ChangeStatus_run, decide_True. }
    exact (stop_and_exit (all_thread_lists s) s Hst).
  - set (s1 := with_event WakeupAllWaitingThreads
                 (with_this (set_is_signaled true
                               (set_status ProcessStatus.Exiting (this s))) s)).
    assert (PrepareForTermination s =
            bind (stop_threads (all_thread_lists s))
              (fun _ => ChangeStatus ProcessStatus.Exited) s1) as ->.
    { rewrite PrepareForTermination_run. unfold bind at 1.
      by rewrite ChangeStatus_run, decide_False. }
    destruct (stop_and_exit (all_thread_lists s) s1 eq_refl)
      as (stopped & Hpre & Hreq & Hlists & Habort & Hdone).
    exists stopped. cbn zeta.
    split; [exact Hpre |]. split; [| split; [exact Hlists |]].
    + rewrite Hreq. subst s1. cbn. by rewrite stop_requests_app, app_nil_r.
    + split; [exact Habort | exact Hdone].
Qed.

End Termination.

(** ** Capability descriptors *)

(** A tested mask that is part of a mask already known decides the test. *)
Lemma land_submask (t m1 m2 : Z) :
  Z.land m1 m2 = m2 -> Z.land t m2 = Z.land (Z.land t m1) m2.
Proof. intros H. by rewrite <- Z.land_assoc, H. Qed.

Lemma land_1_testbit (bits : Z) : negb (Z.land bits 1 =? 0) = Z.testbit bits 0.
Proof.
  change 1 with (Z.ones 1) at 1. rewrite Z.land_ones by lia.
  rewrite Z.bit0_odd, Zmod_odd. by destruct (Z.odd bits).
Qed.

Lemma testbit_bitset_assign (mask index : Z) (val : bool) (i : Z) :
  0 <= index ->
  Z.testbit (bitset_assign mask index val) i =
    if index =? i then val else Z.testbit mask i.
Proof.
  intros Hidx. unfold bitset_assign, bitset_set, bitset_reset.
  destruct val.
  - rewrite Z.setbit_eqb by done. by destruct (index =? i).
  - rewrite Z.clearbit_eqb. destruct (index =? i); cbn; [apply andb_false_r | apply andb_true_r].
Qed.

(** [(w & (1 << n)) != 0] reads bit [n] of [w]. *)
Lemma land_bit_testbit (w n : Z) :
  0 <= n -> negb (Z.land w (Z.shiftl 1 n) =? 0) = Z.testbit w n.
Proof.
  intros Hn. rewrite Z.shiftl_1_l.
  destruct (Z.testbit w n) eqn:Hb.
  - assert (Z.land w (2 ^ n) = 2 ^ n) as ->.
    { apply Z.bits_inj'. intros i Hi.
      rewrite Z.land_spec, Z.pow2_bits_eqb by done.
      destruct (Z.eqb_spec n i) as [<- | ?]; [by rewrite Hb | apply andb_false_r]. }
    pose proof (Z.pow_pos_nonneg 2 n ltac:(lia) Hn).
    by replace (2 ^ n =? 0) with false by lia.
  - assert (Z.land w (2 ^ n) = 0) as ->; [| done].
    apply Z.bits_inj'. intros i Hi.
    rewrite Z.land_spec, Z.pow2_bits_eqb, Z.bits_0 by done.
    destruct (Z.eqb_spec n i) as [<- | ?]; [by rewrite Hb | apply andb_false_r].
Qed.

(** Which descriptors reach the syscall-mask and the memory-range branch. *)
Ltac decide_mask H m :=
  match type of H with
  | Z.land ?t ?m1 = _ => rewrite (land_submask t m1 m) by reflexivity; rewrite H
  end.

Section Capabilities.
Context {Decl : Declarations} {VM : Type} {VMOps : VMManagerOps VM}.

(** The loop writes bit [i - index] of [bits] at every [i] from
    [index] on for which bits remain ([bits >> (i - index)] is not
    zero) and [i] is in range, and nothing else. *)
Lemma svc_mask_loop_bits (fuel : nat) :
  forall bits index mask i,
    0 <= bits < 2 ^ Z.of_nat fuel -> 0 <= index -> 0 <= i ->
    Z.testbit (svc_mask_loop fuel bits index mask) i =
      if (index <=? i) && (i <? SVC_ACCESS_MASK_SIZE) && negb (bits ≫ (i - index) =? 0)
      then Z.testbit bits (i - index)
      else Z.testbit mask i.
Proof.
  induction fuel as [| fuel IH]; intros bits index mask i Hbits Hidx Hi.
  - assert (bits = 0) as -> by (cbn in Hbits; lia).
    cbn. rewrite Z.shiftr_0_l. cbn. by rewrite andb_false_r.
  - cbn [svc_mask_loop].
    destruct (bits =? 0) eqn:Hz; cbn [negb andb].
    { apply Z.eqb_eq in Hz as ->. rewrite Z.shiftr_0_l. cbn. by rewrite andb_false_r. }
    destruct (index <? SVC_ACCESS_MASK_SIZE) eqn:Hsz.
    2: { destruct (index <=? i) eqn:H1; [| done].
         destruct (i <? SVC_ACCESS_MASK_SIZE) eqn:H2; [lia | done]. }
    rewrite IH; try lia.
    2: { rewrite Z.shiftr_div_pow2 by lia. change (2 ^ 1) with 2.
         rewrite Nat2Z.inj_succ, Z.pow_succ_r in Hbits by lia.
         split; [apply Z.div_pos; lia | apply Z.div_lt_upper_bound; lia]. }
    rewrite testbit_bitset_assign, land_1_testbit by done.
    destruct (Z.eq_dec index i) as [<- | Hne].
    + rewrite Z.eqb_refl, Z.sub_diag, Z.shiftr_0_r, Hz, Z.leb_refl, Hsz. cbn.
      replace (index + 1 <=? index) with false by lia. done.
    + replace (index =? i) with false by lia.
      destruct (index <=? i) eqn:Hle.
      * replace (index + 1 <=? i) with true by lia.
        rewrite Z.shiftr_shiftr by lia.
        replace (1 + (i - (index + 1))) with (i - index) by lia.
        rewrite Z.shiftr_spec by lia.
        replace (i - (index + 1) + 1) with (i - index) by lia. done.
      * replace (index + 1 <=? i) with false by lia. done.
Qed.

(** The 32 iterations allowed are enough: more fuel gives the same mask. *)
Lemma svc_mask_loop_fuel (fuel : nat) (bits index mask : Z) :
  0 <= bits < 2 ^ 32 -> 0 <= index -> (32 <= fuel)%nat ->
  svc_mask_loop fuel bits index mask = svc_mask_loop 32 bits index mask.
Proof.
  intros Hbits Hidx Hfuel. apply Z.bits_inj'. intros i Hi.
  rewrite !svc_mask_loop_bits; try done.
  split; [lia |]. eapply Z.lt_le_trans; [apply Hbits |].
  apply Z.pow_le_mono_r; lia.
Qed.

Lemma syscall_mask_branch (w : Z) (rest : list Z) (s : System VM) :
  Z.land (w ≫ 20) 0xF80 = 0xF00 ->
  ParseKernelCaps (w :: rest) s =
    ParseKernelCaps rest
      (with_this
         (set_svc_access_mask
            (svc_mask_loop 32 (Z.land w 0xFFFFFF) (Z.land (w ≫ 24) 7 * 24)
               (svc_access_mask (this s)))
            (this s)) s).
Proof.
  intros Hty. cbn [ParseKernelCaps].
  assert ((w =? 0xFFFFFFFF) = false) as ->.
  { apply Z.eqb_neq. intros ->. discriminate Hty. }
  assert ((Z.land (w ≫ 20) 0xF00 =? 0xE00) = false) as -> by (by decide_mask Hty 0xF00).
  rewrite Hty. reflexivity.
Qed.

Lemma Create_svc_access_mask {K : Type} {KOps : KernelCoreOps K}
    (kernel : K) (name : string) (rng_seed : option Z) (fresh : Process VM) :
  svc_access_mask (Create kernel name rng_seed fresh).1 =
    bitset_set_all SVC_ACCESS_MASK_SIZE.
Proof. unfold Create. by destruct (CreateNewProcessID kernel). Qed.

(** C2. [Create] leaves every bit of [svc_access_mask] set. A
    descriptor whose type matches [0xF00] under the mask [0xF80], with
    group [g] (bits 24 to 26) and field [f] (the low 24 bits), changes
    only [svc_access_mask]: bit [g*24 + k] becomes bit [k] of [f] for
    every [k] reached, that is while bits of [f] remain at or above
    position [k] and [g*24 + k] is in range; every other bit keeps its
    value; then parsing goes on with the next word. *)
Theorem syscall_mask_descriptor :
  (forall (K : Type) (KOps : KernelCoreOps K) (kernel : K) (name : string)
          (rng_seed : option Z) (fresh : Process VM) (i : Z),
      0 <= i < SVC_ACCESS_MASK_SIZE ->
      bitset_test (svc_access_mask (Create kernel name rng_seed fresh).1) i = true) /\
  (forall (w : Z) (rest : list Z) (s : System VM),
      Z.land (w ≫ 20) 0xF80 = 0xF00 ->
      let g := Z.land (w ≫ 24) 7 in
      let f := Z.land w 0xFFFFFF in
      exists mask' : Z,
        ParseKernelCaps (w :: rest) s =
          ParseKernelCaps rest (with_this (set_svc_access_mask mask' (this s)) s) /\
        (forall k, 0 <= k -> f ≫ k <> 0 -> g * 24 + k < SVC_ACCESS_MASK_SIZE ->
           bitset_test mask' (g * 24 + k) = bitset_test f k) /\
        (forall i, 0 <= i ->
           ~ (g * 24 <= i /\ i < SVC_ACCESS_MASK_SIZE /\ f ≫ (i - g * 24) <> 0) ->
           bitset_test mask' i = bitset_test (svc_access_mask (this s)) i)).
Proof.
  split.
  - intros K KOps kernel name rng_seed fresh i Hi.
    rewrite Create_svc_access_mask. by apply Z.ones_spec_low.
  - intros w rest s Hty g f.
    assert (Hf : 0 <= f < 2 ^ Z.of_nat 32).
    { subst f. change 0xFFFFFF with (Z.ones 24). rewrite Z.land_ones by lia.
      pose proof (Z.mod_pos_bound w (2 ^ 24) ltac:(lia)). cbn in *. lia. }
    assert (Hg : 0 <= g * 24).
    { subst g. change 7 with (Z.ones 3). rewrite Z.land_ones by lia.
      pose proof (Z.mod_pos_bound (w ≫ 24) (2 ^ 3) ltac:(lia)). lia. }
    eexists. split; [by apply syscall_mask_branch |]. fold g f.
    unfold bitset_test. split.
    + intros k Hk Hrem Hrange.
      rewrite svc_mask_loop_bits by lia.
      replace (g * 24 + k - g * 24) with k by lia.
      replace (g * 24 <=? g * 24 + k) with true by lia.
      replace (g * 24 + k <? SVC_ACCESS_MASK_SIZE) with true by lia.
      by replace (f ≫ k =? 0) with false by lia.
    + intros i Hi Hnot.
      rewrite svc_mask_loop_bits by lia.
      destruct (g * 24 <=? i) eqn:H1; [| done].
      destruct (i <? SVC_ACCESS_MASK_SIZE) eqn:H2; [| done].
      destruct (f ≫ (i - g * 24) =? 0) eqn:H3; [done |].
      exfalso. apply Hnot. lia.
Qed.

(** A word of the memory-range type reaches the memory-range branch. *)
Lemma memory_range_earlier_branches (w : Z) :
  Z.land (w ≫ 20) 0xFFE = 0xFF8 ->
  (w =? 0xFFFFFFFF) = false /\
  (Z.land (w ≫ 20) 0xF00 =? 0xE00) = false /\
  (Z.land (w ≫ 20) 0xF80 =? 0xF00) = false /\
  (Z.land (w ≫ 20) 0xFF0 =? 0xFE0) = false /\
  (Z.land (w ≫ 20) 0xFF8 =? 0xFF0) = false.
Proof.
  intros Hty. split.
  { apply Z.eqb_neq. intros ->. discriminate Hty. }
  repeat split.
  - by decide_mask Hty 0xF00.
  - by decide_mask Hty 0xF80.
  - by decide_mask Hty 0xFF0.
  - by decide_mask Hty 0xFF8.
Qed.

(** C3. For a word [w] of the memory-range type ([0xFF8] under the
    mask [0xFFE]): followed by a word [next] of the same type, exactly
    one mapping is appended, with address [w << 12] in 32 bits, size
    [(next << 12) - (w << 12)] when that end is above the start and 0
    otherwise, [read_only] bit 20 of [w] and [unk_flag] bit 20 of
    [next], and parsing goes on after [next]; followed by a word of
    another type, or by nothing, the process is unchanged, one warning
    is logged, and parsing goes on with the word after [w]. *)
Theorem memory_range_descriptor (w : Z) (s : System VM) :
  Z.land (w ≫ 20) 0xFFE = 0xFF8 ->
  (forall next rest,
      Z.land (next ≫ 20) 0xFFE = 0xFF8 ->
      ParseKernelCaps (w :: next :: rest) s =
        ParseKernelCaps rest
          (with_this
             (set_address_mappings
                (address_mappings (this s) ++
                   [{| address := shl32 w 12;
                       size := if shl32 w 12 <? shl32 next 12
                               then shl32 next 12 - shl32 w 12 else 0;
                       read_only := Z.testbit w 20;
                       unk_flag := Z.testbit next 20 |}])
                (this s)) s)) /\
  (forall next rest,
      Z.land (next ≫ 20) 0xFFE <> 0xFF8 ->
      ParseKernelCaps (w :: next :: rest) s =
        ParseKernelCaps (next :: rest) (with_event incomplete_range s)) /\
  ParseKernelCaps [w] s = Done tt (with_event incomplete_range s) /\
  this (with_event incomplete_range s) = this s /\
  warnings (events (with_event incomplete_range s)) = S (warnings (events s)).
Proof.
  intros Hty.
  destruct (memory_range_earlier_branches w Hty) as (H0 & H1 & H2 & H3 & H4).
  repeat split.
  - intros next rest Hnext.
    cbn [ParseKernelCaps]. rewrite H0, H1, H2, H3, H4, Hty, Hnext.
    cbn [Z.eqb Pos.eqb negb]. run_m.
    by rewrite !land_bit_testbit.
  - intros next rest Hnext.
    remember (next :: rest) as tail eqn:Htail.
    cbn [ParseKernelCaps]. rewrite H0, H1, H2, H3, H4, Hty.
    destruct tail as [| next' rest']; [discriminate |].
    injection Htail as -> ->.
    by replace (Z.land (next ≫ 20) 0xFFE =? 0xFF8) with false by lia.
  - cbn [ParseKernelCaps]. by rewrite H0, H1, H2, H3, H4, Hty.
  - unfold warnings. cbn. rewrite omap_app, length_app. cbn. lia.
Qed.

End Capabilities.

(** ** The TLS slot allocator *)

Lemma clearbit_setbit_free (b n : Z) :
  0 <= n -> Z.testbit b n = false -> bitset_reset (bitset_set b n) n = b.
Proof.
  intros Hn Hb. apply Z.bits_inj'. intros i Hi. unfold bitset_reset, bitset_set.
  rewrite Z.clearbit_eqb, Z.setbit_eqb by done.
  destruct (Z.eqb_spec n i) as [<- | ?]; cbn; [by rewrite Hb | apply andb_true_r].
Qed.

Lemma setbit_clearbit_used (b n : Z) :
  0 <= n -> Z.testbit b n = true -> bitset_set (bitset_reset b n) n = b.
Proof.
  intros Hn Hb. apply Z.bits_inj'. intros i Hi. unfold bitset_reset, bitset_set.
  rewrite Z.setbit_eqb, Z.clearbit_eqb by done.
  destruct (Z.eqb_spec n i) as [<- | ?]; cbn; [by rewrite Hb | apply andb_true_r].
Qed.

Section TlsAllocator.
Context {Decl : Declarations} {VM : Type} {VMOps : VMManagerOps VM}.

Ltac slot_cases k :=
  assert (k = 0 \/ k = 1 \/ k = 2 \/ k = 3 \/ k = 4 \/ k = 5 \/ k = 6 \/ k = 7)
    as [-> | [-> | [-> | [-> | [-> | [-> | [-> | ->]]]]]]] by lia.

(** The inner loop returns the lowest clear bit among the eight. *)
Lemma first_free_slot_Some (b slot : Z) :
  first_free_slot b = Some slot ->
  0 <= slot < TLS_PAGE_SLOTS /\ Z.testbit b slot = false /\
  forall k, 0 <= k < slot -> Z.testbit b k = true.
Proof.
  unfold first_free_slot, bitset_test, TLS_PAGE_SLOTS.
  change (seqZ 0 8) with [0; 1; 2; 3; 4; 5; 6; 7]. cbn [find].
  assert (Hk : forall n, 0 <= n < 8 -> Z.testbit b n = false ->
               (forall k, 0 <= k < n -> Z.testbit b k = true) ->
               0 <= n < 8 /\ Z.testbit b n = false /\
               forall k, 0 <= k < n -> Z.testbit b k = true) by auto.
  destruct (Z.testbit b 0) eqn:B0; cbn [negb];
    [| intros [= <-]; apply Hk; [lia | done | intros; lia]].
  destruct (Z.testbit b 1) eqn:B1; cbn [negb];
    [| intros [= <-]; apply Hk; [lia | done | intros k ?; slot_cases k; done || lia]].
  destruct (Z.testbit b 2) eqn:B2; cbn [negb];
    [| intros [= <-]; apply Hk; [lia | done | intros k ?; slot_cases k; done || lia]].
  destruct (Z.testbit b 3) eqn:B3; cbn [negb];
    [| intros [= <-]; apply Hk; [lia | done | intros k ?; slot_cases k; done || lia]].
  destruct (Z.testbit b 4) eqn:B4; cbn [negb];
    [| intros [= <-]; apply Hk; [lia | done | intros k ?; slot_cases k; done || lia]].
  destruct (Z.testbit b 5) eqn:B5; cbn [negb];
    [| intros [= <-]; apply Hk; [lia | done | intros k ?; slot_cases k; done || lia]].
  destruct (Z.testbit b 6) eqn:B6; cbn [negb];
    [| intros [= <-]; apply Hk; [lia | done | intros k ?; slot_cases k; done || lia]].
  destruct (Z.testbit b 7) eqn:B7; cbn [negb]; [done |].
  intros [= <-]; apply Hk; [lia | done | intros k ?; slot_cases k; done || lia].
Qed.

Lemma first_free_slot_lowest (b slot : Z) :
  0 <= slot < TLS_PAGE_SLOTS -> Z.testbit b slot = false ->
  (forall k, 0 <= k < slot -> Z.testbit b k = true) ->
  first_free_slot b = Some slot.
Proof.
  unfold TLS_PAGE_SLOTS. intros Hslot Hfree Hlow.
  destruct (first_free_slot b) as [slot' |] eqn:Hfind.
  - apply first_free_slot_Some in Hfind as (Hslot' & Hfree' & Hlow').
    f_equal. destruct (Z.lt_trichotomy slot slot') as [Hlt | [-> | Hlt]]; [| done |].
    + rewrite Hlow' in Hfree by lia. discriminate.
    + rewrite Hlow in Hfree' by lia. discriminate.
  - exfalso. revert Hfind. unfold first_free_slot, bitset_test, TLS_PAGE_SLOTS.
    change (seqZ 0 8) with [0; 1; 2; 3; 4; 5; 6; 7]. cbn [find].
    slot_cases slot; rewrite ?Hfree; cbn [negb]; try done;
      repeat (match goal with
              | |- context [negb (Z.testbit b ?k)] =>
                  destruct (Z.testbit b k); cbn [negb]; try done
              end).
Qed.

(** A full page has no clear bit among the eight. *)
Lemma full_page_no_free_slot (slot : Z) :
  0 <= slot < TLS_PAGE_SLOTS -> Z.testbit (Z.ones TLS_PAGE_SLOTS) slot = true.
Proof. intros. by apply Z.ones_spec_low. Qed.

(** What the scan returns: a page with its lowest free slot, all pages
    before it without one; or the request for a new page. *)
Lemma FindFreeThreadLocalSlot_from_spec (l : list Z) :
  forall page,
    match FindFreeThreadLocalSlot_from page l with
    | (p, slot, false) =>
        exists (i : nat) (b : Z),
          p = page + Z.of_nat i /\ l !! i = Some b /\ first_free_slot b = Some slot
    | (p, slot, true) => p = 0 /\ slot = 0
    end.
Proof.
  induction l as [| b l IH]; intros page; cbn; [done |].
  destruct (negb (bitset_all TLS_PAGE_SLOTS b)).
  - destruct (first_free_slot b) as [slot |] eqn:Hfind.
    + exists 0%nat, b. repeat split; [lia | done].
    + specialize (IH (page + 1)).
      destruct (FindFreeThreadLocalSlot_from (page + 1) l) as [[p slot] []]; [done |].
      destruct IH as (i & b' & -> & Hl & Hf). exists (S i), b'.
      repeat split; [lia | done | done].
  - specialize (IH (page + 1)).
    destruct (FindFreeThreadLocalSlot_from (page + 1) l) as [[p slot] []]; [done |].
    destruct IH as (i & b' & -> & Hl & Hf). exists (S i), b'.
    repeat split; [lia | done | done].
Qed.

(** First fit: the lowest free (page, slot) is the one returned. *)
Lemma FindFreeThreadLocalSlot_from_lowest (l : list Z) :
  forall page (i : nat) (b slot : Z),
    l !! i = Some b ->
    (forall j, (j < i)%nat -> l !! j = Some (Z.ones TLS_PAGE_SLOTS)) ->
    0 <= slot < TLS_PAGE_SLOTS -> Z.testbit b slot = false ->
    (forall k, 0 <= k < slot -> Z.testbit b k = true) ->
    FindFreeThreadLocalSlot_from page l = (page + Z.of_nat i, slot, false).
Proof.
  induction l as [| b0 l IH]; intros page i b slot Hi Hfull Hslot Hfree Hlow; [done |].
  cbn [FindFreeThreadLocalSlot_from]. destruct i as [| i].
  - injection Hi as ->.
    assert (bitset_all TLS_PAGE_SLOTS b = false) as ->.
    { unfold bitset_all. apply Z.eqb_neq. intros ->.
      by rewrite full_page_no_free_slot in Hfree. }
    cbn [negb]. rewrite (first_free_slot_lowest b slot) by done.
    do 2 f_equal. lia.
  - pose proof (Hfull 0%nat ltac:(lia)) as H0. injection H0 as ->.
    unfold bitset_all at 1. rewrite Z.eqb_refl. cbn [negb].
    rewrite (IH (page + 1) i b slot); try done.
    + do 2 f_equal. lia.
    + intros j Hj. apply (Hfull (S j)). lia.
Qed.

Lemma FindFreeThreadLocalSlot_full (l : list Z) :
  forall page,
    Forall (fun b => b = Z.ones TLS_PAGE_SLOTS) l ->
    FindFreeThreadLocalSlot_from page l = (0, 0, true).
Proof.
  induction l as [| b l IH]; intros page Hfull; [done |].
  inversion Hfull as [| ? ? -> Hrest]; subst. cbn.
  unfold bitset_all. rewrite Z.eqb_refl. cbn. by apply IH.
Qed.

(** Allocation in an existing page. *)
Lemma MarkNextAvailableTLSSlotAsUsed_existing
    (thread : Thread) (s : System VM) (i : nat) (b slot : Z) :
  FindFreeThreadLocalSlot (tls_slots (this s)) = (Z.of_nat i, slot, false) ->
  tls_slots (this s) !! i = Some b ->
  0 <= slot < TLS_PAGE_SLOTS ->
  MarkNextAvailableTLSSlotAsUsed thread s =
    Done (wrap64 (vm_GetTLSIORegionBaseAddress (vm_manager (this s))
                  + Z.of_nat i * PAGE_SIZE + slot * TLS_ENTRY_SIZE), thread)
      (with_this (set_tls_slots (<[i := bitset_set b slot]> (tls_slots (this s)))
                    (this s)) s).
Proof.
  intros Hfind Hb Hslot.
  unfold MarkNextAvailableTLSSlotAsUsed. run_m. rewrite Hfind. run_m.
  unfold update_tls_page, page_set. run_m.
  rewrite Nat2Z.id, Hb. by replace (slot <? TLS_PAGE_SLOTS) with true by lia.
Qed.

(** Allocation in a new page. *)
Lemma MarkNextAvailableTLSSlotAsUsed_new (thread : Thread) (s : System VM) :
  FindFreeThreadLocalSlot (tls_slots (this s)) = (0, 0, true) ->
  exists (thread' : Thread) (s' : System VM),
    MarkNextAvailableTLSSlotAsUsed thread s =
      Done (wrap64 (vm_GetTLSIORegionBaseAddress (vm_manager (this s))
                    + Z.of_nat (length (tls_slots (this s))) * PAGE_SIZE
                    + 0 * TLS_ENTRY_SIZE), thread') s' /\
    tls_slots (this s') = tls_slots (this s) ++ [1] /\
    vm_manager (this s') =
      (vm_MapMemoryBlock
         (wrap64 (vm_GetTLSIORegionBaseAddress (vm_manager (this s))
                  + Z.of_nat (length (tls_slots (this s))) * PAGE_SIZE))
         (GetTLSMemory thread') 0 PAGE_SIZE MemoryState.ThreadLocal
         (vm_RefreshMemoryBlockMappings (GetTLSMemory thread')
            (vm_manager (this s)))).2 /\
    GetTLSMemory thread' = GetTLSMemory thread ++ replicate (Z.to_nat PAGE_SIZE) 0.
Proof.
  intros Hfind.
  unfold MarkNextAvailableTLSSlotAsUsed. run_m. rewrite Hfind. run_m.
  unfold RefreshMemoryBlockMappings, MapMemoryBlock. run_m.
  rewrite length_app. cbn [length].
  replace (Z.of_nat (length (tls_slots (this s)) + 1) - 1)
    with (Z.of_nat (length (tls_slots (this s)))) by lia.
  destruct (vm_MapMemoryBlock _ _ _ _ _ _) as [result vm'] eqn:Hmap. run_m.
  unfold update_tls_page, page_set. run_m.
  rewrite Nat2Z.id, list_lookup_middle by done. run_m.
  eexists _, _. split; [reflexivity |]. cbn.
  split; [| split; [by rewrite Hmap | done]].
  rewrite insert_app_r_alt, Nat.sub_diag by done. done.
Qed.

(** The address of (page, slot) leads back to (page, slot). *)
Lemma tls_address_inverse (base page slot : Z) :
  0 < TLS_ENTRY_SIZE -> TLS_PAGE_SLOTS * TLS_ENTRY_SIZE <= PAGE_SIZE ->
  0 <= page -> 0 <= slot < TLS_PAGE_SLOTS -> (page + 1) * PAGE_SIZE <= 2 ^ 64 ->
  let tls_base :=
    wrap64 (wrap64 (base + page * PAGE_SIZE + slot * TLS_ENTRY_SIZE) - base) in
  tls_base / PAGE_SIZE = page /\
  (tls_base `mod` PAGE_SIZE) / TLS_ENTRY_SIZE = slot.
Proof.
  intros Hentry Hfit Hpage Hslot Hspace tls_base. unfold TLS_PAGE_SLOTS in *.
  assert (Hoff : 0 <= slot * TLS_ENTRY_SIZE < PAGE_SIZE) by nia.
  assert (tls_base = page * PAGE_SIZE + slot * TLS_ENTRY_SIZE) as ->.
  { subst tls_base. unfold wrap64. rewrite Zminus_mod_idemp_l.
    replace (base + page * PAGE_SIZE + slot * TLS_ENTRY_SIZE - base)
      with (page * PAGE_SIZE + slot * TLS_ENTRY_SIZE) by lia.
    apply Z.mod_small. nia. }
  split.
  - symmetry. apply (Z.div_unique _ _ _ (slot * TLS_ENTRY_SIZE)); lia.
  - replace ((page * PAGE_SIZE + slot * TLS_ENTRY_SIZE) `mod` PAGE_SIZE)
      with (slot * TLS_ENTRY_SIZE).
    + apply Z.div_mul. lia.
    + apply (Z.mod_unique _ _ page); lia.
Qed.

Lemma FreeTLSSlot_at (tls_address : VAddr) (s : System VM) (i : nat) (b slot : Z) :
  let tls_base :=
    wrap64 (tls_address - vm_GetTLSIORegionBaseAddress (vm_manager (this s))) in
  tls_base / PAGE_SIZE = Z.of_nat i ->
  (tls_base `mod` PAGE_SIZE) / TLS_ENTRY_SIZE = slot ->
  0 <= slot < TLS_PAGE_SLOTS ->
  tls_slots (this s) !! i = Some b ->
  FreeTLSSlot tls_address s =
    Done tt (with_this (set_tls_slots (<[i := bitset_reset b slot]> (tls_slots (this s)))
                          (this s)) s).
Proof.
  intros tls_base Hpage Hslot Hrange Hb. unfold FreeTLSSlot. run_m.
  fold tls_base. rewrite Hpage, Hslot.
  unfold update_tls_page, page_reset. run_m.
  rewrite Nat2Z.id, Hb. by replace (slot <? TLS_PAGE_SLOTS) with true by lia.
Qed.

(** Every allocation: the slot chosen was free in an existing page, or
    is slot 0 of a page appended because the scan found none. *)
Lemma MarkNextAvailableTLSSlotAsUsed_chosen (thread : Thread) (s : System VM) :
  exists (page : nat) (slot : Z) (thread' : Thread) (s' : System VM),
    MarkNextAvailableTLSSlotAsUsed thread s =
      Done (wrap64 (vm_GetTLSIORegionBaseAddress (vm_manager (this s))
                    + Z.of_nat page * PAGE_SIZE + slot * TLS_ENTRY_SIZE), thread') s' /\
    0 <= slot < TLS_PAGE_SLOTS /\
    ((exists b,
        tls_slots (this s) !! page = Some b /\ Z.testbit b slot = false /\
        tls_slots (this s') = <[page := bitset_set b slot]> (tls_slots (this s)) /\
        vm_manager (this s') = vm_manager (this s))
     \/
     (page = length (tls_slots (this s)) /\ slot = 0 /\
      tls_slots (this s') = tls_slots (this s) ++ [1] /\
      exists target block offset size state block',
        vm_manager (this s') =
          (vm_MapMemoryBlock target block offset size state
             (vm_RefreshMemoryBlockMappings block' (vm_manager (this s)))).2)).
Proof.
  pose proof (FindFreeThreadLocalSlot_from_spec (tls_slots (this s)) 0) as Hfind.
  fold (FindFreeThreadLocalSlot (tls_slots (this s))) in Hfind.
  destruct (FindFreeThreadLocalSlot (tls_slots (this s))) as [[p slot] []] eqn:Hscan.
  - destruct Hfind as [-> ->].
    destruct (MarkNextAvailableTLSSlotAsUsed_new thread s Hscan)
      as (thread' & s' & Hrun & Htls & Hvm & _).
    exists (length (tls_slots (this s))), 0, thread', s'.
    split; [exact Hrun |]. split; [unfold TLS_PAGE_SLOTS; lia |].
    right. repeat split; [done |]. by do 6 eexists.
  - destruct Hfind as (i & b & -> & Hb & Hslot).
    apply first_free_slot_Some in Hslot as (Hrange & Hfree & _).
    exists i, slot, thread. eexists.
    split; [by apply (MarkNextAvailableTLSSlotAsUsed_existing thread s i b slot) |].
    split; [done |]. left. by exists b.
Qed.

(** C7. Allocation is first fit, pages low to high, slots 0 to 7.
    - With no page yet, page 0 is appended and its slot 0 returned.
    - With every page full, a page is appended after them and its slot
      0 returned.
    - The lowest free (page, slot), all pages before [page] full and
      all slots of it before [slot] occupied, is the one returned.
    - After [FreeTLSSlot] on the address of an occupied slot that is
      then the lowest free one, the next allocation returns that
      address and the bitmaps are as before the free.
    - Every allocation returns
      [region_base + page * PAGE_SIZE + slot * TLS_ENTRY_SIZE] in 64
      bits, for a slot that was free (or is slot 0 of the appended
      page) and whose bit is set afterwards. *)
Theorem tls_allocation_first_fit (thread : Thread) (s : System VM) :
  let base := vm_GetTLSIORegionBaseAddress (vm_manager (this s)) in
  let pages := tls_slots (this s) in
  (pages = [] ->
     exists thread' s',
       MarkNextAvailableTLSSlotAsUsed thread s =
         Done (wrap64 (base + 0 * PAGE_SIZE + 0 * TLS_ENTRY_SIZE), thread') s' /\
       tls_slots (this s') = [1]) /\
  (Forall (fun b => b = Z.ones TLS_PAGE_SLOTS) pages ->
     exists thread' s',
       MarkNextAvailableTLSSlotAsUsed thread s =
         Done (wrap64 (base + Z.of_nat (length pages) * PAGE_SIZE
                       + 0 * TLS_ENTRY_SIZE), thread') s' /\
       tls_slots (this s') = pages ++ [1]) /\
  (forall (page : nat) (b slot : Z),
     pages !! page = Some b ->
     0 <= slot < TLS_PAGE_SLOTS -> bitset_test b slot = false ->
     (forall j, (j < page)%nat -> pages !! j = Some (Z.ones TLS_PAGE_SLOTS)) ->
     (forall k, 0 <= k < slot -> bitset_test b k = true) ->
     exists s',
       MarkNextAvailableTLSSlotAsUsed thread s =
         Done (wrap64 (base + Z.of_nat page * PAGE_SIZE + slot * TLS_ENTRY_SIZE),
               thread) s' /\
       tls_slots (this s') = <[page := bitset_set b slot]> pages) /\
  (forall (page : nat) (b slot : Z),
     0 < TLS_ENTRY_SIZE -> TLS_PAGE_SLOTS * TLS_ENTRY_SIZE <= PAGE_SIZE ->
     (Z.of_nat page + 1) * PAGE_SIZE <= 2 ^ 64 ->
     pages !! page = Some b ->
     0 <= slot < TLS_PAGE_SLOTS -> bitset_test b slot = true ->
     (forall j, (j < page)%nat -> pages !! j = Some (Z.ones TLS_PAGE_SLOTS)) ->
     (forall k, 0 <= k < slot -> bitset_test b k = true) ->
     let tls_address :=
       wrap64 (base + Z.of_nat page * PAGE_SIZE + slot * TLS_ENTRY_SIZE) in
     exists s1 s2,
       FreeTLSSlot tls_address s = Done tt s1 /\
       tls_slots (this s1) = <[page := bitset_reset b slot]> pages /\
       MarkNextAvailableTLSSlotAsUsed thread s1 = Done (tls_address, thread) s2 /\
       tls_slots (this s2) = pages) /\
  (exists (page : nat) (slot b' : Z) thread' s',
     MarkNextAvailableTLSSlotAsUsed thread s =
       Done (wrap64 (base + Z.of_nat page * PAGE_SIZE + slot * TLS_ENTRY_SIZE),
             thread') s' /\
     0 <= slot < TLS_PAGE_SLOTS /\
     tls_slots (this s') !! page = Some b' /\ bitset_test b' slot = true /\
     ((exists b, pages !! page = Some b /\ bitset_test b slot = false /\
                 tls_slots (this s') = <[page := bitset_set b slot]> pages)
      \/ (page = length pages /\ slot = 0 /\ tls_slots (this s') = pages ++ [1]))).
Proof.
  intros base pages.
  assert (Hfull : Forall (fun b => b = Z.ones TLS_PAGE_SLOTS) pages ->
     exists thread' s',
       MarkNextAvailableTLSSlotAsUsed thread s =
         Done (wrap64 (base + Z.of_nat (length pages) * PAGE_SIZE
                       + 0 * TLS_ENTRY_SIZE), thread') s' /\
       tls_slots (this s') = pages ++ [1]).
  { intros Hall.
    destruct (MarkNextAvailableTLSSlotAsUsed_new thread s)
      as (thread' & s' & Hrun & Htls & _); [by apply FindFreeThreadLocalSlot_full |].
    by exists thread', s'. }
  assert (Hlowest : forall (s0 : System VM) (page : nat) (b slot : Z),
     tls_slots (this s0) !! page = Some b ->
     0 <= slot < TLS_PAGE_SLOTS -> bitset_test b slot = false ->
     (forall j, (j < page)%nat ->
                tls_slots (this s0) !! j = Some (Z.ones TLS_PAGE_SLOTS)) ->
     (forall k, 0 <= k < slot -> bitset_test b k = true) ->
     MarkNextAvailableTLSSlotAsUsed thread s0 =
       Done (wrap64 (vm_GetTLSIORegionBaseAddress (vm_manager (this s0))
                     + Z.of_nat page * PAGE_SIZE + slot * TLS_ENTRY_SIZE), thread)
         (with_this (set_tls_slots (<[page := bitset_set b slot]> (tls_slots (this s0)))
                       (this s0)) s0)).
  { intros s0 page b slot Hb Hslot Hfree Hbefore Hlow.
    apply MarkNextAvailableTLSSlotAsUsed_existing; [| done | done].
    unfold FindFreeThreadLocalSlot.
    by rewrite (FindFreeThreadLocalSlot_from_lowest _ 0 page b slot). }
  split; [| split; [exact Hfull | split; [| split]]].
  - intros Hnil. destruct Hfull as (thread' & s' & Hrun & Htls).
    { rewrite Hnil. constructor. }
    exists thread', s'. rewrite Hnil in Hrun, Htls. by split.
  - intros page b slot Hb Hslot Hfree Hbefore Hlow.
    eexists. split; [by apply Hlowest |]. done.
  - intros page b slot Hentry Hfit Hspace Hb Hslot Hused Hbefore Hlow tls_address.
    destruct (tls_address_inverse base (Z.of_nat page) slot) as [Hp Hs]; try done; [lia |].
    pose proof (lookup_lt_Some _ _ _ Hb) as Hlen.
    eexists _, _. split; [by apply (FreeTLSSlot_at tls_address s page b slot) |].
    split; [done |]. cbn [this with_this tls_slots set_tls_slots].
    rewrite (Hlowest _ page (bitset_reset b slot) slot); cbn.
    + split; [done |].
      rewrite list_insert_insert_eq, setbit_clearbit_used by (done || lia).
      by apply list_insert_id.
    + by apply list_lookup_insert_eq.
    + done.
    + apply Z.clearbit_eq.
    + intros j Hj. rewrite list_lookup_insert_ne by lia. by apply Hbefore.
    + intros k Hk. unfold bitset_test, bitset_reset.
      rewrite Z.clearbit_neq by lia. by apply Hlow.
  - destruct (MarkNextAvailableTLSSlotAsUsed_chosen thread s)
      as (page & slot & thread' & s' & Hrun & Hslot &
          [(b & Hb & Hfree & Htls & _) | (-> & -> & Htls & _)]).
    + exists page, slot, (bitset_set b slot), thread', s'.
      split; [exact Hrun |]. split; [done |].
      split; [rewrite Htls; apply list_lookup_insert_eq; by eapply lookup_lt_Some |].
      split; [apply Z.setbit_eq; lia |]. left. by exists b.
    + exists (length pages), 0, 1, thread', s'.
      split; [exact Hrun |]. split; [done |].
      split; [rewrite Htls; by apply list_lookup_middle |].
      split; [done |]. by right.
Qed.

(** C8. Under the layout the allocator assumes (eight slots fit in a
    page, the pages lie in the 64-bit space, mapping and refreshing do
    not move the TLS region), [FreeTLSSlot] on the address an
    allocation returned computes the page and slot that allocation
    chose, clears exactly that bit, and removes no page: the bitmaps
    are again those before the allocation, followed by an all-free page
    if the allocation appended one. *)
Theorem free_tls_inverts_allocate (thread : Thread) (s : System VM) :
  0 < TLS_ENTRY_SIZE -> TLS_PAGE_SLOTS * TLS_ENTRY_SIZE <= PAGE_SIZE ->
  (Z.of_nat (length (tls_slots (this s))) + 1) * PAGE_SIZE <= 2 ^ 64 ->
  (forall target block offset size state vm,
      vm_GetTLSIORegionBaseAddress
        (vm_MapMemoryBlock target block offset size state vm).2 =
      vm_GetTLSIORegionBaseAddress vm) ->
  (forall block vm,
      vm_GetTLSIORegionBaseAddress (vm_RefreshMemoryBlockMappings block vm) =
      vm_GetTLSIORegionBaseAddress vm) ->
  exists (page : nat) (slot tls_address b1 : Z) thread' s1 s2,
    MarkNextAvailableTLSSlotAsUsed thread s = Done (tls_address, thread') s1 /\
    tls_address =
      wrap64 (vm_GetTLSIORegionBaseAddress (vm_manager (this s))
              + Z.of_nat page * PAGE_SIZE + slot * TLS_ENTRY_SIZE) /\
    tls_slots (this s1) !! page = Some b1 /\ bitset_test b1 slot = true /\
    (let tls_base :=
       wrap64 (tls_address - vm_GetTLSIORegionBaseAddress (vm_manager (this s1))) in
     tls_base / PAGE_SIZE = Z.of_nat page /\
     (tls_base `mod` PAGE_SIZE) / TLS_ENTRY_SIZE = slot) /\
    FreeTLSSlot tls_address s1 = Done tt s2 /\
    tls_slots (this s2) = <[page := bitset_reset b1 slot]> (tls_slots (this s1)) /\
    length (tls_slots (this s2)) = length (tls_slots (this s1)) /\
    (forall i b, tls_slots (this s) !! i = Some b -> tls_slots (this s2) !! i = Some b) /\
    (tls_slots (this s2) = tls_slots (this s) \/
     tls_slots (this s2) = tls_slots (this s) ++ [0]).
Proof.
  intros Hentry Hfit Hspace Hmap Hrefresh.
  destruct (MarkNextAvailableTLSSlotAsUsed_chosen thread s)
    as (page & slot & thread' & s1 & Hrun & Hslot & Hcase).
  assert (Hbase : vm_GetTLSIORegionBaseAddress (vm_manager (this s1)) =
                  vm_GetTLSIORegionBaseAddress (vm_manager (this s))).
  { destruct Hcase as [(b & _ & _ & _ & ->) | (_ & _ & _ & Hvm)]; [done |].
    destruct Hvm as (? & ? & ? & ? & ? & ? & ->). by rewrite Hmap, Hrefresh. }
  assert (Hpage : (page <= length (tls_slots (this s)))%nat).
  { destruct Hcase as [(b & Hb & _) | (-> & _)]; [| done].
    apply lookup_lt_Some in Hb. lia. }
  assert (Hps : 0 <= PAGE_SIZE) by (unfold TLS_PAGE_SLOTS in *; lia).
  destruct (tls_address_inverse (vm_GetTLSIORegionBaseAddress (vm_manager (this s)))
              (Z.of_nat page) slot) as [Hp Hs]; try done; [lia | nia |].
  assert (exists b1, tls_slots (this s1) !! page = Some b1 /\
                     bitset_test b1 slot = true /\
                     (<[page := bitset_reset b1 slot]> (tls_slots (this s1)) =
                        tls_slots (this s) \/
                      <[page := bitset_reset b1 slot]> (tls_slots (this s1)) =
                        tls_slots (this s) ++ [0]))
    as (b1 & Hb1 & Hset & Hback).
  { destruct Hcase as [(b & Hb & Hfree & -> & _) | (-> & -> & -> & _)].
    - exists (bitset_set b slot).
      split; [apply list_lookup_insert_eq; by eapply lookup_lt_Some |].
      split; [apply Z.setbit_eq; lia |]. left.
      rewrite list_insert_insert_eq, clearbit_setbit_free by (done || lia).
      by apply list_insert_id.
    - exists 1. split; [by apply list_lookup_middle |]. split; [done |]. right.
      by rewrite insert_app_r_alt, Nat.sub_diag. }
  eexists page, slot, _, b1, thread', s1, _.
  split; [exact Hrun |]. split; [reflexivity |].
  split; [exact Hb1 |]. split; [exact Hset |].
  rewrite Hbase. split; [by split |].
  split; [apply (FreeTLSSlot_at _ s1 page b1 slot); by rewrite ?Hbase |].
  cbn [this with_this tls_slots set_tls_slots].
  split; [done |]. split; [by rewrite length_insert |].
  split; [| exact Hback].
  intros i b Hi. destruct Hback as [-> | ->]; [done |].
  by apply lookup_app_l_Some.
Qed.

End TlsAllocator.

(** ** The status along call sequences *)

Lemma wakeups_app (evs1 evs2 : list Event) :
  wakeups (evs1 ++ evs2) = (wakeups evs1 + wakeups evs2)%nat.
Proof. unfold wakeups. by rewrite omap_app, length_app. Qed.

Lemma wakeups_stops (threads : list Thread) : wakeups (stops threads) = 0%nat.
Proof. induction threads as [| t l IH]; [done | exact IH]. Qed.

Section StatusOrder.
Context {Decl : Declarations} {VM : Type} {VMOps : VMManagerOps VM}.

Lemma keeps_ret {A} (a : A) : keeps_status (VM := VM) (ret a).
Proof. by intros s. Qed.

Lemma keeps_abort {A} : keeps_status (VM := VM) (abort (A := A)).
Proof. by intros s. Qed.

Lemma keeps_get_this : keeps_status (VM := VM) get_this.
Proof. by intros s. Qed.

Lemma keeps_ask {A} (f : System VM -> A) : keeps_status (ask f).
Proof. by intros s. Qed.

Lemma keeps_emit (e : Event) : keeps_status (VM := VM) (emit e).
Proof. by intros s. Qed.

Lemma keeps_modify_this (f : Process VM -> Process VM) :
  (forall p, status (f p) = status p) -> keeps_status (modify_this f).
Proof. intros Hf s. apply Hf. Qed.

Lemma keeps_bind {A B} (m : M VM A) (k : A -> M VM B) :
  keeps_status m -> (forall a, keeps_status (k a)) -> keeps_status (bind m k).
Proof.
  intros Hm Hk s. unfold bind. specialize (Hm s).
  destruct (m s) as [a s' | s']; cbn in Hm; [| done].
  by rewrite Hk.
Qed.

Ltac keeps :=
  repeat first
    [ apply keeps_ret | apply keeps_abort | apply keeps_get_this
    | apply keeps_ask | apply keeps_emit
    | apply keeps_modify_this; intros; reflexivity
    | apply keeps_bind; [| intros ?]
    | match goal with
      | |- keeps_status (match ?x with _ => _ end) => destruct x
      end ].

Lemma keeps_ParseKernelCaps (kernel_caps : list Z) :
  keeps_status (VM := VM) (ParseKernelCaps kernel_caps).
Proof.
  remember (length kernel_caps) as n eqn:Hn.
  assert (Hle : (length kernel_caps <= n)%nat) by lia. clear Hn.
  revert kernel_caps Hle. induction n as [| n IH]; intros [| w rest] Hle;
    cbn in Hle; try lia; [apply keeps_ret | apply keeps_ret |].
  assert (Hrest : keeps_status (VM := VM) (ParseKernelCaps rest)) by (apply IH; lia).
  cbn [ParseKernelCaps].
  unfold LOG_INFO, LOG_WARNING, LOG_ERROR.
  destruct rest as [| end_desc rest']; cbn zeta; keeps; try exact Hrest.
  apply IH. cbn in Hle. lia.
Qed.

Lemma keeps_stop_threads (l : list Thread) :
  keeps_status (VM := VM) (stop_threads l).
Proof. induction l as [| t l IH]; cbn; unfold ASSERT_MSG; keeps; exact IH. Qed.

(** Every operation but [Run] and [PrepareForTermination] keeps the status. *)
Lemma keeps_call (op : Operation) :
  is_run op = false -> is_terminate op = false ->
  keeps_status (VM := VM) (call op).
Proof.
  destruct op; cbn; intros Hrun Hterm; try discriminate.
  - unfold discard, GetResourceLimit. keeps.
  - unfold discard, ClearSignalState, LOG_ERROR. keeps.
  - unfold LoadFromMetadata. keeps.
  - apply keeps_ParseKernelCaps.
  - unfold discard, MarkNextAvailableTLSSlotAsUsed, RefreshMemoryBlockMappings,
      MapMemoryBlock, update_tls_page, page_set. keeps.
  - unfold FreeTLSSlot, update_tls_page, page_reset. keeps.
  - unfold LoadModule, MapSegment, MapMemoryBlock, Unwrap, Reprotect. keeps.
  - unfold discard, HeapAllocate. keeps.
  - unfold discard, HeapFree. keeps.
  - unfold discard, MirrorMemory. keeps.
  - unfold discard, UnmapMemory, UnmapRange. keeps.
  - unfold discard, ShouldWait. keeps.
  - unfold Acquire, ShouldWait, ASSERT_MSG. keeps.
Qed.

Lemma ChangeStatus_status (new_status : ProcessStatus.t) (s : System VM) :
  status (this (final_state (ChangeStatus new_status s))) = new_status.
Proof. rewrite ChangeStatus_run. by destruct (decide _). Qed.

(** [Run] ends in [Running], or aborts in [Unwrap] with the status untouched. *)
Lemma Run_status (entry_point : VAddr) (priority stack_size : Z) (s : System VM) :
  (exists s', Run entry_point priority stack_size s = Done tt s' /\
              status (this s') = ProcessStatus.Running) \/
  (exists s', Run entry_point priority stack_size s = Abort s' /\
              status (this s') = status (this s)).
Proof.
  unfold Run, MapMemoryBlock, Unwrap, ChangeStatus. run_m.
  destruct (vm_MapMemoryBlock _ _ _ _ _ _) as [[h | c] vm']; cbn; [| right; eauto].
  left. destruct (decide _); cbn; eauto.
Qed.

(** [PrepareForTermination] ends in [Exited], or aborts in [Exiting]. *)
Lemma PrepareForTermination_status (s : System VM) :
  (exists s', PrepareForTermination s = Done tt s' /\
              status (this s') = ProcessStatus.Exited) \/
  (exists s', PrepareForTermination s = Abort s' /\
              status (this s') = ProcessStatus.Exiting).
Proof.
  assert (exists s1, ChangeStatus ProcessStatus.Exiting s = Done tt s1 /\
                     status (this s1) = ProcessStatus.Exiting) as (s1 & Hcs & Hst).
  { rewrite ChangeStatus_run. destruct (decide _); eauto. }
  rewrite !PrepareForTermination_run. unfold bind. rewrite Hcs.
  pose proof (keeps_stop_threads (all_thread_lists s) s1) as Hkeep.
  destruct (stop_threads (all_thread_lists s) s1) as [[] s2 | s2]; cbn in Hkeep.
  - left. rewrite ChangeStatus_run.
    destruct (decide (status (this s2) = ProcessStatus.Exited)); eauto.
  - right. exists s2. split; [reflexivity | congruence].
Qed.

(** The status history is forward from a process that is created or
    running and then follows the life cycle, and from any process that
    is neither run nor terminated again. *)
Lemma forward_history (ops : list Operation) :
  forall s : System VM,
    (ProcessStatus.rank (status (this s)) <= 1 /\ follows_life_cycle ops = true) \/
    forallb no_restart ops = true ->
    forward_only (status (this s) :: status_history ops s).
Proof.
  induction ops as [| op rest IH]; intros s Hpre; [done |].
  cbn [status_history].
  destruct (is_terminate op) eqn:Hterm; [| destruct (is_run op) eqn:Hrun].
  - destruct op; try discriminate. cbn [call].
    destruct Hpre as [[Hrank Hcycle] | Hnone]; [| discriminate].
    cbn in Hcycle.
    destruct (PrepareForTermination_status s) as [(s' & -> & Hst) | (s' & -> & Hst)].
    + split; [rewrite Hst; cbn; destruct (status (this s)); cbn; lia |].
      apply IH. by right.
    + cbn. rewrite Hst. cbn. lia.
  - destruct op; try discriminate. cbn [call].
    destruct Hpre as [[Hrank Hcycle] | Hnone]; [| discriminate].
    cbn in Hcycle.
    destruct (Run_status entry_point main_thread_priority stack_size s)
      as [(s' & -> & Hst) | (s' & -> & Hst)].
    + split; [rewrite Hst; cbn; destruct (status (this s)); cbn in *; lia |].
      apply IH. left. rewrite Hst. by split.
    + cbn. rewrite Hst. lia.
  - pose proof (keeps_call op Hrun Hterm s) as Hkeep.
    assert (Hrest : (ProcessStatus.rank (status (this s)) <= 1 /\
                     follows_life_cycle rest = true) \/
                    forallb no_restart rest = true).
    { destruct Hpre as [[Hrank Hcycle] | Hnone].
      - left. split; [done |]. cbn in Hcycle. by rewrite Hterm in Hcycle.
      - right. cbn in Hnone. by apply andb_prop in Hnone as [_ ?]. }
    destruct (call op s) as [[] s' | s']; cbn in Hkeep.
    + split; [rewrite Hkeep; lia |]. apply IH. by rewrite Hkeep.
    + cbn. rewrite Hkeep. lia.
Qed.

(** *** Statement by statement *)

Lemma quiet_ret {A} (a : A) : quiet (VM := VM) (ret a).
Proof. by intros s. Qed.

Lemma quiet_abort {A} : quiet (VM := VM) (abort (A := A)).
Proof. by intros s. Qed.

Lemma quiet_get_this : quiet (VM := VM) get_this.
Proof. by intros s. Qed.

Lemma quiet_ask {A} (f : System VM -> A) : quiet (ask f).
Proof. by intros s. Qed.

Lemma quiet_emit (e : Event) :
  e <> WakeupAllWaitingThreads -> quiet (VM := VM) (emit e).
Proof.
  intros He s. split; [reflexivity |].
  unfold emit, with_event, with_events. cbn [final_state events].
  rewrite wakeups_app. destruct e; try done; unfold wakeups; cbn; lia.
Qed.

Lemma quiet_modify_this (f : Process VM -> Process VM) :
  (forall p, status (f p) = status p) -> quiet (modify_this f).
Proof. intros Hf s. split; [apply Hf | reflexivity]. Qed.

Lemma quiet_bind {A B} (m : M VM A) (k : A -> M VM B) :
  quiet m -> (forall a, quiet (k a)) -> quiet (bind m k).
Proof.
  intros Hm Hk s. unfold bind. specialize (Hm s).
  destruct (m s) as [a s' | s']; cbn in Hm; [| done].
  destruct (Hk a s') as [Hst Hwake]. destruct Hm as [Hst' Hwake'].
  split; congruence.
Qed.

Ltac quiet_steps :=
  repeat first
    [ apply quiet_ret | apply quiet_abort | apply quiet_get_this
    | apply quiet_ask | apply quiet_emit; discriminate
    | apply quiet_modify_this; intros; reflexivity
    | apply quiet_bind; [| intros ?]
    | match goal with
      | |- quiet (match ?x with _ => _ end) => destruct x
      end ].

Lemma quiet_ParseKernelCaps (kernel_caps : list Z) :
  quiet (VM := VM) (ParseKernelCaps kernel_caps).
Proof.
  remember (length kernel_caps) as n eqn:Hn.
  assert (Hle : (length kernel_caps <= n)%nat) by lia. clear Hn.
  revert kernel_caps Hle. induction n as [| n IH]; intros [| w rest] Hle;
    cbn in Hle; try lia; [apply quiet_ret | apply quiet_ret |].
  assert (Hrest : quiet (VM := VM) (ParseKernelCaps rest)) by (apply IH; lia).
  cbn [ParseKernelCaps].
  unfold LOG_INFO, LOG_WARNING, LOG_ERROR.
  destruct rest as [| end_desc rest']; cbn zeta; quiet_steps; try exact Hrest.
  apply IH. cbn in Hle. lia.
Qed.

Lemma quiet_stop_threads (l : list Thread) : quiet (VM := VM) (stop_threads l).
Proof. induction l as [| t l IH]; cbn; unfold ASSERT_MSG; quiet_steps; exact IH. Qed.

(** Every operation but [Run] and [PrepareForTermination] is quiet. *)
Lemma quiet_call (op : Operation) :
  is_run op = false -> is_terminate op = false -> quiet (VM := VM) (call op).
Proof.
  destruct op; cbn; intros Hrun Hterm; try discriminate.
  - unfold discard, GetResourceLimit. quiet_steps.
  - unfold discard, ClearSignalState, LOG_ERROR. quiet_steps.
  - unfold LoadFromMetadata. quiet_steps.
  - apply quiet_ParseKernelCaps.
  - unfold discard, MarkNextAvailableTLSSlotAsUsed, RefreshMemoryBlockMappings,
      MapMemoryBlock, update_tls_page, page_set. quiet_steps.
  - unfold FreeTLSSlot, update_tls_page, page_reset. quiet_steps.
  - unfold LoadModule, MapSegment, MapMemoryBlock, Unwrap, Reprotect. quiet_steps.
  - unfold discard, HeapAllocate. quiet_steps.
  - unfold discard, HeapFree. quiet_steps.
  - unfold discard, MirrorMemory. quiet_steps.
  - unfold discard, UnmapMemory, UnmapRange. quiet_steps.
  - unfold discard, ShouldWait. quiet_steps.
  - unfold Acquire, ShouldWait, ASSERT_MSG. quiet_steps.
Qed.

(** The statements of an operation other than its status requests are
    quiet. *)
Lemma quiet_statements (op : Operation) (m : M VM unit) :
  Other m ∈ statements op -> quiet m.
Proof.
  intros Hin.
  destruct (is_terminate op) eqn:Hterm; [| destruct (is_run op) eqn:Hrun].
  - destruct op; try discriminate. cbn in Hin.
    repeat match goal with
           | H : _ ∈ _ :: _ |- _ => apply elem_of_cons in H as [H | H]
           | H : _ ∈ [] |- _ => by apply elem_of_nil in H
           | H : Other _ = Request _ |- _ => discriminate H
           | H : Other _ = Other _ |- _ => injection H as ->
           end;
      (apply quiet_bind; [apply quiet_ask | intros ?; apply quiet_stop_threads]).
  - destruct op; try discriminate. cbn in Hin.
    repeat match goal with
           | H : _ ∈ _ :: _ |- _ => apply elem_of_cons in H as [H | H]
           | H : _ ∈ [] |- _ => by apply elem_of_nil in H
           | H : Other _ = Request _ |- _ => discriminate H
           | H : Other _ = Other _ |- _ => injection H as ->
           end;
      unfold MapMemoryBlock, Unwrap; quiet_steps.
  - assert (Hbody : statements op = [Other (call op)]) by (by destruct op).
    rewrite Hbody in Hin. apply list_elem_of_singleton in Hin. injection Hin as ->.
    by apply quiet_call.
Qed.

Lemma bind_ret_tt (m : M VM unit) (s : System VM) : bind m (fun _ => ret tt) s = m s.
Proof. unfold bind, ret. by destruct (m s) as [[] s' | s']. Qed.

Lemma bind_ext {A B} (m : M VM A) (k k' : A -> M VM B) (s : System VM) :
  (forall a s', k a s' = k' a s') -> bind m k s = bind m k' s.
Proof. intros Hk. unfold bind. destruct (m s); [apply Hk | reflexivity]. Qed.

(** A call is its statements run in order. *)
Lemma call_statements (op : Operation) (s : System VM) :
  call op s = run_statements (statements op) s.
Proof.
  destruct (is_terminate op) eqn:Hterm; [| destruct (is_run op) eqn:Hrun].
  - destruct op; try discriminate. cbn [call statements run_statements run_statement].
    unfold PrepareForTermination.
    do 5 (apply bind_ext; intros ? ?). symmetry. apply bind_ret_tt.
  - destruct op; try discriminate. cbn [call statements run_statements run_statement].
    unfold Run, MapMemoryBlock, Unwrap. run_m.
    destruct (vm_MapMemoryBlock _ _ _ _ _ _) as [[h | c] vm']; cbn; [| reflexivity].
    reflexivity.
  - assert (Hbody : statements op = [Other (call op)]) by (by destruct op).
    rewrite Hbody. cbn [run_statements run_statement]. symmetry. apply bind_ret_tt.
Qed.

Lemma forward_only_app (a b : ProcessStatus.t) (h t : list ProcessStatus.t) :
  forward_only (a :: h) -> list.last (a :: h) = Some b -> forward_only (b :: t) ->
  forward_only (a :: h ++ t).
Proof.
  revert a. induction h as [| c h IH]; intros a Hh Hlast Ht.
  - cbn in Hlast. by injection Hlast as ->.
  - destruct Hh as [Hac Hh]. split; [exact Hac |].
    apply IH; [exact Hh | exact Hlast | exact Ht].
Qed.

(** Along a body whose requests are in forward order from the current
    status, the status after each statement is forward, and the last of
    them is the status the body ends in. *)
Lemma statement_statuses_forward (body : list Statement) :
  (forall m, Other m ∈ body -> quiet m) ->
  forall s : System VM,
    forward_only (status (this s) :: status_requests body) ->
    forward_only (status (this s) :: statement_statuses body s) /\
    list.last (status (this s) :: statement_statuses body s) =
      Some (status (this (final_state (run_statements body s)))).
Proof.
  induction body as [| statement rest IH]; intros Hquiet s Hreq; [done |].
  assert (Hrest : forall m, Other m ∈ rest -> quiet m).
  { intros m Hin. apply Hquiet. by apply elem_of_cons; right. }
  cbn [statement_statuses run_statements]. unfold bind.
  destruct statement as [new_status | m]; cbn [run_statement].
  - assert (Hfirst : ProcessStatus.rank (status (this s)) <= ProcessStatus.rank new_status /\
                     forward_only (new_status :: status_requests rest)).
    { exact Hreq. }
    destruct Hfirst as [Hrank Hreq'].
    pose proof (ChangeStatus_status new_status s) as Hst.
    rewrite ChangeStatus_run in *.
    destruct (decide (status (this s) = new_status)) as [Heq | Hne]; cbn in Hst.
    + destruct (IH Hrest s) as [Hfwd Hlast]; [by rewrite Hst |].
      split; [split; [lia | exact Hfwd] |].
      rewrite <- Hlast. by rewrite Heq.
    + match goal with
      | |- context [statement_statuses rest ?s1] =>
          destruct (IH Hrest s1) as [Hfwd Hlast]; [exact Hreq' |];
          split; [split; [exact Hrank | exact Hfwd] | exact Hlast]
      end.
  - destruct (Hquiet m) with (s := s) as [Hst _]; [by apply elem_of_cons; left |].
    destruct (m s) as [[] s' | s']; cbn in Hst.
    + destruct (IH Hrest s') as [Hfwd Hlast]; [by rewrite Hst |].
      split; [split; [rewrite Hst; lia | exact Hfwd] | exact Hlast].
    + cbn. split; [rewrite Hst; lia | reflexivity].
Qed.

(** The statement-level trace is forward under the conditions of
    [forward_history]. *)
Lemma forward_trace (ops : list Operation) :
  forall s : System VM,
    (ProcessStatus.rank (status (this s)) <= 1 /\ follows_life_cycle ops = true) \/
    forallb no_restart ops = true ->
    forward_only (status (this s) :: status_trace ops s).
Proof.
  induction ops as [| op rest IH]; intros s Hpre; [done |].
  cbn [status_trace].
  assert (Hreq : forward_only (status (this s) :: status_requests (statements op))).
  { destruct (is_terminate op) eqn:Hterm; [| destruct (is_run op) eqn:Hrun].
    - destruct op; try discriminate.
      destruct Hpre as [[Hrank _] | Hnone]; [| discriminate]. cbn. lia.
    - destruct op; try discriminate.
      destruct Hpre as [[Hrank _] | Hnone]; [| discriminate]. cbn. lia.
    - by destruct op. }
  destruct (statement_statuses_forward (statements op) (quiet_statements op) s Hreq)
    as [Hfwd Hlast].
  rewrite <- call_statements in Hlast.
  eapply forward_only_app; [exact Hfwd | exact Hlast |].
  destruct (is_terminate op) eqn:Hterm; [| destruct (is_run op) eqn:Hrun].
  - destruct op; try discriminate. cbn [call].
    destruct Hpre as [[Hrank Hcycle] | Hnone]; [| discriminate].
    cbn in Hcycle.
    destruct (PrepareForTermination_status s) as [(s' & -> & Hst) | (s' & -> & Hst)].
    + apply IH. by right.
    + done.
  - destruct op; try discriminate. cbn [call].
    destruct Hpre as [[Hrank Hcycle] | Hnone]; [| discriminate].
    cbn in Hcycle.
    destruct (Run_status entry_point main_thread_priority stack_size s)
      as [(s' & -> & Hst) | (s' & -> & Hst)].
    + apply IH. left. cbn. rewrite Hst. by split.
    + done.
  - pose proof (keeps_call op Hrun Hterm s) as Hkeep.
    destruct (call op s) as [[] s' | s']; cbn in Hkeep; [| done].
    cbn. apply IH. rewrite Hkeep.
    destruct Hpre as [[Hrank Hcycle] | Hnone].
    + left. split; [done |]. cbn in Hcycle. by rewrite Hterm in Hcycle.
    + right. cbn in Hnone. by apply andb_prop in Hnone as [_ ?].
Qed.

(** C4, as the code has it. [Create] yields [Created]. [ChangeStatus]
    installs whatever status is requested. A call is its statements run
    in order; among them [Run] has one status request, for [Running],
    [PrepareForTermination] has two, for [Exiting] before the threads
    are stopped and for [Exited] after, whatever the current status, and
    the other operations have none. The statements that are not status
    requests neither change the status nor wake the waiters, so no
    operation but these two changes the status. [Run] completes in
    [Running] or aborts with the status it found;
    [PrepareForTermination] completes in [Exited] or aborts in
    [Exiting]. So the status, read after every call and after every
    statement of every call, never decreases along a call sequence on a
    created process in which neither [Run] nor [PrepareForTermination]
    is called after the first [PrepareForTermination]. *)
Theorem status_forward_along_life_cycle :
  (forall (K : Type) (KOps : KernelCoreOps K) (kernel : K) (name : string)
          (rng_seed : option Z) (fresh : Process VM),
      status (Create kernel name rng_seed fresh).1 = ProcessStatus.Created) /\
  (forall (new_status : ProcessStatus.t) (s : System VM),
      status (this (final_state (ChangeStatus new_status s))) = new_status) /\
  (forall (op : Operation) (s : System VM),
      is_run op = false -> is_terminate op = false ->
      status (this (final_state (call op s))) = status (this s)) /\
  (forall (ops : list Operation) (s : System VM),
      status (this s) = ProcessStatus.Created ->
      follows_life_cycle ops = true ->
      forward_only (status (this s) :: status_history ops s)) /\
  (forall (op : Operation) (s : System VM),
      call op s = run_statements (statements op) s) /\
  (forall (op : Operation),
      status_requests (statements (VM := VM) op) =
        if is_run op then [ProcessStatus.Running]
        else if is_terminate op then [ProcessStatus.Exiting; ProcessStatus.Exited]
        else []) /\
  (forall (op : Operation) (m : M VM unit) (s : System VM),
      Other m ∈ statements op ->
      status (this (final_state (m s))) = status (this s) /\
      wakeups (events (final_state (m s))) = wakeups (events s)) /\
  (forall (entry_point : VAddr) (priority stack_size : Z) (s : System VM),
      (exists s', Run entry_point priority stack_size s = Done tt s' /\
                  status (this s') = ProcessStatus.Running /\
                  wakeups (events s') =
                    (wakeups (events s)
                     + if decide (status (this s) = ProcessStatus.Running)
                       then 0 else 1)%nat) \/
      (exists s', Run entry_point priority stack_size s = Abort s' /\
                  status (this s') = status (this s) /\
                  wakeups (events s') = wakeups (events s))) /\
  (forall s : System VM,
      (exists s', PrepareForTermination s = Done tt s' /\
                  status (this s') = ProcessStatus.Exited /\
                  wakeups (events s') =
                    (wakeups (events s)
                     + if decide (status (this s) = ProcessStatus.Exiting)
                       then 1 else 2)%nat) \/
      (exists s', PrepareForTermination s = Abort s' /\
                  status (this s') = ProcessStatus.Exiting /\
                  wakeups (events s') =
                    (wakeups (events s)
                     + if decide (status (this s) = ProcessStatus.Exiting)
                       then 0 else 1)%nat)) /\
  (forall (ops : list Operation) (s : System VM),
      status (this s) = ProcessStatus.Created ->
      follows_life_cycle ops = true ->
      forward_only (status (this s) :: status_trace ops s)).
Proof.
  split; [| split; [| split; [| split; [| split; [| split; [| split; [| split;
    [| split]]]]]]]].
  - intros K KOps kernel name rng_seed fresh. unfold Create.
    by destruct (CreateNewProcessID kernel).
  - apply ChangeStatus_status.
  - intros op s Hrun Hterm. by apply keeps_call.
  - intros ops s Hst Hcycle. apply forward_history. left.
    rewrite Hst. by split.
  - apply call_statements.
  - by intros [].
  - intros op m s Hin. by apply (quiet_statements op).
  - intros entry_point priority stack_size s.
    unfold Run, MapMemoryBlock, Unwrap, ChangeStatus. run_m.
    destruct (vm_MapMemoryBlock _ _ _ _ _ _) as [[h | c] vm']; cbn.
    + left.
      destruct (decide (status (this s) = ProcessStatus.Running)) as [Hst | Hst];
        cbn; (eexists; split; [reflexivity |]; split; [done |]);
        unfold wakeups; cbn; rewrite ?omap_app, ?length_app; cbn; lia.
    + right. eexists. split; [reflexivity |]. split; [done |].
      unfold wakeups. cbn. rewrite ?omap_app, ?length_app. cbn. lia.
  - intros s.
    set (s1 := if decide (status (this s) = ProcessStatus.Exiting) then s
               else with_event WakeupAllWaitingThreads
                      (with_this (set_is_signaled true
                                    (set_status ProcessStatus.Exiting (this s))) s)).
    assert (Hs1 : status (this s1) = ProcessStatus.Exiting /\
                  wakeups (events s1) =
                    (wakeups (events s)
                     + if decide (status (this s) = ProcessStatus.Exiting)
                       then 0 else 1)%nat).
    { subst s1. destruct (decide _); [split; [done | lia] |].
      split; [done |]. unfold with_event, with_events. cbn [events].
      rewrite wakeups_app. unfold wakeups. cbn. lia. }
    destruct Hs1 as [Hst1 Hwake1].
    assert (Hout : PrepareForTermination s =
                   bind (stop_threads (all_thread_lists s))
                     (fun _ => ChangeStatus ProcessStatus.Exited) s1).
    { rewrite PrepareForTermination_run. unfold bind at 1. rewrite ChangeStatus_run.
      subst s1. by destruct (decide _). }
    rewrite Hout. unfold bind.
    destruct (stop_threads_spec (all_thread_lists s) s1)
      as (stopped & _ & [(_ & _ & ->) | (_ & ->)]).
    + left. rewrite ChangeStatus_run. cbn [this with_events status].
      rewrite decide_False by (rewrite Hst1; discriminate).
      eexists. split; [reflexivity |]. split; [reflexivity |].
      unfold with_event, with_events. cbn [events with_this this].
      rewrite !wakeups_app, wakeups_stops, Hwake1.
      destruct (decide _); unfold wakeups; cbn; lia.
    + right. eexists. split; [reflexivity |]. split; [exact Hst1 |].
      unfold with_events. cbn [events].
      rewrite !wakeups_app, wakeups_stops, Hwake1. unfold wakeups. cbn. lia.
  - intros ops s Hst Hcycle. apply forward_trace. left.
    rewrite Hst. by split.
Qed.

End StatusOrder.

(** C4, as stated, fails: on the sample process, created by [Create],
    [Run] after [PrepareForTermination] takes the status from [Exited]
    back to [Running]; and [ChangeStatus(Exiting)], the first step of a
    second [PrepareForTermination], takes it from [Exited] back to
    [Exiting]. *)
Lemma status_moves_backward :
  status (this Sample.system) = ProcessStatus.Created /\
  status_history (Decl := Sample.decl) (VMOps := Sample.vm_ops)
    [OpPrepareForTermination; OpRun 0 0 16] Sample.system =
    [ProcessStatus.Exited; ProcessStatus.Running] /\
  ~ forward_only
      (status (this Sample.system) ::
       status_history (Decl := Sample.decl) (VMOps := Sample.vm_ops)
         [OpPrepareForTermination; OpRun 0 0 16] Sample.system) /\
  exists s1,
    PrepareForTermination Sample.system = Done tt s1 /\
    status (this s1) = ProcessStatus.Exited /\
    status (this (final_state (ChangeStatus ProcessStatus.Exiting s1))) =
      ProcessStatus.Exiting.
Proof.
  assert (status_history (Decl := Sample.decl) (VMOps := Sample.vm_ops)
            [OpPrepareForTermination; OpRun 0 0 16] Sample.system =
          [ProcessStatus.Exited; ProcessStatus.Running]) as Hhistory
    by (vm_compute; reflexivity).
  rewrite Hhistory.
  split; [reflexivity |]. split; [reflexivity |]. split.
  - intros (_ & H & _). cbn in H. lia.
  - eexists. split; [vm_compute; reflexivity |].
    split; vm_compute; reflexivity.
Qed.

(** ** The theorems on the sample configuration *)

(** A range descriptor pair [0xFF800001], [0xFF900003] on the sample
    process: one mapping of [0x2000] bytes at [0x1000]. *)
Lemma memory_range_descriptor_witness :
  Z.land (0xFF800001 ≫ 20) 0xFFE = 0xFF8 /\
  ParseKernelCaps (Decl := Sample.decl) [0xFF800001; 0xFF900003] Sample.system =
    Done tt
      (with_this
         (set_address_mappings
            [{| address := 0x1000; size := 0x2000; read_only := false; unk_flag := true |}]
            (this Sample.system)) Sample.system).
Proof.
  split; [reflexivity |].
  destruct (memory_range_descriptor (Decl := Sample.decl)
              0xFF800001 Sample.system eq_refl) as (Hpair & _).
  exact (Hpair 0xFF900003 [] eq_refl).
Defined.

(** The first allocation on the sample process, freed again: page 0,
    slot 0, and the page stays. *)
Lemma free_tls_inverts_allocate_witness :
  let thread := Sample.thread 13 1 ThreadStatus.Dormant in
  0 < TLS_ENTRY_SIZE (Declarations := Sample.decl) /\
  TLS_PAGE_SLOTS * TLS_ENTRY_SIZE (Declarations := Sample.decl)
    <= PAGE_SIZE (Declarations := Sample.decl) /\
  (Z.of_nat (length (tls_slots (this Sample.system))) + 1)
    * PAGE_SIZE (Declarations := Sample.decl) <= 2 ^ 64 /\
  exists (page : nat) (slot tls_address b1 : Z) thread' s1 s2,
    MarkNextAvailableTLSSlotAsUsed (Decl := Sample.decl) (VMOps := Sample.vm_ops)
      thread Sample.system = Done (tls_address, thread') s1 /\
    tls_address =
      wrap64 (vm_GetTLSIORegionBaseAddress (VMManagerOps := Sample.vm_ops)
                (vm_manager (this Sample.system))
              + Z.of_nat page * PAGE_SIZE (Declarations := Sample.decl)
              + slot * TLS_ENTRY_SIZE (Declarations := Sample.decl)) /\
    tls_slots (this s1) !! page = Some b1 /\ bitset_test b1 slot = true /\
    (let tls_base :=
       wrap64 (tls_address
               - vm_GetTLSIORegionBaseAddress (VMManagerOps := Sample.vm_ops)
                   (vm_manager (this s1))) in
     tls_base / PAGE_SIZE (Declarations := Sample.decl) = Z.of_nat page /\
     (tls_base `mod` PAGE_SIZE (Declarations := Sample.decl))
       / TLS_ENTRY_SIZE (Declarations := Sample.decl) = slot) /\
    FreeTLSSlot (Decl := Sample.decl) (VMOps := Sample.vm_ops) tls_address s1 =
      Done tt s2 /\
    tls_slots (this s2) = <[page := bitset_reset b1 slot]> (tls_slots (this s1)) /\
    length (tls_slots (this s2)) = length (tls_slots (this s1)) /\
    (forall i b, tls_slots (this Sample.system) !! i = Some b ->
                 tls_slots (this s2) !! i = Some b) /\
    (tls_slots (this s2) = tls_slots (this Sample.system) \/
     tls_slots (this s2) = tls_slots (this Sample.system) ++ [0]).
Proof.
  intros thread.
  split; [reflexivity |]. split; [by vm_compute |]. split; [by vm_compute |].
  apply (free_tls_inverts_allocate (Decl := Sample.decl) (VMOps := Sample.vm_ops)
           thread Sample.system).
  - reflexivity.
  - by vm_compute.
  - by vm_compute.
  - intros. reflexivity.
  - intros. reflexivity.
Defined.

(** The descriptor [0xF0000005] (group 0, field [101] in binary) on the
    sample process: bits 0 and 2 are written 1, bit 1 is written 0, and
    bit 3, not reached, keeps the 1 that [Create] gave it. *)
Lemma syscall_mask_descriptor_witness :
  Z.land (0xF0000005 ≫ 20) 0xF80 = 0xF00 /\
  exists mask' : Z,
    ParseKernelCaps (Decl := Sample.decl) [0xF0000005] Sample.system =
      Done tt (with_this (set_svc_access_mask mask' (this Sample.system)) Sample.system) /\
    bitset_test mask' 0 = true /\ bitset_test mask' 1 = false /\
    bitset_test mask' 2 = true /\ bitset_test mask' 3 = true.
Proof.
  split; [reflexivity |].
  destruct (syscall_mask_descriptor (Decl := Sample.decl) (VM := Sample.vm))
    as [_ Hparse].
  destruct (Hparse 0xF0000005 [] Sample.system eq_refl) as (mask' & Hrun & Hset & Hkeep).
  exists mask'. split; [exact Hrun |].
  split; [apply (Hset 0); [discriminate | discriminate | reflexivity] |].
  split; [apply (Hset 1); [discriminate | discriminate | reflexivity] |].
  split; [apply (Hset 2); [discriminate | discriminate | reflexivity] |].
  rewrite (Hkeep 3); [reflexivity | discriminate |].
  intros (_ & _ & Hrem). by apply Hrem.
Defined.

(** The first allocation on the sample process: page 0, slot 0, at the
    base of the TLS region. *)
Lemma tls_allocation_first_fit_witness :
  tls_slots (this Sample.system) = [] /\
  exists thread' s',
    MarkNextAvailableTLSSlotAsUsed (Decl := Sample.decl) (VMOps := Sample.vm_ops)
      (Sample.thread 13 1 ThreadStatus.Dormant) Sample.system =
      Done (0x40000000, thread') s' /\
    tls_slots (this s') = [1].
Proof.
  split; [reflexivity |].
  exact (proj1 (tls_allocation_first_fit (Decl := Sample.decl) (VMOps := Sample.vm_ops)
                  (Sample.thread 13 1 ThreadStatus.Dormant) Sample.system) eq_refl).
Defined.

(** Termination of the sample process: its waiting threads 11 and 12 are
    stopped, the calling thread 10 and thread 20 of another process are
    not, and the status is [Exited]; with thread 12 ready instead, the
    run aborts in [Exiting]. *)
Lemma PrepareForTermination_spec_witness :
  (exists s',
     PrepareForTermination Sample.system = Done tt s' /\
     status (this s') = ProcessStatus.Exited /\
     stop_requests (events s') = [11; 12]) /\
  (exists s',
     PrepareForTermination Sample.busy_system = Abort s' /\
     status (this s') = ProcessStatus.Exiting /\
     stop_requests (events s') = [11]).
Proof.
  split.
  - destruct (PrepareForTermination_spec Sample.system)
      as (stopped & _ & Hreq & _ & _ & Hdone).
    destruct Hdone as (Hrun & -> & Hst).
    { intros t Hin Hstop. apply list_elem_of_In in Hin. vm_compute in Hin.
      destruct Hin as [<- | [<- | [<- | [<- | []]]]]; done. }
    eexists. split; [exact Hrun |]. split; [exact Hst | exact Hreq].
  - destruct (PrepareForTermination_spec Sample.busy_system)
      as (stopped & Hpre & Hreq & _ & Habort & _).
    destruct Habort as (Hrun & Hst & _).
    { exists (Sample.thread 12 1 ThreadStatus.Ready).
      split; [| done]. apply list_elem_of_In. vm_compute. tauto. }
    eexists. split; [exact Hrun |]. split; [exact Hst |].
    vm_compute. reflexivity.
Defined.

(** Nine allocations on the sample process fill page 0 slot by slot and
    then open page 1. *)
Example nine_allocations :
  (Sample.allocations 9 Sample.system).1 =
    [0x40000000; 0x40000200; 0x40000400; 0x40000600; 0x40000800;
     0x40000A00; 0x40000C00; 0x40000E00; 0x40001000] /\
  tls_slots (this (Sample.allocations 9 Sample.system).2) = [255; 1].
Proof. split; vm_compute; reflexivity. Qed.

(** After that, freeing slot 3 of page 0 makes it the next one handed out. *)
Example freed_slot_is_reused :
  exists s1 s2 thread',
    FreeTLSSlot (Decl := Sample.decl) (VMOps := Sample.vm_ops) 0x40000600
      (Sample.allocations 9 Sample.system).2 = Done tt s1 /\
    tls_slots (this s1) = [247; 1] /\
    MarkNextAvailableTLSSlotAsUsed (Decl := Sample.decl) (VMOps := Sample.vm_ops)
      (Sample.thread 14 1 ThreadStatus.Dormant) s1 = Done (0x40000600, thread') s2 /\
    tls_slots (this s2) = [255; 1].
Proof.
  eexists _, _, _. split; [vm_compute; reflexivity |].
  split; [vm_compute; reflexivity |].
  split; vm_compute; reflexivity.
Qed.

(** * Further properties *)

(** ** Capability parsing as a whole *)

Section CapabilityRule.
Context {Decl : Declarations} {VM : Type}.
Variable R : System VM -> System VM -> Prop.
Hypothesis R_refl : forall s, R s s.
Hypothesis R_trans : forall s1 s2 s3, R s1 s2 -> R s2 s3 -> R s1 s3.
Hypothesis R_log : forall s level message, R s (with_event (LOG level message) s).
Hypothesis R_svc : forall s w,
  R s (with_this
         (set_svc_access_mask
            (svc_mask_loop 32 (Z.land w 0xFFFFFF) (Z.land (w ≫ 24) 7 * 24)
               (svc_access_mask (this s))) (this s)) s).
Hypothesis R_handle : forall s w,
  R s (with_this (set_handle_table_size (Z.land w 0x3FF) (this s)) s).
Hypothesis R_flags : forall s w,
  R s (with_this (set_flags_raw (Z.land w 0xFFFF) (this s)) s).
Hypothesis R_range : forall s w next,
  R s (with_this
         (set_address_mappings (address_mappings (this s) ++ [range_mapping w next])
            (this s)) s).
Hypothesis R_page : forall s w,
  R s (with_this
         (set_address_mappings (address_mappings (this s) ++ [page_mapping w])
            (this s)) s).
Hypothesis R_version : forall s w,
  R s (with_this (set_kernel_version (Z.land w 0xFFFF) (this s)) s).

(** A relation that every step of the parser respects holds between
    the system before and after parsing, and parsing completes. *)
Lemma ParseKernelCaps_rule (kernel_caps : list Z) :
  forall s, exists s', ParseKernelCaps kernel_caps s = Done tt s' /\ R s s'.
Proof.
  remember (length kernel_caps) as n eqn:Hn.
  assert (Hle : (length kernel_caps <= n)%nat) by lia. clear Hn.
  revert kernel_caps Hle. induction n as [| n IH]; intros [| w rest] Hle s;
    cbn in Hle; try lia; try (exists s; by split).
  assert (Hrest : forall s0, R s s0 ->
            exists s', ParseKernelCaps rest s0 = Done tt s' /\ R s s').
  { intros s0 H0. destruct (IH rest ltac:(lia) s0) as (s' & Hrun & HR).
    exists s'. split; [done | by eapply R_trans]. }
  cbn [ParseKernelCaps].
  unfold LOG_INFO, LOG_WARNING, LOG_ERROR, bind, emit, modify_this.
  destruct (w =? 0xFFFFFFFF); [by apply Hrest |].
  destruct (Z.land (w ≫ 20) 0xF00 =? 0xE00); [by apply Hrest |].
  destruct (Z.land (w ≫ 20) 0xF80 =? 0xF00); [by apply Hrest |].
  destruct (Z.land (w ≫ 20) 0xFF0 =? 0xFE0); [by apply Hrest |].
  destruct (Z.land (w ≫ 20) 0xFF8 =? 0xFF0); [by apply Hrest |].
  destruct (Z.land (w ≫ 20) 0xFFE =? 0xFF8).
  { destruct rest as [| end_desc rest']; [by apply Hrest |].
    destruct (negb _); [by apply Hrest |].
    destruct (IH rest' ltac:(cbn in Hle; lia)
                (with_this
                   (set_address_mappings
                      (address_mappings (this s) ++ [range_mapping w end_desc])
                      (this s)) s)) as (s' & Hrun & HR).
    exists s'. split; [exact Hrun |]. eapply R_trans; [apply R_range | exact HR]. }
  destruct (Z.land (w ≫ 20) 0xFFF =? 0xFFE); [apply Hrest; apply (R_page s w) |].
  destruct (Z.land (w ≫ 20) 0xFE0 =? 0xFC0); [| by apply Hrest].
  apply Hrest. eapply R_trans; [apply R_version | apply R_log].
Qed.

End CapabilityRule.

(** Setting a field to the value it has changes nothing. *)
Lemma set_svc_access_mask_same {VM : Type} (s : System VM) :
  with_this (set_svc_access_mask (svc_access_mask (this s)) (this s)) s = s.
Proof. destruct s as [[] ? ? ?]. reflexivity. Qed.

Lemma land_le (a b : Z) : 0 <= a -> Z.land a b <= a.
Proof.
  intros Ha.
  assert (Hsplit : Z.ldiff a b + Z.land a b = a).
  { rewrite Z.add_nocarry_lor; [apply Z.lor_ldiff_and |].
    apply Z.bits_inj'. intros i Hi.
    rewrite !Z.land_spec, Z.ldiff_spec, Z.bits_0.
    destruct (Z.testbit a i), (Z.testbit b i); reflexivity. }
  assert (0 <= Z.ldiff a b) by (apply Z.ldiff_nonneg; by left).
  lia.
Qed.

Lemma land_low_mask (w n : Z) :
  0 <= n -> 0 <= Z.land w (Z.ones n) < 2 ^ n.
Proof.
  intros Hn. rewrite Z.land_ones by done. apply Z.mod_pos_bound.
  by apply Z.pow_pos_nonneg.
Qed.

(** [w << 12] in 32 bits is a multiple of 4 KiB below 4 GiB. *)
Lemma shl32_12_aligned (w : Z) :
  0 <= shl32 w 12 < 2 ^ 32 /\ shl32 w 12 `mod` 0x1000 = 0.
Proof.
  unfold shl32, wrap32. rewrite Z.shiftl_mul_pow2 by lia.
  change (2 ^ 32) with (2 ^ 20 * 2 ^ 12). rewrite Zmult_mod_distr_r.
  pose proof (Z.mod_pos_bound w (2 ^ 20) ltac:(lia)).
  split; [lia |]. change 0x1000 with (2 ^ 12). apply Z.mod_mul. lia.
Qed.

Lemma range_mapping_aligned {Decl : Declarations} (w next : Z) :
  aligned_mapping (range_mapping w next).
Proof.
  destruct (shl32_12_aligned w) as [Hw Hwa], (shl32_12_aligned next) as [Hn Hna].
  unfold aligned_mapping, range_mapping. cbn.
  split; [done |]. split; [done |]. right.
  destruct (shl32 w 12 <? shl32 next 12) eqn:Hlt; [| split; [lia | split; [done | lia]]].
  split; [lia |]. split; [| lia].
  rewrite Zminus_mod, Hna, Hwa. reflexivity.
Qed.

Lemma page_mapping_aligned {Decl : Declarations} (w : Z) :
  aligned_mapping (page_mapping w).
Proof.
  destruct (shl32_12_aligned w) as [Hw Hwa].
  unfold aligned_mapping, page_mapping. cbn. split; [done |]. split; [done |]. by left.
Qed.

(** Deciding the type test of one kind from the type test of another:
    the masks are nested, so one of the two tests settles the other. *)
Ltac other_kind Hty :=
  apply Z.eqb_neq;
  match goal with
  | |- Z.land ?t ?m' <> ?p' =>
      match type of Hty with
      | Z.land t ?m = ?p =>
          first
            [ rewrite (land_submask t m m') by reflexivity; rewrite Hty; discriminate
            | let H := fresh in
              intros H; rewrite (land_submask t m' m) in Hty by reflexivity;
              rewrite H in Hty; discriminate Hty ]
      end
  end.

Section CapabilitiesMore.
Context {Decl : Declarations} {VM : Type}.

(** X1. [ParseKernelCaps] completes on every array. It appends only log
    entries to the requests, leaves the thread lists and the current
    thread alone, and in the process changes nothing but the five
    capability fields, of which [address_mappings] only grows at its
    end. *)
Theorem ParseKernelCaps_completes (kernel_caps : list Z) (s : System VM) :
  exists s' logs,
    ParseKernelCaps kernel_caps s = Done tt s' /\
    events s' = events s ++ logs /\ forallb is_log logs = true /\
    Scheduler_GetThreadList s' = Scheduler_GetThreadList s /\
    GetCurrentThread s' = GetCurrentThread s /\
    capabilities_only (this s) (this s').
Proof.
  pose (R := fun s s' : System VM =>
    (exists logs, events s' = events s ++ logs /\ forallb is_log logs = true) /\
    Scheduler_GetThreadList s' = Scheduler_GetThreadList s /\
    GetCurrentThread s' = GetCurrentThread s /\
    capabilities_only (this s) (this s')).
  assert (Hfield : forall s0 (p : Process VM),
            capabilities_only (this s0) p -> R s0 (with_this p s0)).
  { intros s0 p Hp. split; [exists []; by rewrite app_nil_r |].
    split; [reflexivity | split; [reflexivity | exact Hp]]. }
  destruct (ParseKernelCaps_rule R) with (kernel_caps := kernel_caps) (s := s)
    as (s' & Hrun & (logs & Hev & Hlogs) & Hlists & Hcur & Hcaps).
  - intros s0. split; [exists []; by rewrite app_nil_r |].
    repeat split. exists []. by rewrite app_nil_r.
  - intros s1 s2 s3 ((l1 & E1 & L1) & S1 & C1 & P1) ((l2 & E2 & L2) & S2 & C2 & P2).
    split; [exists (l1 ++ l2); split;
              [by rewrite E2, E1, app_assoc | by rewrite forallb_app, L1, L2] |].
    split; [congruence |]. split; [congruence |].
    unfold capabilities_only in *.
    destruct P1 as (? & ? & ? & ? & ? & ? & ? & ? & ? & ? & ? & a1 & A1).
    destruct P2 as (? & ? & ? & ? & ? & ? & ? & ? & ? & ? & ? & a2 & A2).
    repeat split; try congruence.
    exists (a1 ++ a2). by rewrite A2, A1, app_assoc.
  - intros s0 level message. split; [by exists [LOG level message] |].
    repeat split. exists []. by rewrite app_nil_r.
  - intros s0 w. apply Hfield. repeat split. exists []. by rewrite app_nil_r.
  - intros s0 w. apply Hfield. repeat split. exists []. by rewrite app_nil_r.
  - intros s0 w. apply Hfield. repeat split. exists []. by rewrite app_nil_r.
  - intros s0 w next. apply Hfield. repeat split. by eexists.
  - intros s0 w. apply Hfield. repeat split. by eexists.
  - intros s0 w. apply Hfield. repeat split. exists []. by rewrite app_nil_r.
  - by exists s', logs.
Qed.

(** X2. Every mapping [ParseKernelCaps] appends starts on a 4 KiB
    boundary below 4 GiB; it is either one read-write page or a range
    of whole 4 KiB units that ends below 4 GiB. *)
Theorem ParseKernelCaps_mappings_aligned (kernel_caps : list Z) (s : System VM) :
  exists s' added,
    ParseKernelCaps kernel_caps s = Done tt s' /\
    address_mappings (this s') = address_mappings (this s) ++ added /\
    Forall aligned_mapping added.
Proof.
  pose (R := fun s s' : System VM =>
    exists added,
      address_mappings (this s') = address_mappings (this s) ++ added /\
      Forall aligned_mapping added).
  assert (Hsame : forall s0 s1 : System VM,
            address_mappings (this s1) = address_mappings (this s0) -> R s0 s1).
  { intros s0 s1 H. exists []. by rewrite app_nil_r. }
  destruct (ParseKernelCaps_rule R) with (kernel_caps := kernel_caps) (s := s)
    as (s' & Hrun & added & Hadd & Hal); try (intros; by apply Hsame).
  - intros s1 s2 s3 (a1 & A1 & F1) (a2 & A2 & F2).
    exists (a1 ++ a2). split; [by rewrite A2, A1, app_assoc | by apply Forall_app].
  - intros s0 w next. eexists. split; [reflexivity |].
    constructor; [apply range_mapping_aligned | constructor].
  - intros s0 w. eexists. split; [reflexivity |].
    constructor; [apply page_mapping_aligned | constructor].
  - by exists s', added.
Qed.

(** X3. After parsing, the handle table size is the one before or
    below [0x400], and the flags and the kernel version are the ones
    before or below [0x10000]. *)
Theorem ParseKernelCaps_field_bounds (kernel_caps : list Z) (s : System VM) :
  exists s',
    ParseKernelCaps kernel_caps s = Done tt s' /\
    (handle_table_size (this s') = handle_table_size (this s) \/
     0 <= handle_table_size (this s') < 0x400) /\
    (flags_raw (this s') = flags_raw (this s) \/ 0 <= flags_raw (this s') < 0x10000) /\
    (kernel_version (this s') = kernel_version (this s) \/
     0 <= kernel_version (this s') < 0x10000).
Proof.
  pose (R := fun s s' : System VM =>
    (handle_table_size (this s') = handle_table_size (this s) \/
     0 <= handle_table_size (this s') < 0x400) /\
    (flags_raw (this s') = flags_raw (this s) \/ 0 <= flags_raw (this s') < 0x10000) /\
    (kernel_version (this s') = kernel_version (this s) \/
     0 <= kernel_version (this s') < 0x10000)).
  destruct (ParseKernelCaps_rule R) with (kernel_caps := kernel_caps) (s := s)
    as (s' & Hrun & HR); try (intros; split; [| split]; by left).
  - intros s1 s2 s3 (H1 & F1 & K1) (H2 & F2 & K2).
    split; [| split].
    + destruct H2 as [-> | ?]; [exact H1 | by right].
    + destruct F2 as [-> | ?]; [exact F1 | by right].
    + destruct K2 as [-> | ?]; [exact K1 | by right].
  - intros s0 w. split; [right; apply (land_low_mask w 10); lia |]. split; by left.
  - intros s0 w. split; [by left |].
    split; [right; apply (land_low_mask w 16); lia | by left].
  - intros s0 w. split; [by left |].
    split; [by left | right; apply (land_low_mask w 16); lia].
  - by exists s'.
Qed.

End CapabilitiesMore.

(** Settling the tests of the chain for a word of a known kind. *)
Ltac reach_branch Hty :=
  cbn [ParseKernelCaps];
  match goal with
  | |- context [?w =? 0xFFFFFFFF] =>
      replace (w =? 0xFFFFFFFF) with false
        by (symmetry; apply Z.eqb_neq; intros ->; discriminate Hty)
  end;
  repeat match goal with
         | |- context [Z.land (?w ≫ 20) ?m =? ?p] =>
             replace (Z.land (w ≫ 20) m =? p) with false by (symmetry; other_kind Hty)
         end;
  rewrite Hty, Z.eqb_refl; cbv beta iota.

Section DescriptorKinds.
Context {Decl : Declarations} {VM : Type}.

(** X4. The kind of a descriptor is decided by its own type test alone,
    wherever the test stands in the chain. An interrupt-list word only
    logs a warning; a handle-table word stores its low 10 bits, a flags
    word and a kernel-version word their low 16 bits (the latter also
    logs); a memory-page word appends one read-write mapping of
    [PAGE_SIZE] bytes at [w << 12]. Nothing else changes, and parsing
    goes on with the next word. *)
Theorem descriptor_kinds (w : Z) (rest : list Z) (s : System VM) :
  (has_type 0xF00 0xE00 w ->
     ParseKernelCaps (w :: rest) s =
       ParseKernelCaps rest
         (with_event (LOG LogWarning "ExHeader allowed interrupts list ignored") s)) /\
  (has_type 0xFF0 0xFE0 w ->
     ParseKernelCaps (w :: rest) s =
       ParseKernelCaps rest
         (with_this (set_handle_table_size (Z.land w 0x3FF) (this s)) s)) /\
  (has_type 0xFF8 0xFF0 w ->
     ParseKernelCaps (w :: rest) s =
       ParseKernelCaps rest (with_this (set_flags_raw (Z.land w 0xFFFF) (this s)) s)) /\
  (has_type 0xFFF 0xFFE w ->
     ParseKernelCaps (w :: rest) s =
       ParseKernelCaps rest
         (with_this
            (set_address_mappings (address_mappings (this s) ++ [page_mapping w])
               (this s)) s)) /\
  (has_type 0xFE0 0xFC0 w ->
     ParseKernelCaps (w :: rest) s =
       ParseKernelCaps rest
         (with_event (LOG LogInfo "ExHeader kernel version: {}.{}")
            (with_this (set_kernel_version (Z.land w 0xFFFF) (this s)) s))).
Proof.
  unfold has_type.
  split; [| split; [| split; [| split]]]; intros Hty; by reach_branch Hty.
Qed.

(** X5. Unused entries ([0xFFFFFFFF]) are skipped: a run of them in
    front of an array parses like the array alone, and an array of
    nothing else (the empty array too) leaves the system as it is. As a
    partner of a memory-range word an unused entry counts as missing. *)
Theorem unused_entries_skipped (n : nat) (rest : list Z) (s : System VM) :
  ParseKernelCaps (replicate n 0xFFFFFFFF ++ rest) s = ParseKernelCaps rest s /\
  ParseKernelCaps (replicate n 0xFFFFFFFF) s = Done tt s /\
  (forall w, has_type 0xFFE 0xFF8 w ->
     ParseKernelCaps (w :: 0xFFFFFFFF :: rest) s =
       ParseKernelCaps rest (with_event incomplete_range s)).
Proof.
  assert (Hskip : forall l,
            ParseKernelCaps (replicate n 0xFFFFFFFF ++ l) s = ParseKernelCaps l s).
  { intros l. induction n as [| n IH]; [done | exact IH]. }
  split; [apply Hskip |]. split.
  - rewrite <- (app_nil_r (replicate n _)). by rewrite Hskip.
  - intros w Hty. unfold has_type in Hty.
    destruct (memory_range_earlier_branches w Hty) as (H0 & H1 & H2 & H3 & H4).
    remember (0xFFFFFFFF :: rest) as tail eqn:Htail.
    cbn [ParseKernelCaps]. rewrite H0, H1, H2, H3, H4, Hty.
    destruct tail as [| next rest']; [discriminate |].
    injection Htail as -> ->. reflexivity.
Qed.

(** X6. A word below [0xE0000000] is of no known kind: an error is
    logged, nothing else changes, and parsing goes on. *)
Theorem low_words_unhandled (w : Z) (rest : list Z) (s : System VM) :
  0 <= w < 0xE0000000 ->
  ParseKernelCaps (w :: rest) s =
    ParseKernelCaps rest
      (with_event (LOG LogError "Unhandled kernel caps descriptor: 0x{:08X}") s).
Proof.
  intros Hw.
  assert (Ht : 0 <= w ≫ 20 < 0xE00).
  { rewrite Z.shiftr_div_pow2 by lia. split; [apply Z.div_pos; lia |].
    apply Z.div_lt_upper_bound; lia. }
  assert (Hnone : forall m p,
            Z.land 0xE00 m = 0xE00 -> Z.land p 0xE00 = 0xE00 ->
            (Z.land (w ≫ 20) m =? p) = false).
  { intros m p Hm Hp. apply Z.eqb_neq. intros H.
    pose proof (land_le (w ≫ 20) 0xE00 ltac:(lia)) as Hle.
    rewrite (land_submask _ m 0xE00) in Hle by (rewrite Z.land_comm; exact Hm).
    rewrite H, Hp in Hle. lia. }
  cbn [ParseKernelCaps].
  replace (w =? 0xFFFFFFFF) with false by lia.
  rewrite !Hnone by reflexivity. reflexivity.
Qed.

(** X7. An array can be parsed in two parts, provided the second part
    does not begin with a memory-range word (which could be the partner
    of the last word of the first part). *)
Theorem ParseKernelCaps_app (l1 l2 : list Z) (s : System VM) :
  match l2 with
  | [] => True
  | w :: _ => ~ has_type 0xFFE 0xFF8 w
  end ->
  ParseKernelCaps (l1 ++ l2) s =
    bind (ParseKernelCaps l1) (fun _ => ParseKernelCaps l2) s.
Proof.
  intros Hhead.
  remember (length l1) as n eqn:Hn.
  assert (Hle : (length l1 <= n)%nat) by lia. clear Hn.
  revert l1 Hle s. induction n as [| n IH]; intros [| w rest] Hle s;
    cbn in Hle; try lia; try reflexivity.
  assert (Hrest : forall s0,
            ParseKernelCaps (rest ++ l2) s0 =
              bind (ParseKernelCaps rest) (fun _ => ParseKernelCaps l2) s0)
    by (intros; apply IH; lia).
  change ((w :: rest) ++ l2) with (w :: (rest ++ l2)).
  remember (rest ++ l2) as tail eqn:Htail.
  cbn [ParseKernelCaps].
  unfold LOG_INFO, LOG_WARNING, LOG_ERROR, emit, modify_this.
  unfold bind at 1 2 3 4 5 6 7 8 9 10. unfold bind in Hrest.
  destruct (w =? 0xFFFFFFFF); [apply Hrest |].
  destruct (Z.land (w ≫ 20) 0xF00 =? 0xE00); [apply Hrest |].
  destruct (Z.land (w ≫ 20) 0xF80 =? 0xF00); [apply Hrest |].
  destruct (Z.land (w ≫ 20) 0xFF0 =? 0xFE0); [apply Hrest |].
  destruct (Z.land (w ≫ 20) 0xFF8 =? 0xFF0); [apply Hrest |].
  destruct (Z.land (w ≫ 20) 0xFFE =? 0xFF8).
  2: { destruct (Z.land (w ≫ 20) 0xFFF =? 0xFFE); [apply Hrest |].
       destruct (Z.land (w ≫ 20) 0xFE0 =? 0xFC0); apply Hrest. }
  destruct rest as [| end_desc rest'].
  - cbn [app] in Htail. subst tail. cbv beta iota.
    destruct l2 as [| h t]; [reflexivity |].
    unfold has_type in Hhead.
    replace (Z.land (h ≫ 20) 0xFFE =? 0xFF8) with false by lia.
    reflexivity.
  - cbn [app] in Htail. subst tail. cbv beta iota.
    destruct (negb _); [apply Hrest |].
    unfold bind. rewrite (IH rest') by (cbn in Hle; lia). reflexivity.
Qed.

(** X8. A syscall-mask word whose field is zero, or whose group starts
    beyond the mask, changes nothing. *)
Theorem empty_syscall_mask_descriptor (w : Z) (rest : list Z) (s : System VM) :
  has_type 0xF80 0xF00 w ->
  Z.land w 0xFFFFFF = 0 \/ SVC_ACCESS_MASK_SIZE <= Z.land (w ≫ 24) 7 * 24 ->
  ParseKernelCaps (w :: rest) s = ParseKernelCaps rest s.
Proof.
  intros Hty Hempty. rewrite syscall_mask_branch by exact Hty.
  assert (svc_mask_loop 32 (Z.land w 0xFFFFFF) (Z.land (w ≫ 24) 7 * 24)
            (svc_access_mask (this s)) = svc_access_mask (this s)) as ->.
  { destruct Hempty as [-> | Hout]; [reflexivity |].
    cbn [svc_mask_loop].
    replace (Z.land (w ≫ 24) 7 * 24 <? SVC_ACCESS_MASK_SIZE) with false by lia.
    by rewrite andb_false_r. }
  by rewrite set_svc_access_mask_same.
Qed.

End DescriptorKinds.

(** ** More on the TLS slot allocator *)

Lemma filter_length_flip (f g : Z -> bool) (l : list Z) (x : Z) :
  NoDup l -> x ∈ l -> f x = false -> g x = true ->
  (forall y, y <> x -> g y = f y) ->
  length (List.filter g l) = S (length (List.filter f l)).
Proof.
  intros Hnd Hin Hf Hg Hother. induction l as [| a l IH]; [by apply elem_of_nil in Hin |].
  apply list.NoDup_cons in Hnd as [Hnotin Hnd]. cbn [List.filter].
  destruct (decide (a = x)) as [-> | Hne].
  - rewrite Hf, Hg. cbn. f_equal. f_equal.
    clear IH Hin. induction l as [| b l IHl]; [done |].
    apply not_elem_of_cons in Hnotin as [Hbx Hnotin].
    apply list.NoDup_cons in Hnd as [_ Hnd]. cbn.
    rewrite (Hother b) by done. destruct (f b); [f_equal |]; by apply IHl.
  - apply elem_of_cons in Hin as [-> | Hin]; [done |].
    rewrite (Hother a Hne). destruct (f a); cbn; [f_equal |]; by apply IH.
Qed.

Lemma page_occupied_set (b slot : Z) :
  0 <= slot < 8 -> Z.testbit b slot = false ->
  page_occupied (bitset_set b slot) = S (page_occupied b).
Proof.
  intros Hslot Hfree. unfold page_occupied, bitset_set.
  apply (filter_length_flip _ _ _ slot); [apply NoDup_seqZ | | done | |].
  - apply elem_of_seqZ. lia.
  - apply Z.setbit_eq. lia.
  - intros y Hy. apply Z.setbit_neq; [lia | done].
Qed.

Lemma page_occupied_reset (b slot : Z) :
  slot < 8 -> Z.testbit b slot = true ->
  S (page_occupied (bitset_reset b slot)) = page_occupied b.
Proof.
  intros Hslot Hused. unfold page_occupied, bitset_reset.
  assert (0 <= slot).
  { destruct (Z.le_gt_cases 0 slot); [done |].
    rewrite Z.testbit_neg_r in Hused by lia. discriminate. }
  symmetry. apply (filter_length_flip _ _ _ slot); [apply NoDup_seqZ | | | done |].
  - apply elem_of_seqZ. lia.
  - apply Z.clearbit_eq.
  - intros y Hy. symmetry. by apply Z.clearbit_neq.
Qed.

Lemma bitset_reset_free (b slot : Z) :
  Z.testbit b slot = false -> bitset_reset b slot = b.
Proof.
  intros Hfree. apply Z.bits_inj'. intros i Hi. unfold bitset_reset.
  rewrite Z.clearbit_eqb. destruct (Z.eqb_spec slot i) as [<- | ?]; cbn.
  - by rewrite Hfree.
  - apply andb_true_r.
Qed.

Lemma occupied_snoc (pages : list Z) (b : Z) :
  occupied (pages ++ [b]) = (occupied pages + page_occupied b)%nat.
Proof. unfold occupied. induction pages as [| a l IH]; cbn; [lia |]. rewrite IH. lia. Qed.

Lemma occupied_insert (pages : list Z) (i : nat) (b b' : Z) :
  pages !! i = Some b ->
  (occupied (<[i := b']> pages) + page_occupied b = occupied pages + page_occupied b')%nat.
Proof.
  unfold occupied. revert i.
  induction pages as [| a l IH]; intros [| i] Hb; try discriminate.
  - injection Hb as ->. change (<[0%nat := b']> (b :: l)) with (b' :: l).
    cbn [foldr]. lia.
  - change (<[S i := b']> (a :: l)) with (a :: <[i := b']> l).
    cbn [foldr]. specialize (IH i Hb). lia.
Qed.

Section TlsMore.
Context {Decl : Declarations} {VM : Type} {VMOps : VMManagerOps VM}.

(** What a completed [FreeTLSSlot] did. *)
Lemma FreeTLSSlot_done (tls_address : VAddr) (s s' : System VM) :
  FreeTLSSlot tls_address s = Done tt s' ->
  let tls_base :=
    wrap64 (tls_address - vm_GetTLSIORegionBaseAddress (vm_manager (this s))) in
  let page := Z.to_nat (tls_base / PAGE_SIZE) in
  let slot := (tls_base `mod` PAGE_SIZE) / TLS_ENTRY_SIZE in
  exists b,
    tls_slots (this s) !! page = Some b /\ slot < TLS_PAGE_SLOTS /\
    s' = with_this (set_tls_slots (<[page := bitset_reset b slot]> (tls_slots (this s)))
                      (this s)) s.
Proof.
  intros Hrun tls_base page slot.
  change (FreeTLSSlot tls_address s)
    with (update_tls_page (tls_base / PAGE_SIZE) (fun b => page_reset b slot) s) in Hrun.
  unfold update_tls_page, page_reset, bind, get_this, modify_this, ret, abort in Hrun.
  fold page in Hrun.
  destruct (tls_slots (this s) !! page) as [b |] eqn:Hb; [| discriminate].
  destruct (slot <? TLS_PAGE_SLOTS) eqn:Hslot; [| discriminate].
  injection Hrun as <-. exists b. split; [done |]. split; [lia | done].
Qed.

(** X9. Freeing twice is freeing once: a second [FreeTLSSlot] of the
    same address completes and leaves the system as the first one left
    it. *)
Theorem FreeTLSSlot_twice (tls_address : VAddr) (s s' : System VM) :
  FreeTLSSlot tls_address s = Done tt s' ->
  FreeTLSSlot tls_address s' = Done tt s'.
Proof.
  intros Hrun. destruct (FreeTLSSlot_done _ _ _ Hrun) as (b & Hb & Hslot & ->).
  unfold FreeTLSSlot, update_tls_page, page_reset. run_m.
  rewrite list_lookup_insert_eq by (by eapply lookup_lt_Some).
  replace (_ <? TLS_PAGE_SLOTS) with true by lia. cbn.
  rewrite list_insert_insert_eq.
  rewrite (bitset_reset_free (bitset_reset b _)) by apply Z.clearbit_eq.
  reflexivity.
Qed.

(** X10. Every allocation completes and raises the number of occupied
    slots by one. A completed free lowers it by one when the slot was
    occupied and leaves the system as it is otherwise; it never changes
    the number of pages. *)
Theorem occupied_slots_counted :
  (forall (thread : Thread) (s : System VM),
     exists tls_address thread' s',
       MarkNextAvailableTLSSlotAsUsed thread s = Done (tls_address, thread') s' /\
       occupied (tls_slots (this s')) = S (occupied (tls_slots (this s)))) /\
  (forall (tls_address : VAddr) (s s' : System VM),
     FreeTLSSlot tls_address s = Done tt s' ->
     length (tls_slots (this s')) = length (tls_slots (this s)) /\
     ((S (occupied (tls_slots (this s'))) = occupied (tls_slots (this s))) \/ s' = s)).
Proof.
  split.
  - intros thread s.
    destruct (MarkNextAvailableTLSSlotAsUsed_chosen thread s)
      as (page & slot & thread' & s' & Hrun & Hslot &
          [(b & Hb & Hfree & Htls & _) | (-> & -> & Htls & _)]).
    + eexists _, thread', s'. split; [exact Hrun |]. rewrite Htls.
      pose proof (occupied_insert _ _ _ (bitset_set b slot) Hb) as Hcount.
      rewrite page_occupied_set in Hcount by done. lia.
    + eexists _, thread', s'. split; [exact Hrun |]. rewrite Htls, occupied_snoc.
      change (page_occupied 1) with 1%nat. lia.
  - intros tls_address s s' Hrun.
    destruct (FreeTLSSlot_done _ _ _ Hrun) as (b & Hb & Hslot & ->).
    set (slot := (wrap64 (tls_address
                   - vm_GetTLSIORegionBaseAddress (vm_manager (this s)))
                   `mod` PAGE_SIZE) / TLS_ENTRY_SIZE) in *.
    cbn [this with_this tls_slots set_tls_slots].
    split; [apply length_insert |].
    destruct (Z.testbit b slot) eqn:Hused.
    + left. pose proof (occupied_insert _ _ _ (bitset_reset b slot) Hb) as Hcount.
      rewrite <- (page_occupied_reset b slot Hslot Hused) in Hcount. lia.
    + right. rewrite bitset_reset_free by done.
      rewrite list_insert_id by done.
      destruct s as [[] ? ? ?]. reflexivity.
Qed.

End TlsMore.

Section TlsAddresses.
Context {Decl : Declarations} {VM : Type} {VMOps : VMManagerOps VM}.

(** An address inside the entry of (page, slot) leads back to (page, slot). *)
Lemma tls_address_inverse_inside (base page slot d : Z) :
  0 < TLS_ENTRY_SIZE -> TLS_PAGE_SLOTS * TLS_ENTRY_SIZE <= PAGE_SIZE ->
  0 <= page -> 0 <= slot < TLS_PAGE_SLOTS -> 0 <= d < TLS_ENTRY_SIZE ->
  (page + 1) * PAGE_SIZE <= 2 ^ 64 ->
  let tls_base :=
    wrap64 (wrap64 (base + page * PAGE_SIZE + slot * TLS_ENTRY_SIZE + d) - base) in
  tls_base / PAGE_SIZE = page /\
  (tls_base `mod` PAGE_SIZE) / TLS_ENTRY_SIZE = slot.
Proof.
  intros Hentry Hfit Hpage Hslot Hd Hspace tls_base. unfold TLS_PAGE_SLOTS in *.
  assert (Hoff : 0 <= slot * TLS_ENTRY_SIZE + d < PAGE_SIZE) by nia.
  assert (tls_base = page * PAGE_SIZE + (slot * TLS_ENTRY_SIZE + d)) as ->.
  { subst tls_base. unfold wrap64. rewrite Zminus_mod_idemp_l.
    replace (base + page * PAGE_SIZE + slot * TLS_ENTRY_SIZE + d - base)
      with (page * PAGE_SIZE + (slot * TLS_ENTRY_SIZE + d)) by lia.
    apply Z.mod_small. nia. }
  split.
  - symmetry. apply (Z.div_unique _ _ _ (slot * TLS_ENTRY_SIZE + d)); lia.
  - replace ((page * PAGE_SIZE + (slot * TLS_ENTRY_SIZE + d)) `mod` PAGE_SIZE)
      with (slot * TLS_ENTRY_SIZE + d).
    + symmetry. apply (Z.div_unique _ _ _ d); lia.
    + apply (Z.mod_unique _ _ page); lia.
Qed.

Lemma FreeTLSSlot_unfold (tls_address : VAddr) (s : System VM) :
  FreeTLSSlot tls_address s =
    update_tls_page
      (wrap64 (tls_address - vm_GetTLSIORegionBaseAddress (vm_manager (this s)))
       / PAGE_SIZE)
      (fun b =>
         page_reset b
           ((wrap64 (tls_address - vm_GetTLSIORegionBaseAddress (vm_manager (this s)))
             `mod` PAGE_SIZE) / TLS_ENTRY_SIZE)) s.
Proof. reflexivity. Qed.

(** X11. An allocation never hands out an occupied slot: the address it
    returns differs from the address of every slot occupied before, and
    those slots are still occupied afterwards. *)
Theorem allocation_spares_occupied
    (thread : Thread) (s : System VM) (page : nat) (b slot : Z) :
  0 < TLS_ENTRY_SIZE -> TLS_PAGE_SLOTS * TLS_ENTRY_SIZE <= PAGE_SIZE ->
  (Z.of_nat (length (tls_slots (this s))) + 1) * PAGE_SIZE <= 2 ^ 64 ->
  tls_slots (this s) !! page = Some b ->
  0 <= slot < TLS_PAGE_SLOTS -> bitset_test b slot = true ->
  exists tls_address thread' s' b',
    MarkNextAvailableTLSSlotAsUsed thread s = Done (tls_address, thread') s' /\
    tls_address <>
      wrap64 (vm_GetTLSIORegionBaseAddress (vm_manager (this s))
              + Z.of_nat page * PAGE_SIZE + slot * TLS_ENTRY_SIZE) /\
    tls_slots (this s') !! page = Some b' /\ bitset_test b' slot = true.
Proof.
  intros Hentry Hfit Hspace Hb Hslot Hused. unfold bitset_test in *.
  pose proof (lookup_lt_Some _ _ _ Hb) as Hlen.
  assert (Hps : 0 <= PAGE_SIZE) by (unfold TLS_PAGE_SLOTS in *; lia).
  destruct (MarkNextAvailableTLSSlotAsUsed_chosen thread s)
    as (page2 & slot2 & thread' & s' & Hrun & Hslot2 & Hcase).
  assert (Hpage2 : (page2 <= length (tls_slots (this s)))%nat).
  { destruct Hcase as [(b0 & Hb0 & _) | (-> & _)]; [| done].
    apply lookup_lt_Some in Hb0. lia. }
  set (base := vm_GetTLSIORegionBaseAddress (vm_manager (this s))) in *.
  assert (Hdiff : wrap64 (base + Z.of_nat page2 * PAGE_SIZE + slot2 * TLS_ENTRY_SIZE) =
                  wrap64 (base + Z.of_nat page * PAGE_SIZE + slot * TLS_ENTRY_SIZE) ->
                  page2 = page /\ slot2 = slot).
  { intros Heq.
    destruct (tls_address_inverse base (Z.of_nat page2) slot2) as [Hp2 Hs2];
      try done; [lia | nia |].
    destruct (tls_address_inverse base (Z.of_nat page) slot) as [Hp Hs];
      try done; [lia | nia |].
    rewrite Heq in Hp2, Hs2. rewrite Hp in Hp2. rewrite Hs in Hs2. split; lia. }
  destruct Hcase as [(b0 & Hb0 & Hfree & Htls & _) | (-> & -> & Htls & _)].
  - destruct (decide (page2 = page)) as [-> | Hne].
    + assert (b0 = b) as -> by congruence.
      eexists _, thread', s', (bitset_set b slot2).
      split; [exact Hrun |]. split.
      * intros Heq. destruct (Hdiff Heq) as [_ ->]. congruence.
      * rewrite Htls. split; [by apply list_lookup_insert_eq |].
        unfold bitset_set. rewrite Z.setbit_eqb by lia. rewrite Hused. apply orb_true_r.
    + eexists _, thread', s', b. split; [exact Hrun |]. split.
      * intros Heq. by destruct (Hdiff Heq).
      * rewrite Htls. split; [by rewrite list_lookup_insert_ne | done].
  - eexists _, thread', s', b. split; [exact Hrun |]. split.
    + intros Heq. destruct (Hdiff Heq) as [Hp _]. lia.
    + rewrite Htls. split; [by apply lookup_app_l_Some | done].
Qed.

(** X12. [FreeTLSSlot] looks at the entry an address falls into, not at
    the offset inside it: every address of an entry frees the entry's
    slot like the entry's first address. *)
Theorem FreeTLSSlot_inside_entry (s : System VM) (page slot d : Z) :
  0 < TLS_ENTRY_SIZE -> TLS_PAGE_SLOTS * TLS_ENTRY_SIZE <= PAGE_SIZE ->
  0 <= page -> 0 <= slot < TLS_PAGE_SLOTS -> 0 <= d < TLS_ENTRY_SIZE ->
  (page + 1) * PAGE_SIZE <= 2 ^ 64 ->
  let base := vm_GetTLSIORegionBaseAddress (vm_manager (this s)) in
  FreeTLSSlot (wrap64 (base + page * PAGE_SIZE + slot * TLS_ENTRY_SIZE + d)) s =
  FreeTLSSlot (wrap64 (base + page * PAGE_SIZE + slot * TLS_ENTRY_SIZE)) s.
Proof.
  intros Hentry Hfit Hpage Hslot Hd Hspace base.
  destruct (tls_address_inverse_inside base page slot d) as [Hp Hs]; try done.
  destruct (tls_address_inverse base page slot) as [Hp0 Hs0]; try done.
  rewrite !FreeTLSSlot_unfold. fold base.
  by rewrite Hp, Hs, Hp0, Hs0.
Qed.

End TlsAddresses.

(** ** What the operations leave alone *)

Section Evolution.
Context {Decl : Declarations} {VM : Type} {VMOps : VMManagerOps VM}.
Variable R : Process VM -> Process VM -> Prop.
Hypothesis R_refl : forall p, R p p.
Hypothesis R_trans : forall p q r, R p q -> R q r -> R p r.

Lemma evolves_ret {A} (a : A) : evolves R (ret a).
Proof. intros s. apply R_refl. Qed.

Lemma evolves_abort {A} : evolves R (abort (A := A)).
Proof. intros s. apply R_refl. Qed.

Lemma evolves_get_this : evolves R get_this.
Proof. intros s. apply R_refl. Qed.

Lemma evolves_ask {A} (f : System VM -> A) : evolves R (ask f).
Proof. intros s. apply R_refl. Qed.

Lemma evolves_emit (e : Event) : evolves R (emit e).
Proof. intros s. apply R_refl. Qed.

Lemma evolves_modify_this (f : Process VM -> Process VM) :
  (forall p, R p (f p)) -> evolves R (modify_this f).
Proof. intros Hf s. apply Hf. Qed.

Lemma evolves_bind {A B} (m : M VM A) (k : A -> M VM B) :
  evolves R m -> (forall a, evolves R (k a)) -> evolves R (bind m k).
Proof.
  intros Hm Hk s. unfold bind. specialize (Hm s).
  destruct (m s) as [a s' | s']; cbn in Hm; [| done].
  eapply R_trans; [exact Hm | apply Hk].
Qed.

Lemma evolves_stop_threads (l : list Thread) : evolves R (stop_threads l).
Proof.
  intros s.
  destruct (stop_threads_spec l s) as (stopped & _ & [(_ & _ & ->) | (_ & ->)]);
    apply R_refl.
Qed.

(** A relation that allows the capability fields to change evolves
    under [ParseKernelCaps]. *)
Lemma evolves_ParseKernelCaps (kernel_caps : list Z) :
  (forall p v, R p (set_svc_access_mask v p)) ->
  (forall p v, R p (set_handle_table_size v p)) ->
  (forall p v, R p (set_flags_raw v p)) ->
  (forall p v, R p (set_address_mappings (address_mappings p ++ [v]) p)) ->
  (forall p v, R p (set_kernel_version v p)) ->
  evolves R (ParseKernelCaps kernel_caps).
Proof.
  intros Hsvc Hhandle Hflags Hmap Hversion s.
  destruct (ParseKernelCaps_rule (fun s s' => R (this s) (this s')))
    with (kernel_caps := kernel_caps) (s := s) as (s' & -> & HR);
    cbn; intros; eauto.
Qed.

(** From each operation to sequences of them. *)
Lemma evolves_calls (allowed : Operation -> bool) (ops : list Operation) :
  (forall op, allowed op = true -> evolves R (call op)) ->
  forallb allowed ops = true ->
  evolves R (calls ops).
Proof.
  intros Hop. induction ops as [| op rest IH]; intros Hall; [apply evolves_ret |].
  cbn in Hall. apply andb_prop in Hall as [Hhead Hrest].
  cbn [calls]. apply evolves_bind; [by apply Hop | intros _; by apply IH].
Qed.

End Evolution.

Ltac evolve R_refl R_trans side :=
  repeat first
    [ apply (evolves_ret _ R_refl) | apply (evolves_abort _ R_refl)
    | apply (evolves_get_this _ R_refl) | apply (evolves_ask _ R_refl)
    | apply (evolves_emit _ R_refl) | apply (evolves_stop_threads _ R_refl)
    | apply evolves_modify_this; intros ?; side
    | apply (evolves_bind _ R_trans); [| intros ?]
    | match goal with
      | |- evolves _ (match ?x with _ => _ end) => destruct x
      end ].

Ltac unfold_operations :=
  unfold discard, GetResourceLimit, ClearSignalState, LoadFromMetadata, Run,
    PrepareForTermination, MarkNextAvailableTLSSlotAsUsed, FreeTLSSlot, LoadModule,
    HeapAllocate, HeapFree, MirrorMemory, UnmapMemory, ShouldWait, Acquire,
    ChangeStatus, MapSegment, MapMemoryBlock, Reprotect, RefreshMemoryBlockMappings,
    UnmapRange, Unwrap, ASSERT_MSG, update_tls_page, page_set, page_reset,
    LOG_INFO, LOG_WARNING, LOG_ERROR.

Section Frames.
Context {Decl : Declarations} {VM : Type} {VMOps : VMManagerOps VM}.

Lemma same_identity_refl (p : Process VM) : same_identity p p.
Proof. by repeat split. Qed.

Lemma same_identity_trans (p q r : Process VM) :
  same_identity p q -> same_identity q r -> same_identity p r.
Proof. unfold same_identity. intros (? & ? & ? & ?) (? & ? & ? & ?). repeat split; congruence. Qed.

Lemma same_capabilities_refl (p : Process VM) : same_capabilities p p.
Proof. by repeat split. Qed.

Lemma same_capabilities_trans (p q r : Process VM) :
  same_capabilities p q -> same_capabilities q r -> same_capabilities p r.
Proof.
  unfold same_capabilities. intros (? & ? & ? & ? & ?) (? & ? & ? & ? & ?).
  repeat split; congruence.
Qed.

Lemma same_but_vm_manager_refl (p : Process VM) : same_but_vm_manager p p.
Proof. by destruct p. Qed.

Lemma same_but_vm_manager_trans (p q r : Process VM) :
  same_but_vm_manager p q -> same_but_vm_manager q r -> same_but_vm_manager p r.
Proof.
  unfold same_but_vm_manager. destruct p, q, r. cbn.
  intros [= -> -> -> -> -> -> -> -> -> -> -> -> -> -> ->]
         [= -> -> -> -> -> -> -> -> -> -> -> -> -> -> ->]. reflexivity.
Qed.

Lemma pages_kept_refl (p : Process VM) : pages_kept p p.
Proof. unfold pages_kept. lia. Qed.

Lemma pages_kept_trans (p q r : Process VM) :
  pages_kept p q -> pages_kept q r -> pages_kept p r.
Proof. unfold pages_kept. lia. Qed.

Ltac identity_side := by repeat split.
Ltac pages_side :=
  unfold pages_kept; cbn; rewrite ?length_app, ?length_insert; lia.

(** X13. The identity of the process is fixed: no sequence of
    operations, completed or aborted, changes [process_id], [name],
    [resource_limit] or [random_entropy]. *)
Theorem identity_is_immutable (ops : list Operation) (s : System VM) :
  same_identity (this s) (this (final_state (calls ops s))).
Proof.
  apply (evolves_calls same_identity same_identity_refl same_identity_trans
           (fun _ => true)); [| by apply forallb_forall].
  intros op _. destruct op; cbn [call];
    try (apply evolves_ParseKernelCaps;
           [apply same_identity_refl | apply same_identity_trans | ..];
           intros; identity_side);
    unfold_operations;
    evolve same_identity_refl same_identity_trans identity_side.
Qed.

(** X14. TLS pages are never removed: along every sequence of
    operations, completed or aborted, the number of pages does not
    decrease. *)
Theorem tls_pages_never_removed (ops : list Operation) (s : System VM) :
  (length (tls_slots (this s)) <=
   length (tls_slots (this (final_state (calls ops s)))))%nat.
Proof.
  apply (evolves_calls pages_kept pages_kept_refl pages_kept_trans
           (fun _ => true)); [| by apply forallb_forall].
  intros op _. destruct op; cbn [call];
    try (apply evolves_ParseKernelCaps;
           [apply pages_kept_refl | apply pages_kept_trans | ..];
           intros; pages_side);
    unfold_operations;
    evolve pages_kept_refl pages_kept_trans pages_side.
Qed.

(** X15. The capability fields ([svc_access_mask], [handle_table_size],
    the flags, [address_mappings], [kernel_version]) change only in
    [ParseKernelCaps]: a sequence of other operations leaves them as
    they are. *)
Theorem capabilities_change_only_by_parsing (ops : list Operation) (s : System VM) :
  forallb (fun op => negb (is_parse op)) ops = true ->
  same_capabilities (this s) (this (final_state (calls ops s))).
Proof.
  intros Hops.
  apply (evolves_calls same_capabilities same_capabilities_refl same_capabilities_trans
           (fun op => negb (is_parse op))); [| exact Hops].
  intros op Hop. destruct op; try discriminate Hop; cbn [call];
    unfold_operations;
    evolve same_capabilities_refl same_capabilities_trans identity_side.
Qed.

(** X16. [LoadModule] and the address-space facade ([HeapAllocate],
    [HeapFree], [MirrorMemory], [UnmapMemory]) change nothing in the
    process but [vm_manager], whatever the VM manager answers and
    whether or not the call aborts. *)
Theorem address_space_operations_frame (ops : list Operation) (s : System VM) :
  forallb is_address_space_op ops = true ->
  same_but_vm_manager (this s) (this (final_state (calls ops s))).
Proof.
  intros Hops.
  apply (evolves_calls same_but_vm_manager same_but_vm_manager_refl
           same_but_vm_manager_trans is_address_space_op); [| exact Hops].
  intros op Hop. destruct op; try discriminate Hop; cbn [call];
    unfold_operations;
    evolve same_but_vm_manager_refl same_but_vm_manager_trans
      ltac:(by destruct p).
Qed.

End Frames.

(** ** More on the life cycle and the signal *)

Section LifecycleMore.
Context {Decl : Declarations} {VM : Type} {VMOps : VMManagerOps VM}.

(** The system a completed [PrepareForTermination] leaves. *)
Lemma PrepareForTermination_done (s s' : System VM) :
  PrepareForTermination s = Done tt s' ->
  exists stopped,
    let s1 :=
      if decide (status (this s) = ProcessStatus.Exiting) then s
      else with_event WakeupAllWaitingThreads
             (with_this (set_is_signaled true
                           (set_status ProcessStatus.Exiting (this s))) s) in
    s' = with_event WakeupAllWaitingThreads
           (with_this (set_is_signaled true
                         (set_status ProcessStatus.Exited (this s1)))
              (with_events (stops stopped) s1)).
Proof.
  rewrite PrepareForTermination_run. unfold bind at 1. rewrite ChangeStatus_run.
  set (s1 := if decide _ then s else _).
  assert (Hs1 : status (this s1) = ProcessStatus.Exiting).
  { subst s1. by destruct (decide _). }
  replace (if decide (status (this s) = ProcessStatus.Exiting) then Done tt s
           else Done tt (with_event WakeupAllWaitingThreads
                           (with_this (set_is_signaled true
                              (set_status ProcessStatus.Exiting (this s))) s)))
    with (Done tt s1 : Outcome VM unit) by (subst s1; by destruct (decide _)).
  unfold bind.
  destruct (stop_threads_spec (all_thread_lists s) s1)
    as (stopped & _ & [(_ & _ & ->) | (_ & ->)]); [| discriminate].
  rewrite ChangeStatus_run. cbn [this with_events].
  rewrite decide_False by (rewrite Hs1; discriminate).
  intros [= <-]. by exists stopped.
Qed.

Lemma signal_kept_refl (p : Process VM) : signal_kept_when_exited p p.
Proof. by split. Qed.

Lemma signal_kept_trans (p q r : Process VM) :
  signal_kept_when_exited p q -> signal_kept_when_exited q r ->
  signal_kept_when_exited p r.
Proof.
  intros [Hst1 Hsig1] [Hst2 Hsig2]. split; [congruence |].
  intros Hexit. rewrite Hsig2 by congruence. by apply Hsig1.
Qed.

(** No operation but [Run] and [PrepareForTermination] takes the signal
    from an exited process. *)
Lemma signal_kept_call (op : Operation) :
  no_restart op = true -> evolves (VM := VM) signal_kept_when_exited (call op).
Proof.
  intros Hop. destruct op; try discriminate Hop; cbn [call].
  2: { intros s. unfold discard, ClearSignalState. run_m.
       destruct (decide (status (this s) = ProcessStatus.Exited)) as [Hexit | Hlive];
         cbn; [apply signal_kept_refl |].
       destruct (is_signaled (this s)); cbn; [| apply signal_kept_refl].
       by split. }
  3: { apply evolves_ParseKernelCaps;
         [apply signal_kept_refl | apply signal_kept_trans | ..]; intros; by split. }
  all: unfold_operations;
    evolve signal_kept_refl signal_kept_trans ltac:(by split).
Qed.

(** X17. Once [PrepareForTermination] has completed, the process stays
    exited and signaled through every sequence of operations that are
    neither [Run] nor [PrepareForTermination]: after it, waiting on the
    process does not block, [Acquire] completes, and [ClearSignalState]
    is refused and leaves the process as it is. A later [Run] that
    completes ends this: after it [ClearSignalState] succeeds. *)
Theorem exited_process_stays_signaled
    (thread : Thread) (ops : list Operation) (s s' : System VM) :
  PrepareForTermination s = Done tt s' ->
  forallb no_restart ops = true ->
  (let s1 := final_state (calls ops s') in
   status (this s1) = ProcessStatus.Exited /\ is_signaled (this s1) = true /\
   ShouldWait thread s1 = Done false s1 /\
   Acquire thread s1 = Done tt s1 /\
   exists s2, ClearSignalState s1 = Done ERR_INVALID_STATE s2 /\
              this s2 = this s1 /\ is_signaled (this s2) = true) /\
  (forall entry_point priority stack_size s1,
     Run entry_point priority stack_size s' = Done tt s1 ->
     exists s2, ClearSignalState s1 = Done RESULT_SUCCESS s2 /\
                status (this s2) = ProcessStatus.Running /\
                is_signaled (this s2) = false).
Proof.
  intros Hrun Hops.
  destruct (PrepareForTermination_done s s' Hrun) as (stopped & Hs').
  assert (Hexit : status (this s') = ProcessStatus.Exited /\ is_signaled (this s') = true)
    by (by rewrite Hs').
  destruct Hexit as [Hexit Hsignal]. clear Hs'. split.
  - intros s1.
    destruct (evolves_calls signal_kept_when_exited signal_kept_refl signal_kept_trans
                no_restart ops signal_kept_call Hops s') as [Hst Hsig].
    fold s1 in Hst, Hsig. rewrite Hexit in Hst. rewrite Hsig, Hsignal by exact Hexit.
    split; [exact Hst |]. split; [reflexivity |].
    assert (Hwait : ShouldWait thread s1 = Done false s1).
    { unfold ShouldWait. run_m. by rewrite Hsig, Hsignal by exact Hexit. }
    split; [exact Hwait |]. split.
    + unfold Acquire, ASSERT_MSG, bind. by rewrite Hwait.
    + unfold ClearSignalState. run_m. rewrite decide_True by exact Hst. cbn.
      eexists. split; [reflexivity |]. split; [reflexivity |].
      cbn [this with_event with_events]. by rewrite Hsig, Hsignal by exact Hexit.
  - intros entry_point priority stack_size s1.
    unfold Run, MapMemoryBlock, Unwrap, ChangeStatus. run_m.
    destruct (vm_MapMemoryBlock _ _ _ _ _ _) as [[h | c] vm']; cbn; [| discriminate].
    rewrite decide_False by (rewrite Hexit; discriminate). cbn.
    intros [= <-]. unfold ClearSignalState. run_m. by eexists.
Qed.

(** X18. A completed [PrepareForTermination] wakes the waiters twice,
    on entering [Exiting] and on entering [Exited], and once only when
    the process was in [Exiting] already. *)
Theorem PrepareForTermination_wakeups (s s' : System VM) :
  PrepareForTermination s = Done tt s' ->
  wakeups (events s') =
    (wakeups (events s)
     + if decide (status (this s) = ProcessStatus.Exiting) then 1 else 2)%nat.
Proof.
  intros Hrun. destruct (PrepareForTermination_done s s' Hrun) as (stopped & ->).
  destruct (decide (status (this s) = ProcessStatus.Exiting));
    cbn [events with_event with_events with_this this];
    rewrite !wakeups_app, wakeups_stops; unfold wakeups; cbn; lia.
Qed.

(** X19. [Run] maps a zero-filled stack of [stack_size] bytes that ends
    at the end of the TLS/IO region. If the mapping fails, the call
    aborts in [Unwrap]: no main thread is set up and only [vm_manager]
    may have changed. If it succeeds, the call completes: the layout is
    logged, the status is [Running], the waiters are woken and the
    process signaled unless it was running already, and last the main
    thread is requested. *)
Theorem Run_outcome (entry_point : VAddr) (priority stack_size : Z) (s : System VM) :
  let stack_end := vm_GetTLSIORegionEndAddress (vm_manager (this s)) in
  let target := wrap64 (stack_end - stack_size) in
  let stack := replicate (Z.to_nat stack_size) 0 in
  let mapped :=
    vm_MapMemoryBlock target stack 0 stack_size MemoryState.Mapped (vm_manager (this s)) in
  (0 <= stack_size <= stack_end -> stack_end < 2 ^ 64 ->
     target + stack_size = stack_end /\ Z.of_nat (length stack) = stack_size) /\
  match mapped.1 with
  | Failed _ =>
      Run entry_point priority stack_size s =
        Abort (with_events
                 [VmMapMemoryBlock target 0 stack_size MemoryState.Mapped;
                  LOG LogCritical "Tried to Unwrap empty ResultVal"]
                 (with_this (set_vm_manager mapped.2 (this s)) s))
  | Succeeded _ =>
      exists s',
        Run entry_point priority stack_size s = Done tt s' /\
        status (this s') = ProcessStatus.Running /\
        vm_manager (this s') = mapped.2 /\
        (if decide (status (this s) = ProcessStatus.Running)
         then is_signaled (this s') = is_signaled (this s) /\
              events s' =
                events s ++
                  [VmMapMemoryBlock target 0 stack_size MemoryState.Mapped; VmLogLayout;
                   SetupMainThread entry_point priority]
         else is_signaled (this s') = true /\
              events s' =
                events s ++
                  [VmMapMemoryBlock target 0 stack_size MemoryState.Mapped; VmLogLayout;
                   WakeupAllWaitingThreads; SetupMainThread entry_point priority])
  end.
Proof.
  intros stack_end target stack mapped. split.
  - intros Hsize Hend. subst target stack. unfold wrap64.
    rewrite Z.mod_small by lia. rewrite length_replicate. lia.
  - unfold Run, MapMemoryBlock, Unwrap, ChangeStatus. run_m.
    fold stack_end. fold target. fold stack. fold mapped.
    destruct mapped as [[h | code] vm']; cbn.
    + destruct (decide (status (this s) = ProcessStatus.Running)) as [Hst | Hst]; cbn.
      * eexists. split; [reflexivity |]. cbn.
        split; [done |]. split; [done |]. split; [done |].
        by rewrite <- !app_assoc.
      * eexists. split; [reflexivity |]. cbn.
        split; [done |]. split; [done |]. split; [done |].
        by rewrite <- !app_assoc.
    + unfold with_event, with_events, with_this. cbn. by rewrite <- !app_assoc.
Qed.

(** X20. The signal is consumed by one clear. After a successful
    [ClearSignalState] a second one is refused, waiting blocks again and
    [Acquire] aborts; a status change to a state other than [Exited]
    makes the next clear succeed again. *)
Theorem signal_is_consumed (thread : Thread) (s s1 : System VM) :
  ClearSignalState s = Done RESULT_SUCCESS s1 ->
  (exists s2, ClearSignalState s1 = Done ERR_INVALID_STATE s2 /\ this s2 = this s1) /\
  ShouldWait thread s1 = Done true s1 /\
  (exists s2, Acquire thread s1 = Abort s2 /\ this s2 = this s1) /\
  (forall new_status,
     new_status <> status (this s1) -> new_status <> ProcessStatus.Exited ->
     exists s2 s3,
       ChangeStatus new_status s1 = Done tt s2 /\
       ClearSignalState s2 = Done RESULT_SUCCESS s3 /\
       status (this s3) = new_status /\ is_signaled (this s3) = false).
Proof.
  intros Hclear.
  assert (Hs1 : s1 = with_this (set_is_signaled false (this s)) s /\
                status (this s) <> ProcessStatus.Exited).
  { revert Hclear. unfold ClearSignalState. run_m.
    destruct (decide (status (this s) = ProcessStatus.Exited)) as [| Hst]; [discriminate |].
    destruct (is_signaled (this s)); cbn; [| discriminate].
    by intros [= <-]. }
  destruct Hs1 as [-> Hst]. clear Hclear.
  split; [| split; [reflexivity | split]].
  - unfold ClearSignalState. run_m. rewrite decide_False by done. cbn. by eexists.
  - unfold Acquire, ShouldWait, ASSERT_MSG. run_m. by eexists.
  - intros new_status Hnew Hexit. cbn in Hnew.
    rewrite ChangeStatus_run. cbn [this with_this status set_is_signaled].
    rewrite decide_False by done.
    eexists _, _. split; [reflexivity |].
    unfold ClearSignalState. run_m. rewrite decide_False by done. cbn.
    by split.
Qed.

(** X21. [Create] takes the seed 0 when none is configured, registers
    with the kernel the very id it obtained from it, and writes the
    identity, the flags, the status and the syscall mask whatever the
    fresh object held there; the other fields are those of the fresh
    object. *)
Theorem Create_outcome {K : Type} {KOps : KernelCoreOps K}
    (kernel : K) (name0 : string) (rng_seed : option Z) (fresh : Process VM) :
  let created := Create kernel name0 rng_seed fresh in
  let id := (CreateNewProcessID kernel).1 in
  Create kernel name0 None fresh = Create kernel name0 (Some 0) fresh /\
  created.2 = AppendNewProcess id (CreateNewProcessID kernel).2 /\
  created.1 =
    set_random_entropy (generate_entropy (default 0 rng_seed))
      (set_svc_access_mask (bitset_set_all SVC_ACCESS_MASK_SIZE)
         (set_process_id id
            (set_program_id 0
               (set_status ProcessStatus.Created
                  (set_resource_limit (GetSystemResourceLimit kernel)
                     (set_flags_raw (memory_region_Assign 0 MemoryRegion.APPLICATION)
                        (set_name name0 fresh))))))) /\
  (forall fresh',
     set_name "" (set_flags_raw 0 (set_resource_limit 0
       (set_status ProcessStatus.Created (set_program_id 0 (set_process_id 0
         (set_svc_access_mask 0 (set_random_entropy [] fresh'))))))) =
     set_name "" (set_flags_raw 0 (set_resource_limit 0
       (set_status ProcessStatus.Created (set_program_id 0 (set_process_id 0
         (set_svc_access_mask 0 (set_random_entropy [] fresh))))))) ->
     Create kernel name0 rng_seed fresh' = created).
Proof.
  intros created id. subst created id. unfold Create.
  destruct (CreateNewProcessID kernel) as [id kernel']. cbn.
  split; [reflexivity |]. split; [reflexivity |]. split; [reflexivity |].
  intros fresh' Hsame. destruct fresh, fresh'. cbn in *.
  injection Hsame as -> -> -> -> -> -> -> ->. reflexivity.
Qed.

End LifecycleMore.

(** ** The further properties on the sample configuration *)

(** A handle-table descriptor with size field [0x200]. *)
Lemma descriptor_kinds_witness :
  has_type 0xFF0 0xFE0 0xFE000200 /\
  ParseKernelCaps (Decl := Sample.decl) [0xFE000200; 0xFFFFFFFF] Sample.system =
    ParseKernelCaps (Decl := Sample.decl) [0xFFFFFFFF]
      (with_this (set_handle_table_size (Z.land 0xFE000200 0x3FF) (this Sample.system))
         Sample.system).
Proof.
  split; [reflexivity |].
  destruct (descriptor_kinds (Decl := Sample.decl)
              0xFE000200 [0xFFFFFFFF] Sample.system) as (_ & Hhandle & _).
  exact (Hhandle eq_refl).
Defined.

(** A range descriptor followed by an unused entry. *)
Lemma unused_entries_skipped_witness :
  has_type 0xFFE 0xFF8 0xFF800001 /\
  ParseKernelCaps (Decl := Sample.decl) [0xFF800001; 0xFFFFFFFF; 0xFE000200]
    Sample.system =
    ParseKernelCaps (Decl := Sample.decl) [0xFE000200]
      (with_event incomplete_range Sample.system).
Proof.
  split; [reflexivity |].
  destruct (unused_entries_skipped (Decl := Sample.decl)
              0 [0xFE000200] Sample.system) as (_ & _ & Hrange).
  exact (Hrange 0xFF800001 eq_refl).
Defined.

(** The word [0x12345678] is of no kind. *)
Lemma low_words_unhandled_witness :
  0 <= 0x12345678 < 0xE0000000 /\
  ParseKernelCaps (Decl := Sample.decl) [0x12345678; 0xFE000200] Sample.system =
    ParseKernelCaps (Decl := Sample.decl) [0xFE000200]
      (with_event (LOG LogError "Unhandled kernel caps descriptor: 0x{:08X}")
         Sample.system).
Proof.
  split; [lia |].
  apply (low_words_unhandled (Decl := Sample.decl) 0x12345678 [0xFE000200] Sample.system).
  lia.
Defined.

(** A list that ends in a lone range descriptor, followed by a list
    that starts with a handle-table descriptor. *)
Lemma ParseKernelCaps_app_witness :
  ~ has_type 0xFFE 0xFF8 0xFE000200 /\
  ParseKernelCaps (Decl := Sample.decl) ([0xF0000005; 0xFF800001] ++ [0xFE000200])
    Sample.system =
    bind (ParseKernelCaps (Decl := Sample.decl) [0xF0000005; 0xFF800001])
      (fun _ => ParseKernelCaps (Decl := Sample.decl) [0xFE000200]) Sample.system.
Proof.
  assert (Hkind : ~ has_type 0xFFE 0xFF8 0xFE000200) by (unfold has_type; discriminate).
  split; [exact Hkind |].
  exact (ParseKernelCaps_app (Decl := Sample.decl)
           [0xF0000005; 0xFF800001] [0xFE000200] Sample.system Hkind).
Defined.

(** A syscall-mask descriptor of group 0 with an empty field, and one of
    group 6, which starts at bit 144 of a 128-bit mask. *)
Lemma empty_syscall_mask_descriptor_witness :
  has_type 0xF80 0xF00 0xF0000000 /\ Z.land 0xF0000000 0xFFFFFF = 0 /\
  has_type 0xF80 0xF00 0xF6000001 /\
  SVC_ACCESS_MASK_SIZE (Declarations := Sample.decl) <= Z.land (0xF6000001 ≫ 24) 7 * 24 /\
  ParseKernelCaps (Decl := Sample.decl) [0xF0000000] Sample.system =
    ParseKernelCaps (Decl := Sample.decl) [] Sample.system /\
  ParseKernelCaps (Decl := Sample.decl) [0xF6000001] Sample.system =
    ParseKernelCaps (Decl := Sample.decl) [] Sample.system.
Proof.
  assert (Hgroup : SVC_ACCESS_MASK_SIZE (Declarations := Sample.decl)
                   <= Z.land (0xF6000001 ≫ 24) 7 * 24) by (by vm_compute).
  split; [reflexivity |]. split; [reflexivity |]. split; [reflexivity |].
  split; [exact Hgroup |]. split.
  - exact (empty_syscall_mask_descriptor (Decl := Sample.decl)
             0xF0000000 [] Sample.system eq_refl (or_introl eq_refl)).
  - exact (empty_syscall_mask_descriptor (Decl := Sample.decl)
             0xF6000001 [] Sample.system eq_refl (or_intror Hgroup)).
Defined.

(** On a page with slots 0 and 2 occupied, the allocation does not hand
    out slot 2 again. *)
Lemma allocation_spares_occupied_witness :
  0 < TLS_ENTRY_SIZE (Declarations := Sample.decl) /\
  TLS_PAGE_SLOTS * TLS_ENTRY_SIZE (Declarations := Sample.decl)
    <= PAGE_SIZE (Declarations := Sample.decl) /\
  (Z.of_nat (length (tls_slots (this sample_tls_system))) + 1)
    * PAGE_SIZE (Declarations := Sample.decl) <= 2 ^ 64 /\
  tls_slots (this sample_tls_system) !! 0%nat = Some 5 /\
  0 <= 2 < TLS_PAGE_SLOTS /\ bitset_test 5 2 = true /\
  exists tls_address thread' s' b',
    MarkNextAvailableTLSSlotAsUsed (Decl := Sample.decl) (VMOps := Sample.vm_ops)
      (Sample.thread 13 1 ThreadStatus.Dormant) sample_tls_system =
      Done (tls_address, thread') s' /\
    tls_address <>
      wrap64 (vm_GetTLSIORegionBaseAddress (VMManagerOps := Sample.vm_ops)
                (vm_manager (this sample_tls_system))
              + Z.of_nat 0 * PAGE_SIZE (Declarations := Sample.decl)
              + 2 * TLS_ENTRY_SIZE (Declarations := Sample.decl)) /\
    tls_slots (this s') !! 0%nat = Some b' /\ bitset_test b' 2 = true.
Proof.
  assert (Hentry : 0 < TLS_ENTRY_SIZE (Declarations := Sample.decl)) by reflexivity.
  assert (Hpage : TLS_PAGE_SLOTS * TLS_ENTRY_SIZE (Declarations := Sample.decl)
                  <= PAGE_SIZE (Declarations := Sample.decl)) by (by vm_compute).
  assert (Hfit : (Z.of_nat (length (tls_slots (this sample_tls_system))) + 1)
                 * PAGE_SIZE (Declarations := Sample.decl) <= 2 ^ 64) by (by vm_compute).
  assert (Hslot : 0 <= 2 < TLS_PAGE_SLOTS) by (by vm_compute).
  split; [exact Hentry |]. split; [exact Hpage |]. split; [exact Hfit |].
  split; [reflexivity |]. split; [exact Hslot |]. split; [reflexivity |].
  exact (allocation_spares_occupied (Decl := Sample.decl) (VMOps := Sample.vm_ops)
           (Sample.thread 13 1 ThreadStatus.Dormant) sample_tls_system 0%nat 5 2
           Hentry Hpage Hfit eq_refl Hslot eq_refl).
Defined.

(** Slot 2 of page 0 freed twice: the second call changes nothing. *)
Lemma FreeTLSSlot_twice_witness :
  let s' := with_this (set_tls_slots [1] (this sample_tls_system)) sample_tls_system in
  FreeTLSSlot (Decl := Sample.decl) (VMOps := Sample.vm_ops) 0x40000400
    sample_tls_system = Done tt s' /\
  FreeTLSSlot (Decl := Sample.decl) (VMOps := Sample.vm_ops) 0x40000400 s' = Done tt s'.
Proof.
  intros s'.
  assert (Hfree : FreeTLSSlot (Decl := Sample.decl) (VMOps := Sample.vm_ops) 0x40000400
                    sample_tls_system = Done tt s') by (vm_compute; reflexivity).
  split; [exact Hfree |].
  exact (FreeTLSSlot_twice (Decl := Sample.decl) (VMOps := Sample.vm_ops)
           0x40000400 sample_tls_system s' Hfree).
Defined.

(** The one free that releases anything lowers the count by one, the
    repeated one keeps the system. *)
Lemma occupied_slots_counted_witness :
  let s' := with_this (set_tls_slots [1] (this sample_tls_system)) sample_tls_system in
  FreeTLSSlot (Decl := Sample.decl) (VMOps := Sample.vm_ops) 0x40000400
    sample_tls_system = Done tt s' /\
  length (tls_slots (this s')) = length (tls_slots (this sample_tls_system)) /\
  (S (occupied (tls_slots (this s'))) = occupied (tls_slots (this sample_tls_system)) \/
   s' = sample_tls_system).
Proof.
  intros s'.
  assert (Hfree : FreeTLSSlot (Decl := Sample.decl) (VMOps := Sample.vm_ops) 0x40000400
                    sample_tls_system = Done tt s') by (vm_compute; reflexivity).
  split; [exact Hfree |].
  exact (proj2 (occupied_slots_counted (Decl := Sample.decl) (VMOps := Sample.vm_ops))
           0x40000400 sample_tls_system s' Hfree).
Defined.

(** An address [0x10] bytes into slot 2 of page 0 frees that slot. *)
Lemma FreeTLSSlot_inside_entry_witness :
  0 < TLS_ENTRY_SIZE (Declarations := Sample.decl) /\
  TLS_PAGE_SLOTS * TLS_ENTRY_SIZE (Declarations := Sample.decl)
    <= PAGE_SIZE (Declarations := Sample.decl) /\
  0 <= 2 < TLS_PAGE_SLOTS /\
  0 <= 0x10 < TLS_ENTRY_SIZE (Declarations := Sample.decl) /\
  (0 + 1) * PAGE_SIZE (Declarations := Sample.decl) <= 2 ^ 64 /\
  FreeTLSSlot (Decl := Sample.decl) (VMOps := Sample.vm_ops) 0x40000410
    sample_tls_system =
  FreeTLSSlot (Decl := Sample.decl) (VMOps := Sample.vm_ops) 0x40000400
    sample_tls_system.
Proof.
  assert (Hentry : 0 < TLS_ENTRY_SIZE (Declarations := Sample.decl)) by reflexivity.
  assert (Hpage : TLS_PAGE_SLOTS * TLS_ENTRY_SIZE (Declarations := Sample.decl)
                  <= PAGE_SIZE (Declarations := Sample.decl)) by (by vm_compute).
  assert (Hslot : 0 <= 2 < TLS_PAGE_SLOTS) by (by vm_compute).
  assert (Hd : 0 <= 0x10 < TLS_ENTRY_SIZE (Declarations := Sample.decl))
    by (by vm_compute).
  assert (Hfit : (0 + 1) * PAGE_SIZE (Declarations := Sample.decl) <= 2 ^ 64)
    by (by vm_compute).
  split; [exact Hentry |]. split; [exact Hpage |]. split; [exact Hslot |].
  split; [exact Hd |]. split; [exact Hfit |].
  exact (FreeTLSSlot_inside_entry (Decl := Sample.decl) (VMOps := Sample.vm_ops)
           sample_tls_system 0 2 0x10 Hentry Hpage (Z.le_refl 0) Hslot Hd Hfit).
Defined.

(** Running the sample process, allocating for a thread, clearing the
    signal and terminating never touch its capabilities. *)
Lemma capabilities_change_only_by_parsing_witness :
  let ops := [OpRun 0x1000 44 0x4000;
              OpMarkNextAvailableTLSSlotAsUsed (Sample.thread 13 1 ThreadStatus.Dormant);
              OpClearSignalState; OpPrepareForTermination] in
  forallb (fun op => negb (is_parse op)) ops = true /\
  same_capabilities (this Sample.system)
    (this (final_state
             (calls (Decl := Sample.decl) (VMOps := Sample.vm_ops) ops Sample.system))).
Proof.
  intros ops. split; [reflexivity |].
  exact (capabilities_change_only_by_parsing (Decl := Sample.decl) (VMOps := Sample.vm_ops)
           ops Sample.system eq_refl).
Defined.

(** Loading the sample module, a heap request and an unmapping leave
    every field of the sample process but [vm_manager]. *)
Lemma address_space_operations_frame_witness :
  let ops := [OpLoadModule Sample.module_ 0x8000000;
              OpHeapAllocate 0x10000000 0x1000 VMAPermission.ReadWrite;
              OpUnmapMemory 0x8000000 0 0x2000] in
  forallb is_address_space_op ops = true /\
  same_but_vm_manager (this Sample.system)
    (this (final_state
             (calls (Decl := Sample.decl) (VMOps := Sample.vm_ops) ops Sample.system))).
Proof.
  intros ops. split; [reflexivity |].
  exact (address_space_operations_frame (Decl := Sample.decl) (VMOps := Sample.vm_ops)
           ops Sample.system eq_refl).
Defined.

(** The sample process after its termination, and then after a parse,
    a TLS allocation and an attempt to clear the signal. *)
Lemma exited_process_stays_signaled_witness :
  let ops := [OpParseKernelCaps [0xFE000200];
              OpMarkNextAvailableTLSSlotAsUsed (Sample.thread 13 1 ThreadStatus.Dormant);
              OpClearSignalState; OpLoadModule Sample.module_ 0x8000000] in
  forallb no_restart ops = true /\
  exists s',
    PrepareForTermination Sample.system = Done tt s' /\
    (let s1 := final_state
                 (calls (Decl := Sample.decl) (VMOps := Sample.vm_ops) ops s') in
     status (this s1) = ProcessStatus.Exited /\ is_signaled (this s1) = true /\
     ShouldWait (Sample.thread 20 2 ThreadStatus.Ready) s1 = Done false s1 /\
     Acquire (Sample.thread 20 2 ThreadStatus.Ready) s1 = Done tt s1 /\
     exists s2, ClearSignalState s1 = Done ERR_INVALID_STATE s2 /\
                this s2 = this s1 /\ is_signaled (this s2) = true).
Proof.
  intros ops. split; [reflexivity |].
  eexists. split; [vm_compute; reflexivity |].
  refine (proj1 (exited_process_stays_signaled (Decl := Sample.decl)
                   (VMOps := Sample.vm_ops)
                   (Sample.thread 20 2 ThreadStatus.Ready) ops Sample.system _ _ _)).
  - vm_compute. reflexivity.
  - reflexivity.
Defined.

(** The sample process, created and never run, is woken twice. *)
Lemma PrepareForTermination_wakeups_witness :
  exists s',
    PrepareForTermination Sample.system = Done tt s' /\
    wakeups (events s') = 2%nat.
Proof.
  eexists. split; [vm_compute; reflexivity |].
  apply (PrepareForTermination_wakeups (VM := Sample.vm)
           Sample.system).
  vm_compute. reflexivity.
Defined.

(** The stack of the sample process: [0x4000] bytes below [0x80000000]. *)
Lemma Run_outcome_witness :
  0 <= 0x4000 <= 0x80000000 /\ 0x80000000 < 2 ^ 64 /\
  wrap64 (0x80000000 - 0x4000) + 0x4000 = 0x80000000 /\
  exists s',
    Run (VMOps := Sample.vm_ops) 0x1000 44 0x4000 Sample.system =
      Done tt s' /\
    status (this s') = ProcessStatus.Running /\
    events s' =
      [VmMapMemoryBlock 0x7FFFC000 0 0x4000 MemoryState.Mapped; VmLogLayout;
       WakeupAllWaitingThreads; SetupMainThread 0x1000 44].
Proof.
  assert (Hsize : 0 <= 0x4000 <= 0x80000000) by lia.
  assert (Hend : 0x80000000 < 2 ^ 64) by lia.
  split; [exact Hsize |]. split; [exact Hend |].
  destruct (Run_outcome (VMOps := Sample.vm_ops)
              0x1000 44 0x4000 Sample.system) as [Hstack Hrun].
  split; [exact (proj1 (Hstack Hsize Hend)) |].
  destruct Hrun as (s' & Hdone & Hstatus & _ & _ & Hevents).
  exists s'. split; [exact Hdone |]. split; [exact Hstatus | exact Hevents].
Defined.

(** The signal of the sample process, raised and cleared once. *)
Lemma signal_is_consumed_witness :
  let s1 := with_this (set_is_signaled false (this sample_signaled_system))
              sample_signaled_system in
  ClearSignalState sample_signaled_system = Done RESULT_SUCCESS s1 /\
  (exists s2, ClearSignalState s1 = Done ERR_INVALID_STATE s2 /\ this s2 = this s1) /\
  ShouldWait (Sample.thread 20 2 ThreadStatus.Ready) s1 = Done true s1.
Proof.
  intros s1.
  assert (Hclear : ClearSignalState sample_signaled_system = Done RESULT_SUCCESS s1)
    by reflexivity.
  split; [exact Hclear |].
  destruct (signal_is_consumed (VM := Sample.vm)
              (Sample.thread 20 2 ThreadStatus.Ready) sample_signaled_system s1 Hclear)
    as (Hagain & Hwait & _).
  split; [exact Hagain | exact Hwait].
Defined.

(** Two fresh objects that differ in the name only give the same
    created process. *)
Lemma Create_outcome_witness :
  Create (Decl := Sample.decl) (KOps := Sample.kernel_ops)
    (1, []) "main" None (set_name "other" Sample.fresh) =
  Create (Decl := Sample.decl) (KOps := Sample.kernel_ops)
    (1, []) "main" None Sample.fresh.
Proof.
  destruct (Create_outcome (Decl := Sample.decl) (VM := Sample.vm)
              (KOps := Sample.kernel_ops) (1, []) "main" None Sample.fresh)
    as (_ & _ & _ & Hsame).
  exact (Hsame (set_name "other" Sample.fresh) eq_refl).
Defined.
